(** * DS2Backup: the backup selection and command dispatch of [dsb.py]

    A shallow embedding of [src/dsb.py].  Python strings are [string]
    (8-bit characters), [pathlib.Path] is the list of its parts, the
    exceptions the program can raise are one inductive type, and code
    that touches the file system threads an explicit [world].

    What the model takes from the Python runtime rather than from
    [dsb.py] itself is kept in the modules [Py], [Pathlib] and
    [Datetime] and in the section on the file system: [str] of an
    integer, [str.partition], [repr] of a string, the POSIX flavour of
    [pathlib], the regular expression [datetime.strptime] builds for
    the format [%y%m%d%H%M%S], and what [os.stat], [Path.exists],
    [Path.is_file], [shutil.copy] and [Path.unlink] answer.

    Limits of the model.  File names are sequences of characters
    below 256, which the file system stores in UTF-8, and a digit is
    one of [0]..[9].  Paths follow the
    POSIX flavour: the separator is the slash and names are compared
    case-sensitively.  A path names a file by its parts as they are
    written: [..] parts and symbolic links, which give one file
    several names, are not resolved.  The file system is a Linux one,
    with names of at most 255 bytes and paths of fewer than 4096;
    permissions appear only as failures injected into a copy or a
    delete.  The world tracks the children of the backup directory, in
    the order the directory reports them, and the regular files
    elsewhere.  The backup directory is the only directory outside of
    its own listing that the world represents: any other directory is
    taken to exist on the way to a file, and the path of the save file
    never names one.  The interactive loop is run over a finite list
    of input lines, tokenised by the module [Shlex] ([shlex.split] in
    POSIX mode); the banner it prints and [main], which reads the
    environment, are left out. *)

From Stdlib Require Import List String Ascii Arith PeanoNat Bool Lia.
From Stdlib Require Import Decimal DecimalNat DecimalString NArith.
Import ListNotations.
Open Scope list_scope.
Open Scope string_scope.

(* ================================================================== *)
(** ** Python values the program relies on *)
(* ================================================================== *)

Module Py.

(** [str(n)] for a non-negative integer. *)
Definition str_int (n : nat) : string :=
  NilEmpty.string_of_uint (Nat.to_uint n).

(** Truth value of a string: the empty string is false. *)
Definition truthy (s : string) : bool :=
  match s with EmptyString => false | String _ _ => true end.

(** [s.partition(sep)] for a one-character separator: the text before
    the first [sep], the separator found (or nothing), the text after
    it.  Without a separator the result is [(s, '', '')]. *)
Fixpoint partition (sep : ascii) (s : string) : string * string * string :=
  match s with
  | EmptyString => ("", "", "")
  | String c s' =>
      if Ascii.eqb c sep then ("", String sep "", s')
      else let '(a, m, b) := partition sep s' in (String c a, m, b)
  end.

(** [sep.join(items)]. *)
Fixpoint join (sep : string) (items : list string) : string :=
  match items with
  | [] => ""
  | [x] => x
  | x :: rest => x ++ sep ++ join sep rest
  end.

(** [s.endswith(suffix)]. *)
Definition endswith (s suffix : string) : bool :=
  let n := String.length s in
  let k := String.length suffix in
  (k <=? n)%nat && String.eqb (substring (n - k) k s) suffix.

(** [s.rfind(c)] for one character. *)
Fixpoint rfind (c : ascii) (s : string) : option nat :=
  match s with
  | EmptyString => None
  | String d s' =>
      match rfind c s' with
      | Some i => Some (S i)
      | None => if Ascii.eqb d c then Some 0 else None
      end
  end.

(** [c in s] for one character. *)
Fixpoint contains (c : ascii) (s : string) : bool :=
  match s with
  | EmptyString => false
  | String d s' => Ascii.eqb d c || contains c s'
  end.

Definition is_digit (c : ascii) : bool :=
  let n := N_of_ascii c in ((48 <=? n) && (n <=? 57))%N.

(** [int(s)] on what a group of the timestamp pattern can capture:
    decimal digits, after an optional blank that [int] skips. *)
Fixpoint int_from (acc : N) (s : string) : N :=
  match s with
  | EmptyString => acc
  | String c s' =>
      if is_digit c then int_from (10 * acc + (N_of_ascii c - 48))%N s'
      else int_from acc s'
  end.

Definition int (s : string) : N := int_from 0%N s.

Definition dquote : ascii := ascii_of_nat 34.

Definition hex_digit (n : nat) : ascii :=
  nth n (list_ascii_of_string "0123456789abcdef") "0"%char.

(** [c.isprintable()] for a character below 256. *)
Definition printable (c : ascii) : bool :=
  let n := nat_of_ascii c in
  ((32 <=? n) && (n <? 127) || (161 <=? n) && negb (n =? 173))%nat.

Definition repr_char (quote c : ascii) : string :=
  let n := nat_of_ascii c in
  if Ascii.eqb c quote || Ascii.eqb c "\" then String "\" (String c "")
  else if (n =? 9)%nat then "\t"
  else if (n =? 10)%nat then "\n"
  else if (n =? 13)%nat then "\r"
  else if printable c then String c ""
  else String "\" (String "x" (String (hex_digit (n / 16))
                                    (String (hex_digit (n mod 16)) ""))).

(** [repr(s)]: double quotes when [s] holds a single quote and no
    double quote, single quotes otherwise. *)
Definition repr (s : string) : string :=
  let quote := if contains "'" s && negb (contains dquote s)
               then dquote else "'"%char in
  String quote
    (String.concat "" (map (repr_char quote) (list_ascii_of_string s))
     ++ String quote "").

End Py.

(* ================================================================== *)
(** ** pathlib, POSIX flavour *)
(* ================================================================== *)

Module Pathlib.

(** A path is the list of its parts. *)
Definition Path := list string.

Definition Path_eqb (p q : Path) : bool :=
  if list_eq_dec string_dec p q then true else false.

Fixpoint split_slash (s : string) : list string :=
  match s with
  | EmptyString => [""]
  | String c s' =>
      if Ascii.eqb c "/" then "" :: split_slash s'
      else match split_slash s' with
           | [] => [String c ""]
           | h :: t => String c h :: t
           end
  end.

(** Empty and [.] components are dropped when a path is parsed. *)
Definition keep_part (p : string) : bool :=
  negb (String.eqb p "" || String.eqb p ".").

Definition parse_parts (s : string) : list string :=
  filter keep_part (split_slash s).

Definition is_absolute (s : string) : bool :=
  match s with String "/" _ => true | _ => false end.

(** [p.joinpath(s)]: an absolute [s] replaces [p]. *)
Definition joinpath (p : Path) (s : string) : Path :=
  if is_absolute s then "/" :: parse_parts s else (p ++ parse_parts s)%list.

(** [str(p)]. *)
Definition str (p : Path) : string :=
  match p with
  | [] => "."
  | "/" :: rest => "/" ++ Py.join "/" rest
  | _ => Py.join "/" p
  end.

(** [p.name]: the final component. *)
Definition name (p : Path) : string := last p "".

(** [p.stem]: the final component without its last suffix. *)
Definition stem (p : Path) : string :=
  let n := name p in
  match Py.rfind "." n with
  | Some i =>
      if ((0 <? i) && (i <? String.length n - 1))%nat then substring 0 i n else n
  | None => n
  end.

End Pathlib.

Export Pathlib.

(* ================================================================== *)
(** ** Exceptions and results *)
(* ================================================================== *)

(** The exception classes the program raises or lets through.  The
    copy and delete primitives raise subclasses of [OSError], kept
    with their class name, [errno] and message; [shutil.SameFileError]
    is one that carries a message only. *)
Inductive exc : Type :=
| UnknownModeError (cmd : string)
| BackupNotFoundError (selector : string)
| IsADirectoryError (path : Path)
| FileNotFoundError (path : Path)
| ValueError (msg : string)
| TypeError (msg : string)
| OSError (cls : string) (errno : nat) (strerror : string)
| SameFileError (src dst : Path).

(** [type(err).__name__]. *)
Definition exc_name (e : exc) : string :=
  match e with
  | UnknownModeError _ => "UnknownModeError"
  | BackupNotFoundError _ => "BackupNotFoundError"
  | IsADirectoryError _ => "IsADirectoryError"
  | FileNotFoundError _ => "FileNotFoundError"
  | ValueError _ => "ValueError"
  | TypeError _ => "TypeError"
  | OSError cls _ _ => cls
  | SameFileError _ _ => "SameFileError"
  end.

(** [map(str, err.args)]. *)
Definition exc_args (e : exc) : list string :=
  match e with
  | UnknownModeError cmd => [cmd]
  | BackupNotFoundError selector => [selector]
  | IsADirectoryError p => [Pathlib.str p]
  | FileNotFoundError p => [Pathlib.str p]
  | ValueError msg => [msg]
  | TypeError msg => [msg]
  | OSError _ errno strerror => [Py.str_int errno; strerror]
  | SameFileError src dst =>
      [Py.repr (Pathlib.str src) ++ " and " ++ Py.repr (Pathlib.str dst)
       ++ " are the same file"]
  end.

Inductive result (A : Type) : Type :=
| Ok (a : A)
| Raise (e : exc).

Arguments Ok {A} a.
Arguments Raise {A} e.

Definition bind_result {A B} (r : result A) (k : A -> result B) : result B :=
  match r with
  | Ok a => k a
  | Raise e => Raise e
  end.

(* ================================================================== *)
(** ** datetime: the file format [%y%m%d%H%M%S] *)
(* ================================================================== *)

Module Datetime.

Record datetime : Type := mkDatetime {
  year : N;
  month : N;
  day : N;
  hour : N;
  minute : N;
  second : N;
  microsecond : N
}.

Definition is_leap (y : N) : bool :=
  ((y mod 4 =? 0) && (negb (y mod 100 =? 0) || (y mod 400 =? 0)))%N.

Definition days_in_month (y m : N) : N :=
  (if m =? 2 then (if is_leap y then 29 else 28)
   else if (m =? 4) || (m =? 6) || (m =? 9) || (m =? 11) then 30
   else 31)%N.

(** The values a [datetime] object can hold ([MINYEAR] is 1 and
    [MAXYEAR] is 9999). *)
Definition valid (t : datetime) : bool :=
  ((1 <=? year t) && (year t <=? 9999)
   && (1 <=? month t) && (month t <=? 12)
   && (1 <=? day t) && (day t <=? days_in_month (year t) (month t))
   && (hour t <? 24) && (minute t <? 60) && (second t <? 60)
   && (microsecond t <? 1000000))%N.

(** Comparison of two datetimes, field by field. *)
Definition fields (t : datetime) : list N :=
  [year t; month t; day t; hour t; minute t; second t; microsecond t].

Fixpoint lex_compare (a b : list N) : comparison :=
  match a, b with
  | [], [] => Eq
  | [], _ :: _ => Lt
  | _ :: _, [] => Gt
  | x :: a', y :: b' =>
      match N.compare x y with
      | Eq => lex_compare a' b'
      | c => c
      end
  end.

Definition compare (t1 t2 : datetime) : comparison :=
  lex_compare (fields t1) (fields t2).

(** [t1 < t2]. *)
Definition earlier (t1 t2 : datetime) : Prop := compare t1 t2 = Lt.

(** [t.replace(microsecond=0)]: the resolution of the file format. *)
Definition truncate (t : datetime) : datetime :=
  mkDatetime (year t) (month t) (day t) (hour t) (minute t) (second t) 0.

(** *** strftime *)

Definition digit_char (d : N) : ascii := ascii_of_N (48 + d).

(** A zero-padded field of two digits. *)
Definition two_digits (n : N) : string :=
  String (digit_char (n / 10)%N) (String (digit_char (n mod 10)%N) "").

(** [t.strftime('%y%m%d%H%M%S')]. *)
Definition strftime (t : datetime) : string :=
  two_digits (year t mod 100)%N ++ two_digits (month t) ++ two_digits (day t)
  ++ two_digits (hour t) ++ two_digits (minute t) ++ two_digits (second t).

(** *** strptime

    [_strptime] turns the format into a regular expression, one
    named group per directive, and matches it with [re.match]: a
    backtracking search that tries the alternatives of each group in
    the order written and keeps the first way to match all groups.
    The match may stop before the end of the text; what is left
    over is then reported as an error. *)

Inductive cclass : Type :=
| Digit                       (* \d *)
| Range (lo hi : ascii)       (* [lo-hi] *)
| Lit (c : ascii).

Definition cc_match (k : cclass) (c : ascii) : bool :=
  match k with
  | Digit => Py.is_digit c
  | Range lo hi =>
      ((N_of_ascii lo <=? N_of_ascii c)
       && (N_of_ascii c <=? N_of_ascii hi))%N
  | Lit l => Ascii.eqb c l
  end.

(** One alternative is a sequence of character classes; a group is
    an ordered choice of alternatives. *)
Definition alt := list cclass.
Definition group := list alt.

Fixpoint match_alt (a : alt) (s : string) : option (string * string) :=
  match a, s with
  | [], _ => Some ("", s)
  | k :: a', String c s' =>
      if cc_match k c then
        match match_alt a' s' with
        | Some (m, r) => Some (String c m, r)
        | None => None
        end
      else None
  | _ :: _, EmptyString => None
  end.

(** One group followed by the rest of the pattern [k]: the first
    alternative, in the order written, after which the rest also
    matches.  The result is the captured texts and what is left. *)
Fixpoint try_alts (alts : group) (k : string -> option (list string * string))
         (s : string) : option (list string * string) :=
  match alts with
  | [] => None
  | a :: alts' =>
      match match_alt a s with
      | Some (m, r) =>
          match k r with
          | Some (ms, r') => Some (m :: ms, r')
          | None => try_alts alts' k s
          end
      | None => try_alts alts' k s
      end
  end.

(** The first match of the groups in sequence, in backtracking
    order. *)
Fixpoint match_groups (gs : list group) (s : string)
  : option (list string * string) :=
  match gs with
  | [] => Some ([], s)
  | g :: gs' => try_alts g (match_groups gs') s
  end.

Definition re_y : group := [[Digit; Digit]].
Definition re_m : group :=
  [[Lit "1"; Range "0" "2"]; [Lit "0"; Range "1" "9"]; [Range "1" "9"]].
Definition re_d : group :=
  [[Lit "3"; Range "0" "1"]; [Range "1" "2"; Digit]; [Lit "0"; Range "1" "9"];
   [Range "1" "9"]; [Lit " "; Range "1" "9"]].
Definition re_H : group :=
  [[Lit "2"; Range "0" "3"]; [Range "0" "1"; Digit]; [Digit]].
Definition re_M : group := [[Range "0" "5"; Digit]; [Digit]].
Definition re_S : group :=
  [[Lit "6"; Range "0" "1"]; [Range "0" "5"; Digit]; [Digit]].

(** The pattern of [TIME_FILE_FORMAT]. *)
Definition TIME_FILE_REGEX : list group := [re_y; re_m; re_d; re_H; re_M; re_S].

(** A two-digit year up to 68 is in the 2000s, above in the 1900s. *)
Definition pivot_year (y : N) : N :=
  (if y <=? 68 then y + 2000 else y + 1900)%N.

(** [datetime.strptime(s, '%y%m%d%H%M%S')].  Every failure is a
    [ValueError]. *)
Definition strptime (s : string) : result datetime :=
  match match_groups TIME_FILE_REGEX s with
  | None =>
      Raise (ValueError ("time data " ++ Py.repr s
                         ++ " does not match format '%y%m%d%H%M%S'"))
  | Some (found, rest) =>
      if Py.truthy rest then
        Raise (ValueError ("unconverted data remains: " ++ rest))
      else
        match map Py.int found with
        | [y; m; d; hh; mm; ss] =>
            let y' := pivot_year y in
            if (days_in_month y' m <? d)%N then
              Raise (ValueError "day is out of range for month")
            else if (59 <? ss)%N then
              Raise (ValueError "second must be in 0..59")
            else Ok (mkDatetime y' m d hh mm ss 0)
        | _ => Raise (ValueError "unreachable: six groups are captured")
        end
  end.

End Datetime.

Export Datetime.

(* ================================================================== *)
(** ** The file system the program runs against *)
(* ================================================================== *)

(** [gen_backup_dir_path()]. *)
Definition gen_backup_dir_path : Path := ["files"].

Definition TIME_FILE_FORMAT : string := "%y%m%d%H%M%S".
Definition SAVE_FILE_SUFFIX : string := ".sl2".

Inductive node : Type :=
| KFile (data : string)     (* a regular file and its content *)
| KDir.                     (* a directory *)

(** A failure the operating system injects into a copy or a delete
    (permissions, a full disk): class name, [errno], message. *)
Definition os_fault : Type := (string * nat * string)%type.

Record world : Type := mkWorld {
  (** the children of the backup directory, in the order [scandir]
      reports them *)
  listing : list (string * node);
  (** the regular files that are not children of the backup
      directory, the live save file among them, each under its path
      as written *)
  outside : list (Path * string);
  (** what [datetime.now()] returns *)
  clock : datetime;
  (** the position at which the directory will list its next new
      child *)
  slot : nat;
  (** one entry per coming copy or delete that gets as far as opening
      or unlinking a file *)
  faults : list (option os_fault)
}.

Fixpoint assoc {A} (k : string) (l : list (string * A)) : option A :=
  match l with
  | [] => None
  | (k', v) :: l' => if String.eqb k k' then Some v else assoc k l'
  end.

Fixpoint assoc_path {A} (k : Path) (l : list (Path * A)) : option A :=
  match l with
  | [] => None
  | (k', v) :: l' => if Path_eqb k k' then Some v else assoc_path k l'
  end.

(** [Some f] when [p] is the child [f] of the directory [d]. *)
Fixpoint child_of (d p : Path) : option string :=
  match d, p with
  | [], [f] => Some f
  | x :: d', y :: p' => if String.eqb x y then child_of d' p' else None
  | _, _ => None
  end.

(** What the world holds under [p].  The backup directory itself is a
    directory: [BackupDir.__init__] made it. *)
Definition stat (w : world) (p : Path) : option node :=
  match child_of gen_backup_dir_path p with
  | Some f => assoc f (listing w)
  | None =>
      if Path_eqb p gen_backup_dir_path then Some KDir
      else option_map KFile (assoc_path p (outside w))
  end.

(** *** What the operating system answers *)

Definition ENOENT : exc := OSError "FileNotFoundError" 2 "No such file or directory".
Definition EISDIR : exc := OSError "IsADirectoryError" 21 "Is a directory".
Definition ENOTDIR : exc := OSError "NotADirectoryError" 20 "Not a directory".
Definition ENAMETOOLONG : exc := OSError "OSError" 36 "File name too long".

(** The number of bytes of [os.fsencode(s)]: in UTF-8 a character
    from 128 on takes two. *)
Fixpoint fs_length (s : string) : nat :=
  match s with
  | EmptyString => 0
  | String c s' =>
      (if (nat_of_ascii c <? 128)%nat then 1 else 2) + fs_length s'
  end.

(** The longest name of a directory entry and the length from which
    a path is refused, in bytes. *)
Definition NAME_MAX : nat := 255.
Definition PATH_MAX : nat := 4096.

(** Python refuses a path with a NUL character before any system
    call. *)
Definition has_nul (p : Path) : bool := existsb (Py.contains Ascii.zero) p.

(** The walk along a path the world does not hold.  The parts are
    entered from the left; the walk ends with an error at the first
    part that cannot be entered, and without one when only the last
    part is missing.  A part the world does not hold, before the last
    one, is missing when it is a child of the backup directory;
    elsewhere it is a directory the world does not track, and is
    passed over. *)
Fixpoint walk (w : world) (seen : Path) (rest : list string) : option exc :=
  match rest with
  | [] => None
  | c :: rest' =>
      match stat w (seen ++ [c])%list with
      | Some KDir => walk w (seen ++ [c])%list rest'
      | Some (KFile _) => Some ENOTDIR
      | None =>
          if (NAME_MAX <? fs_length c)%nat then Some ENAMETOOLONG
          else
            match rest', child_of gen_backup_dir_path (seen ++ [c])%list with
            | [], _ => None
            | _ :: _, Some _ => Some ENOENT
            | _ :: _, None => walk w (seen ++ [c])%list rest'
            end
      end
  end.

(** Why a system call on a path the world does not hold fails before
    it ever looks for the last part. *)
Definition refused (w : world) (p : Path) : option exc :=
  if has_nul p then Some (ValueError "embedded null byte")
  else if (PATH_MAX <=? fs_length (Pathlib.str p))%nat then Some ENAMETOOLONG
  else walk w [] p.

(** [os.stat(p)].  What the world lists is there; the limits on names
    bear on what it does not list. *)
Definition os_stat (w : world) (p : Path) : result node :=
  match stat w p with
  | Some n => Ok n
  | None =>
      match refused w p with
      | Some e => Raise e
      | None => Raise ENOENT
      end
  end.

(** [pathlib._ignore_error]: [ENOENT], [ENOTDIR], [EBADF], [ELOOP]. *)
Definition ignore_error (errno : nat) : bool :=
  existsb (Nat.eqb errno) [2; 20; 9; 40].

(** [p.exists()]: an [OSError] that is not ignored is raised again; a
    [ValueError] means the path cannot be there. *)
Definition exists_ (w : world) (p : Path) : result bool :=
  match os_stat w p with
  | Ok _ => Ok true
  | Raise (OSError cls errno msg) =>
      if ignore_error errno then Ok false else Raise (OSError cls errno msg)
  | Raise (ValueError _) => Ok false
  | Raise e => Raise e
  end.

(** [p.is_file()], with the same handlers. *)
Definition is_file (w : world) (p : Path) : result bool :=
  match os_stat w p with
  | Ok (KFile _) => Ok true
  | Ok KDir => Ok false
  | Raise (OSError cls errno msg) =>
      if ignore_error errno then Ok false else Raise (OSError cls errno msg)
  | Raise (ValueError _) => Ok false
  | Raise e => Raise e
  end.

(** [os.path.isdir(p)]: every failure of [os.stat] is [False]. *)
Definition isdir (w : world) (p : Path) : bool :=
  match os_stat w p with Ok KDir => true | _ => false end.

(** [d.glob('*' + suffix)]: the children of [d] whose name ends with
    the suffix, directories included, in listing order. *)
Definition glob (w : world) (d : Path) (suffix : string) : list Path :=
  if Path_eqb d gen_backup_dir_path then
    map (fun e => (d ++ [fst e])%list)
        (filter (fun e => Py.endswith (fst e) suffix) (listing w))
  else [].

(** *** State and failure *)

Definition M (A : Type) : Type := world -> result A * world.

Definition ret {A} (a : A) : M A := fun w => (Ok a, w).
Definition raise {A} (e : exc) : M A := fun w => (Raise e, w).
Definition bind {A B} (c : M A) (k : A -> M B) : M B :=
  fun w => match c w with
           | (Ok a, w') => k a w'
           | (Raise e, w') => (Raise e, w')
           end.
Definition lift {A} (r : world -> result A) : M A := fun w => (r w, w).

Notation "x <- c ;; k" := (bind c (fun x => k))
  (at level 61, c at next level, right associativity).

(** *** The copy and delete primitives *)

Definition next_fault : M unit :=
  fun w =>
    match faults w with
    | [] => (Ok tt, w)
    | f :: fs =>
        let w' := mkWorld (listing w) (outside w) (clock w) (slot w) fs in
        match f with
        | None => (Ok tt, w')
        | Some (cls, errno, msg) => (Raise (OSError cls errno msg), w')
        end
    end.

(** [open(p, 'rb')] and reading to the end. *)
Definition read_file (p : Path) : M string :=
  fun w => match os_stat w p with
           | Ok (KFile data) => (Ok data, w)
           | Ok KDir => (Raise EISDIR, w)
           | Raise e => (Raise e, w)
           end.

Fixpoint replace_entry (f : string) (n : node) (l : list (string * node))
  : list (string * node) :=
  match l with
  | [] => []
  | (f', n') :: l' =>
      if String.eqb f f' then (f', n) :: l' else (f', n') :: replace_entry f n l'
  end.

Fixpoint remove_entry (f : string) (l : list (string * node))
  : list (string * node) :=
  match l with
  | [] => []
  | (f', n') :: l' =>
      if String.eqb f f' then l' else (f', n') :: remove_entry f l'
  end.

Fixpoint set_path (p : Path) (data : string) (l : list (Path * string))
  : list (Path * string) :=
  match l with
  | [] => [(p, data)]
  | (p', d') :: l' =>
      if Path_eqb p p' then (p', data) :: l' else (p', d') :: set_path p data l'
  end.

Fixpoint remove_path (p : Path) (l : list (Path * string))
  : list (Path * string) :=
  match l with
  | [] => []
  | (p', d') :: l' =>
      if Path_eqb p p' then l' else (p', d') :: remove_path p l'
  end.

Definition insert_at {A} (n : nat) (x : A) (l : list A) : list A :=
  (firstn n l ++ x :: skipn n l)%list.

(** The world after [p] has received [data]: a child of the backup
    directory is replaced where it is listed or listed at [slot]. *)
Definition put (p : Path) (data : string) (w : world) : world :=
  match child_of gen_backup_dir_path p with
  | Some f =>
      match assoc f (listing w) with
      | Some _ =>
          mkWorld (replace_entry f (KFile data) (listing w))
                  (outside w) (clock w) (slot w) (faults w)
      | None =>
          mkWorld (insert_at (slot w) (f, KFile data) (listing w))
                  (outside w) (clock w) (slot w) (faults w)
      end
  | None =>
      mkWorld (listing w) (set_path p data (outside w))
              (clock w) (slot w) (faults w)
  end.

(** [open(p, 'wb')] and writing [data]: a file that is there is
    overwritten; one that is not is created when the walk reaches its
    last part. *)
Definition write_file (p : Path) (data : string) : M unit :=
  fun w =>
    match stat w p with
    | Some (KFile _) => (Ok tt, put p data w)
    | Some KDir => (Raise EISDIR, w)
    | None =>
        match refused w p with
        | Some e => (Raise e, w)
        | None => (Ok tt, put p data w)
        end
    end.

(** [shutil._samefile(src, dst)]: [os.path.samefile] compares what
    [os.stat] returns for the two paths, and only an [OSError] of
    [os.stat] is caught. *)
Definition samefile (src dst : Path) (w : world) : result bool :=
  match os_stat w src with
  | Raise (OSError _ _ _) => Ok false
  | Raise e => Raise e
  | Ok _ =>
      match os_stat w dst with
      | Raise (OSError _ _ _) => Ok false
      | Raise e => Raise e
      | Ok _ => Ok (Path_eqb src dst)
      end
  end.

(** [_stat(fn)] in the loop of [shutil.copyfile]: an [OSError] is
    passed over, any other error is not. *)
Definition probe (p : Path) (w : world) : result unit :=
  match os_stat w p with
  | Ok _ => Ok tt
  | Raise (OSError _ _ _) => Ok tt
  | Raise e => Raise e
  end.

(** [copy_file(src, dst)] is [shutil.copy]: a destination that is a
    directory receives the file under the source's own name; the
    same-file test and the two probes come before the source is
    opened, and the source is opened before the destination. *)
Definition copy_file (src dst : Path) : M unit :=
  target <- lift (fun w => Ok (if isdir w dst
                               then (dst ++ [Pathlib.name src])%list
                               else dst)) ;;
  same <- lift (samefile src target) ;;
  if same : bool then raise (SameFileError src target)
  else
    _ <- lift (probe src) ;;
    _ <- lift (probe target) ;;
    _ <- next_fault ;;
    data <- read_file src ;;
    write_file target data.

(** The conversion of a path for a system call: Python raises the
    [ValueError] of a NUL before the call is made. *)
Definition converts (p : Path) (w : world) : result unit :=
  match os_stat w p with
  | Raise (ValueError msg) => Raise (ValueError msg)
  | _ => Ok tt
  end.

(** [delete_file(src)] is [Path.unlink]. *)
Definition delete_file (src : Path) : M unit :=
  _ <- lift (converts src) ;;
  _ <- next_fault ;;
  fun w =>
    match os_stat w src with
    | Ok (KFile _) =>
        match child_of gen_backup_dir_path src with
        | Some f =>
            (Ok tt, mkWorld (remove_entry f (listing w))
                            (outside w) (clock w) (slot w) (faults w))
        | None =>
            (Ok tt, mkWorld (listing w) (remove_path src (outside w))
                            (clock w) (slot w) (faults w))
        end
    | Ok KDir => (Raise EISDIR, w)
    | Raise e => (Raise e, w)
    end.

(* ================================================================== *)
(** ** class Backup *)
(* ================================================================== *)

Module Backup.

Record t : Type := mk { path : Path }.

(** [self.path.stem.partition('-')[2]] *)
Definition name (self : t) : string :=
  snd (Py.partition "-" (Pathlib.stem (path self))).

(** [datetime.strptime(self.path.stem.partition('-')[0], TIME_FILE_FORMAT)] *)
Definition time (self : t) : result datetime :=
  strptime (fst (fst (Py.partition "-" (Pathlib.stem (path self))))).

(** [__str__] *)
Definition str (self : t) : string := name self.

Definition check (w : world) (self : t) : result unit :=
  bind_result (exists_ w (path self)) (fun there =>
  bind_result (if there : bool then is_file w (path self) else Ok true)
              (fun regular =>
  if there && negb regular then
    Raise (IsADirectoryError (path self))
  else
    bind_result (time self) (fun _ => Ok tt))).

(** [Backup(path)] *)
Definition init (w : world) (p : Path) : result t :=
  let self := mk p in
  bind_result (check w self) (fun _ => Ok self).

(** [save_file] is passed by its path. *)
Definition save (self : t) (save_file : Path) : M unit :=
  copy_file save_file (path self).

Definition load (self : t) (save_file : Path) : M unit :=
  copy_file (path self) save_file.

Definition delete (self : t) : M unit :=
  delete_file (path self).

End Backup.

(* ================================================================== *)
(** ** class BackupDir *)
(* ================================================================== *)

Module BackupDir.

Record t : Type := mk { path : Path }.

(** The generator [backups], run to its end: the backups it yields,
    in order, and how it ends, [None] for a normal end and [Some e]
    when [e] escapes from it.  The [ValueError] of a file name that
    does not parse is caught and ends the generator ([break]); any
    other exception of [Backup(file)] escapes to whoever iterates. *)
Fixpoint backups_from (w : world) (files : list Path)
  : list Backup.t * option exc :=
  match files with
  | [] => ([], None)
  | file :: rest =>
      match Backup.init w file with
      | Ok backup =>
          let '(bs, e) := backups_from w rest in (backup :: bs, e)
      | Raise (ValueError _) => ([], None)
      | Raise e => ([], Some e)
      end
  end.

Definition backups (w : world) (self : t) : list Backup.t * option exc :=
  backups_from w (glob w (path self) SAVE_FILE_SUFFIX).

(** The three variables the loop of [find] assigns. *)
Record find_vars : Type := mkVars {
  backup : option Backup.t;
  ind_match : option Backup.t;
  str_match : option Backup.t
}.

Definition find_body (selector : string) (v : find_vars)
           (ind : nat) (b : Backup.t) : find_vars :=
  let im := if String.eqb (Py.str_int ind) selector then Some b
            else ind_match v in
  let sm := if String.eqb (Backup.str b) selector then Some b
            else str_match v in
  mkVars (Some b) im sm.

(** [for ind, backup in enumerate(..., ind): ...] over what the
    generator yields. *)
Fixpoint find_loop (selector : string) (bs : list Backup.t) (ind : nat)
         (v : find_vars) : find_vars :=
  match bs with
  | [] => v
  | b :: bs' => find_loop selector bs' (S ind) (find_body selector v ind b)
  end.

(** An object is true when it is not [None]: [Backup] defines neither
    [__bool__] nor [__len__]. *)
Definition find (w : world) (self : t) (selector : string) : result Backup.t :=
  let '(bs, ending) := backups w self in
  let v := find_loop selector bs 1 (mkVars None None None) in
  match ending with
  | Some e => Raise e
  | None =>
      match negb (Py.truthy selector), backup v with
      | true, Some b => Ok b                        (* not selector and backup *)
      | _, _ =>
          match Py.truthy selector, ind_match v with
          | true, Some b => Ok b                    (* selector and ind_match *)
          | _, _ =>
              match Py.truthy selector, str_match v with
              | true, Some b => Ok b                (* selector and str_match *)
              | _, _ => Raise (BackupNotFoundError selector)
              end
          end
      end
  end.

(** [create(name, time)]; [None] stands for an argument left out. *)
Definition create (w : world) (self : t)
           (name : option string) (time : option datetime) : result Backup.t :=
  let name := match name with Some n => n | None => "" end in
  let time := match time with Some t => t | None => clock w end in
  let time_str := strftime time in
  let p := Pathlib.joinpath (path self)
             (time_str ++ (if Py.truthy name then "-" else "") ++ name
              ++ SAVE_FILE_SUFFIX) in
  Backup.init w p.

End BackupDir.

(* ================================================================== *)
(** ** class SaveFile *)
(* ================================================================== *)

Module SaveFile.

Record t : Type := mk { path : Path }.

Definition init (w : world) (p : Path) : result t :=
  bind_result (is_file w p) (fun regular =>
  if regular : bool then Ok (mk p) else Raise (FileNotFoundError p)).

End SaveFile.

(* ================================================================== *)
(** ** class Command and class CommandHandler *)
(* ================================================================== *)

Module CommandHandler.

Record t : Type := mk {
  save_file : SaveFile.t;
  backup_dir : BackupDir.t;
  running : option bool
}.

(** [CommandHandler(save_file, backup_dir)] *)
Definition init (save_file : SaveFile.t) (backup_dir : BackupDir.t) : t :=
  mk save_file backup_dir None.

(** A handler receives [self] and the positional arguments, and
    returns its text together with [self] as it leaves it. *)
Definition handler : Type := t -> list string -> M (string * t).

End CommandHandler.

Module Command.

(** [fun] is the handler the decorator was applied to. *)
Record t : Type := mk {
  aliases : list string;
  fun_ : CommandHandler.handler
}.

(** [cmd in command.aliases] *)
Definition has_alias (cmd : string) (c : t) : bool :=
  existsb (String.eqb cmd) (aliases c).

End Command.

(** *** Text formatting used by [list] *)

Definition TIME_DISPLAY_FORMAT : string := "%Y/%m/%d %H:%M:%S".

(** [t.strftime(TIME_DISPLAY_FORMAT)] for a year of four digits. *)
Definition strftime_display (t : datetime) : string :=
  two_digits (year t / 100)%N ++ two_digits (year t mod 100)%N ++ "/"
  ++ two_digits (month t) ++ "/" ++ two_digits (day t) ++ " "
  ++ two_digits (hour t) ++ ":" ++ two_digits (minute t) ++ ":"
  ++ two_digits (second t).

Fixpoint spaces (n : nat) : string :=
  match n with O => "" | S n' => String " " (spaces n') end.

Fixpoint repeat_char (c : ascii) (n : nat) : string :=
  match n with O => "" | S n' => String c (repeat_char c n') end.

Inductive align : Type := AlignLeft | AlignRight | AlignCenter.

(** The replacement field with fill blank, alignment [a], width [n]
    and precision [n]: the text cut to [n] characters, then padded. *)
Definition format_field (a : align) (n : nat) (s : string) : string :=
  let s' := substring 0 n s in
  let pad := n - String.length s' in
  match a with
  | AlignLeft => s' ++ spaces pad
  | AlignRight => spaces pad ++ s'
  | AlignCenter => spaces (pad / 2) ++ s' ++ spaces (pad - pad / 2)
  end.

(** ['{: >3.3} {: ^19.19}    {: <32.32}'.format(a, b, c)] *)
Definition fstring (a b c : string) : string :=
  format_field AlignRight 3 a ++ " " ++ format_field AlignCenter 19 b
  ++ "    " ++ format_field AlignLeft 32 c.

Definition newline : string := String (ascii_of_nat 10) "".

(** The [TypeError] of a call with too many positional arguments. *)
Definition arity_error (qualname : string) (lo hi given : nat) : exc :=
  TypeError
    (qualname ++ "() takes "
     ++ (if (lo =? hi)%nat then
           Py.str_int lo ++ " positional argument"
           ++ (if (lo =? 1)%nat then "" else "s")
         else "from " ++ Py.str_int lo ++ " to " ++ Py.str_int hi
              ++ " positional arguments")
     ++ " but " ++ Py.str_int given
     ++ (if (given =? 1)%nat then " was given" else " were given")).

Module Handlers.

Import CommandHandler.

Fixpoint rows (i : nat) (bs : list Backup.t) : result (list string) :=
  match bs with
  | [] => Ok []
  | b :: bs' =>
      bind_result (Backup.time b) (fun t =>
      bind_result (rows (S i) bs') (fun rest =>
      Ok (fstring (Py.str_int i ++ ".") (strftime_display t) (Backup.name b)
          :: rest)))
  end.

(** [@Command('list', 'ls')] *)
Definition list : handler := fun self args =>
  match args with
  | [] =>
      lift (fun w =>
        let '(bs, ending) := BackupDir.backups w (backup_dir self) in
        match ending with
        | Some e => Raise e
        | None =>
            match bs with
            | [] => Ok ("No backups found", self)
            | _ :: _ =>
                let line := repeat_char "_" 100 in
                bind_result (rows 1 bs) (fun rs =>
                Ok (Py.join newline
                      (fstring "Num" "Creation time" "Name"
                       :: fstring line line line :: rs), self))
            end
        end)
  | _ :: _ => raise (arity_error "CommandHandler.list" 1 1 (1 + List.length args))
  end.

(** The optional parameter [selector = '']. *)
Definition with_selector (qualname : string) (args : Datatypes.list string)
           (k : string -> M (string * t)) : M (string * t) :=
  match args with
  | [] => k ""
  | [selector] => k selector
  | _ => raise (arity_error qualname 1 2 (1 + List.length args))
  end.

(** [@Command('save')] *)
Definition save : handler := fun self args =>
  with_selector "CommandHandler.save" args (fun selector =>
    backup <- lift (fun w =>
                BackupDir.create w (backup_dir self) (Some selector) None) ;;
    _ <- Backup.save backup (SaveFile.path (save_file self)) ;;
    ret ("Saved backup " ++ Backup.str backup, self)).

(** [@Command('load')] *)
Definition load : handler := fun self args =>
  with_selector "CommandHandler.load" args (fun selector =>
    backup <- lift (fun w => BackupDir.find w (backup_dir self) selector) ;;
    _ <- Backup.load backup (SaveFile.path (save_file self)) ;;
    ret ("Loaded backup " ++ Backup.str backup, self)).

(** [@Command('delete', 'del')] *)
Definition delete : handler := fun self args =>
  with_selector "CommandHandler.delete" args (fun selector =>
    backup <- lift (fun w => BackupDir.find w (backup_dir self) selector) ;;
    _ <- Backup.delete backup ;;
    ret ("Deleted backup " ++ Backup.str backup, self)).

(** [@Command('quit', 'q')] *)
Definition quit : handler := fun self args =>
  match args with
  | [] => ret ("Quitting...", mk (save_file self) (backup_dir self) (Some false))
  | _ :: _ => raise (arity_error "CommandHandler.quit" 1 1 (1 + List.length args))
  end.

End Handlers.

(** [Command.commands]: the decorators run in the order of the class
    body, each appending its command. *)
Definition commands : list Command.t :=
  [ Command.mk ["list"; "ls"] Handlers.list;
    Command.mk ["save"] Handlers.save;
    Command.mk ["load"] Handlers.load;
    Command.mk ["delete"; "del"] Handlers.delete;
    Command.mk ["quit"; "q"] Handlers.quit ].

(** The loop of [execute] over a registry. *)
Fixpoint execute_in (cs : list Command.t) (self : CommandHandler.t)
         (cmd : string) (args : list string) : M (string * CommandHandler.t) :=
  match cs with
  | [] => raise (UnknownModeError cmd)
  | command :: cs' =>
      if Command.has_alias cmd command then Command.fun_ command self args
      else execute_in cs' self cmd args
  end.

(** [execute] applied to the unpacked token list: the first token is
    [cmd], which defaults to the empty string. *)
Definition execute (self : CommandHandler.t) (argv : list string)
  : M (string * CommandHandler.t) :=
  match argv with
  | [] => execute_in commands self "" []
  | cmd :: args => execute_in commands self cmd args
  end.

(** The class name of [err] followed by [str] of each of its
    arguments, joined with a colon and a blank. *)
Definition describe (err : exc) : string :=
  Py.join ": " (exc_name err :: exc_args err).

(** [isinstance(err, Exception)]: each class above derives from
    [Exception]. *)
Definition is_Exception (err : exc) : bool :=
  match err with
  | UnknownModeError _ | BackupNotFoundError _ => true
  | IsADirectoryError _ | FileNotFoundError _ | OSError _ _ _ => true
  | SameFileError _ _ => true
  | ValueError _ | TypeError _ => true
  end.

(** [execute_safe]: [try: return self.execute(...)] with the handler
    [except Exception as err] returning the description of [err]. *)
Definition execute_safe (self : CommandHandler.t) (argv : list string)
  : M (string * CommandHandler.t) :=
  fun w =>
    match execute self argv w with
    | (Ok r, w') => (Ok r, w')
    | (Raise err, w') =>
        if is_Exception err then (Ok (describe err, self), w')
        else (Raise err, w')
    end.

(* ================================================================== *)
(** ** shlex.split and the interactive loop *)
(* ================================================================== *)

Module Shlex.

(** The settings [shlex.split] gives its lexer: POSIX mode,
    [whitespace_split] on, no comment characters, no punctuation
    characters. *)
Definition dquote : ascii := ascii_of_nat 34.
Definition whitespace : string :=
  String " " (String (ascii_of_nat 9) (String (ascii_of_nat 13)
    (String (ascii_of_nat 10) ""))).
Definition quotes : string := String "'" (String dquote "").
Definition escape : string := "\".
Definition escapedquotes : string := String dquote "".

(** What [read_token] hands back: no token at all when nothing was
    read outside quotes; iterating the lexer stops there. *)
Definition emit (token : string) (quoted : bool)
           (more : result (list string)) : result (list string) :=
  if negb quoted && String.eqb token "" then Ok []
  else bind_result more (fun tokens => Ok (token :: tokens)).

(** [list(lex)]: the loop of [read_token], one character of the line
    at a time, carried on from one token to the next.  [state] is the
    lexer's state, a character or [None] past the end; [token],
    [quoted] and [escapedstate] start afresh after every token.  With
    [whitespace_split] on, a character that is neither white space,
    escape nor quote starts or extends a word whether or not it is a
    word character. *)
Fixpoint lex (input : string) (state : option ascii) (token : string)
         (quoted : bool) (escapedstate : ascii) : result (list string) :=
  match input with
  | EmptyString =>
      match state with
      | None => emit "" quoted (Ok [])
      | Some st =>
          if Ascii.eqb st " " then emit token quoted (Ok [])
          else if Py.contains st quotes then
            Raise (ValueError "No closing quotation")
          else if Py.contains st escape then
            Raise (ValueError "No escaped character")
          else emit token quoted (Ok [])
      end
  | String nextchar rest =>
      match state with
      | None => emit "" quoted (Ok [])
      | Some st =>
          if Ascii.eqb st " " then
            if Py.contains nextchar whitespace then
              if Py.truthy token || quoted then
                emit token quoted (lex rest state "" false " ")
              else lex rest state token quoted escapedstate
            else if Py.contains nextchar escape then
              lex rest (Some nextchar) token quoted "a"
            else if Py.contains nextchar quotes then
              lex rest (Some nextchar) token quoted escapedstate
            else lex rest (Some "a"%char) (String nextchar "") quoted escapedstate
          else if Py.contains st quotes then
            if Ascii.eqb nextchar st then
              lex rest (Some "a"%char) token true escapedstate
            else if Py.contains nextchar escape && Py.contains st escapedquotes then
              lex rest (Some nextchar) token true st
            else lex rest state (token ++ String nextchar "") true escapedstate
          else if Py.contains st escape then
            let token :=
              if Py.contains escapedstate quotes
                 && negb (Ascii.eqb nextchar st)
                 && negb (Ascii.eqb nextchar escapedstate)
              then token ++ String st "" else token in
            lex rest (Some escapedstate) (token ++ String nextchar "")
                quoted escapedstate
          else
            if Py.contains nextchar whitespace then
              if Py.truthy token || quoted then
                emit token quoted (lex rest (Some " "%char) "" false " ")
              else lex rest (Some " "%char) token quoted escapedstate
            else if Py.contains nextchar quotes then
              lex rest (Some nextchar) token quoted escapedstate
            else if Py.contains nextchar escape then
              lex rest (Some nextchar) token quoted "a"
            else lex rest state (token ++ String nextchar "") quoted escapedstate
      end
  end.

(** [shlex.split(s)] *)
Definition split (s : string) : result (list string) :=
  lex s (Some " "%char) "" false " ".

End Shlex.

(** How a run of the interactive loop ends: [quit] cleared
    [running]; or [inp_func] had no further line to give; or an
    exception escaped from the body of the loop. *)
Inductive loop_end : Type :=
| Stopped
| InputExhausted
| Escaped (e : exc).

(** [while self.running: ...] with [inp_func] giving the lines of
    [lines] one after the other.  The result lists what was handed to
    [out_func], then how the loop ended, the handler and the world. *)
Fixpoint loop_from (self : CommandHandler.t) (lines : list string) (w : world)
  : list string * loop_end * CommandHandler.t * world :=
  match CommandHandler.running self with
  | Some true =>
      match lines with
      | [] => ([], InputExhausted, self, w)
      | line :: rest =>
          match Shlex.split line with
          | Raise e => ([], Escaped e, self, w)
          | Ok inp =>
              match execute_safe self inp w with
              | (Ok (res, self'), w') =>
                  let '(outs, ending, self'', w'') := loop_from self' rest w' in
                  (res :: outs, ending, self'', w'')
              | (Raise e, w') => ([], Escaped e, self, w')
              end
          end
      end
  | _ => ([], Stopped, self, w)
  end.

(** [loop(inp_func, out_func)]; the hint it prints first goes to the
    standard output, not to [out_func]. *)
Definition loop (self : CommandHandler.t) (lines : list string) (w : world)
  : list string * loop_end * CommandHandler.t * world :=
  loop_from (CommandHandler.mk (CommandHandler.save_file self)
                               (CommandHandler.backup_dir self) (Some true))
            lines w.

(* ================================================================== *)
(** ** Vocabulary of the statements *)
(* ================================================================== *)

(** [main] builds one [BackupDir], one [SaveFile] and one
    [CommandHandler]. *)
Definition main_backup_dir : BackupDir.t := BackupDir.mk gen_backup_dir_path.
Definition ds2_save : SaveFile.t := SaveFile.mk ["save"; "DS2.sl2"].
Definition cmd_handler : CommandHandler.t :=
  CommandHandler.init ds2_save main_backup_dir.

(** [s1 < s2] on Python strings: lexicographic, by character code. *)
Definition sorts_before (s1 s2 : string) : Prop := String.compare s1 s2 = Lt.

(** The file name [create] computes from a name and a time. *)
Definition file_name (name : string) (t : datetime) : string :=
  strftime t ++ (if Py.truthy name then "-" else "") ++ name ++ SAVE_FILE_SUFFIX.

(** A name an entry of a directory can have: one part of a path, and
    not the step to the parent directory. *)
Definition entry_name (f : string) : Prop :=
  Pathlib.parse_parts f = [f] /\ f <> "..".

(** The path exists and is not a regular file. *)
Definition not_a_file (w : world) (p : Path) : bool :=
  match exists_ w p, is_file w p with
  | Ok true, Ok false => true
  | _, _ => false
  end.

(** The segment of the stem before the first dash parses in the file
    format. *)
Definition parses (p : Path) : bool :=
  match Backup.time (Backup.mk p) with Ok _ => true | Raise _ => false end.



(** The enumeration of the directory runs to its end, without an
    error, and yields [bs]. *)
Definition enumerates (w : world) (self : BackupDir.t) (bs : list Backup.t) : Prop :=
  BackupDir.backups w self = (bs, None).

(** Every entry of the backup directory with the suffix constructs. *)
Definition well_formed (w : world) : Prop :=
  forall p, In p (glob w gen_backup_dir_path SAVE_FILE_SUFFIX) ->
            Backup.init w p = Ok (Backup.mk p).

Definition not_unknown (e : exc) : bool :=
  match e with UnknownModeError _ => false | _ => true end.

(** A computation that never raises [UnknownModeError]. *)
Definition safe {A} (m : M A) : Prop :=
  forall w e w', m w = (Raise e, w') -> not_unknown e = true.

(* ================================================================== *)
(** ** States used as examples *)
(* ================================================================== *)

(** A world with the given children of the backup directory; the
    live save file holds [LIVE], the clock shows 2025-02-03 04:05:06
    and the directory lists a new file at position [slot]. *)
Definition world_of (l : list (string * node)) (slot : nat) : world :=
  mkWorld l [(["save"; "DS2.sl2"], "LIVE")] (mkDatetime 2025 2 3 4 5 6 0) slot [].

Definition w_empty : world := world_of [] 0.

(** The scenario of the specification, with full timestamps. *)
Definition w_three : world :=
  world_of [("250101010101-alpha.sl2", KFile "A"); ("250102010101.sl2", KFile "B");
            ("250103010101-gamma.sl2", KFile "C")] 1.

(** A sub-directory whose name does not parse. *)
Definition w_dir : world := world_of [("bad.sl2", KDir)] 0.
Definition p_bad : Path := ["files"; "bad.sl2"].




(** A sub-directory named like a backup, between two backups. *)
Definition w_subdir : world :=
  world_of [("250101010101-alpha.sl2", KFile "A"); ("250102010101.sl2", KDir);
            ("250103010101-gamma.sl2", KFile "C")] 1.

(** The first backup is named [2]; the second one is named [2]. *)
Definition w_two : world :=
  world_of [("250101010101-2.sl2", KFile "A"); ("250102010101-x.sl2", KFile "B")] 1.
Definition w_second : world :=
  world_of [("250101010101-alpha.sl2", KFile "A"); ("250102010101-2.sl2", KFile "B")] 1.

(** The directory of [w_two] with a sub-directory named like a backup
    listed after the two backups. *)
Definition w_two_dir : world :=
  world_of [("250101010101-2.sl2", KFile "A"); ("250102010101-x.sl2", KFile "B");
            ("250103010101.sl2", KDir)] 1.

(** The newer backup is listed first. *)
Definition w_unsorted : world :=
  world_of [("250103010101-gamma.sl2", KFile "C");
            ("250101010101-alpha.sl2", KFile "A")] 1.

(** Two backups share a name. *)
Definition w_same_name : world :=
  world_of [("250101010101-boss.sl2", KFile "A"); ("250102010101-boss.sl2", KFile "B");
            ("250103010101-gamma.sl2", KFile "C")] 1.

(** The same two backups, and a sub-directory named like a backup
    listed after them. *)
Definition w_boss_dir : world :=
  world_of [("250101010101-boss.sl2", KFile "A"); ("250102010101-boss.sl2", KFile "B");
            ("250103010101.sl2", KDir)] 1.

(** Either side of the turn of the century, and two instants within
    one second. *)
Definition t_1999 : datetime := mkDatetime 1999 12 31 23 59 59 0.
Definition t_2000 : datetime := mkDatetime 2000 1 1 0 0 0 0.
Definition t_tick1 : datetime := mkDatetime 2025 2 3 4 5 6 1.
Definition t_tick2 : datetime := mkDatetime 2025 2 3 4 5 6 2.

(** A backup dated 1950, and the directory after it was written. *)
Definition t_1950 : datetime := mkDatetime 1950 6 15 12 0 0 0.
Definition b_1950 : Backup.t := Backup.mk ["files"; "500615120000-old.sl2"].
Definition w_1950 : world := world_of [("500615120000-old.sl2", KFile "LIVE")] 0.

(** A directory that lists an unparsable file first, and the same
    after a backup was written into it. *)
Definition t_2025 : datetime := mkDatetime 2025 2 3 4 5 6 0.
Definition b_2025 : Backup.t := Backup.mk ["files"; "250203040506-new.sl2"].
Definition w_junk_first : world := world_of [("junk.sl2", KFile "J")] 1.
Definition w_junk_then_new : world :=
  world_of [("junk.sl2", KFile "J"); ("250203040506-new.sl2", KFile "LIVE")] 1.

(** The directory of [w_three] after [save checkpoint]. *)
Definition w_checkpoint : world :=
  world_of [("250101010101-alpha.sl2", KFile "A");
            ("250203040506-checkpoint.sl2", KFile "LIVE");
            ("250102010101.sl2", KFile "B");
            ("250103010101-gamma.sl2", KFile "C")] 1.

(* ================================================================== *)
(** ** Vocabulary of the further properties *)
(* ================================================================== *)

(** The datetime [strptime] reads back from what [strftime] wrote:
    whole seconds, and the year moved into 1969..2068 with its last
    two digits kept. *)
Definition read_back (t : datetime) : datetime :=
  mkDatetime (pivot_year (year t mod 100)) (month t) (day t)
             (hour t) (minute t) (second t) 0.


(** A character that is neither white space, quote nor escape for
    [shlex], and a word made of such characters. *)
Definition plain (c : ascii) : bool :=
  negb (Py.contains c Shlex.whitespace || Py.contains c Shlex.quotes
        || Py.contains c Shlex.escape).

Fixpoint all_plain (s : string) : bool :=
  match s with
  | EmptyString => true
  | String c s' => plain c && all_plain s'
  end.

Definition plain_word (s : string) : Prop := s <> "" /\ all_plain s = true.

(** The handler once [quit] has run. *)
Definition stopped (self : CommandHandler.t) : CommandHandler.t :=
  CommandHandler.mk (CommandHandler.save_file self)
                    (CommandHandler.backup_dir self) (Some false).

(** A computation that hands back the handler it was given. *)
Definition keeps_self (self : CommandHandler.t)
           (m : M (string * CommandHandler.t)) : Prop :=
  forall w s self' w', m w = (Ok (s, self'), w') -> self' = self.

(** A line that tokenises and is not the command that stops the loop. *)
Definition goes_on (line : string) : Prop :=
  exists tokens, Shlex.split line = Ok tokens
                 /\ tokens <> ["quit"] /\ tokens <> ["q"].

(** What one alternative of a group captured: the text [m], one or
    two characters long, in front of the rest, and its value. *)
Definition captured (lo hi : N) (s m r : string) : Prop :=
  s = m ++ r /\ 1 <= String.length m <= 2 /\ (lo <= Py.int m <= hi)%N.

(* ================================================================== *)
(** * Properties *)
(* ================================================================== *)

(** ** Decimal rendering *)

Lemma str_int_inj (n m : nat) : Py.str_int n = Py.str_int m -> n = m.
Proof.
  unfold Py.str_int. intros H.
  assert (Hu : Nat.to_uint n = Nat.to_uint m).
  { apply (f_equal NilEmpty.uint_of_string) in H.
    rewrite !NilEmpty.usu in H. now injection H. }
  apply (f_equal Nat.of_uint) in Hu.
  now rewrite !DecimalNat.Unsigned.of_to in Hu.
Qed.

Lemma digit_cases (a : N) :
  (a < 10)%N ->
  a = 0%N \/ a = 1%N \/ a = 2%N \/ a = 3%N \/ a = 4%N \/
  a = 5%N \/ a = 6%N \/ a = 7%N \/ a = 8%N \/ a = 9%N.
Proof. lia. Qed.

Ltac each_digit a H :=
  destruct (digit_cases a H)
    as [?|[?|[?|[?|[?|[?|[?|[?|[?|?]]]]]]]]]; subst a.

Lemma N_of_digit_char (a : N) :
  (a < 10)%N -> N_of_ascii (digit_char a) = (48 + a)%N.
Proof. intros H. each_digit a H; reflexivity. Qed.

Lemma is_digit_digit_char (a : N) :
  (a < 10)%N -> Py.is_digit (digit_char a) = true.
Proof. intros H. each_digit a H; reflexivity. Qed.

Lemma div10_lt (n : N) : (n < 100)%N -> (n / 10 < 10)%N.
Proof. intros H. apply N.Div0.div_lt_upper_bound. lia. Qed.

Lemma mod10_lt (n : N) : (n mod 10 < 10)%N.
Proof. apply N.mod_lt. discriminate. Qed.

Lemma int_two_digits (n : N) : (n < 100)%N -> Py.int (two_digits n) = n.
Proof.
  intros H. unfold Py.int, two_digits. cbn [Py.int_from].
  rewrite !is_digit_digit_char by auto using div10_lt, mod10_lt.
  rewrite !N_of_digit_char by auto using div10_lt, mod10_lt.
  cbn [Py.int_from].
  pose proof (N.div_mod n 10 ltac:(discriminate)) as E.
  remember (n / 10)%N as q. remember (n mod 10)%N as r. lia.
Qed.

(** ** The order of the file format *)

Lemma compare_digit_char (a b : N) :
  (a < 10)%N -> (b < 10)%N ->
  Ascii.compare (digit_char a) (digit_char b) = N.compare a b.
Proof.
  intros Ha Hb. unfold Ascii.compare.
  rewrite !N_of_digit_char by assumption.
  destruct (N.compare_spec (48 + a) (48 + b)), (N.compare_spec a b);
    try reflexivity; lia.
Qed.

(** Two fields of two digits compare as the numbers they render; on a
    tie the comparison moves on to what follows. *)
Lemma compare_two_digits (a b : N) (s t : string) :
  (a < 100)%N -> (b < 100)%N ->
  String.compare (two_digits a ++ s) (two_digits b ++ t)
  = match N.compare a b with
    | Eq => String.compare s t
    | c => c
    end.
Proof.
  intros Ha Hb. unfold two_digits. cbn [append String.compare].
  rewrite !compare_digit_char by auto using div10_lt, mod10_lt.
  pose proof (N.div_mod a 10 ltac:(discriminate)) as Ea.
  pose proof (N.div_mod b 10 ltac:(discriminate)) as Eb.
  pose proof (mod10_lt a). pose proof (mod10_lt b).
  remember (a / 10)%N as qa. remember (a mod 10)%N as ra.
  remember (b / 10)%N as qb. remember (b mod 10)%N as rb.
  destruct (N.compare_spec qa qb), (N.compare_spec ra rb),
    (N.compare_spec a b); try reflexivity; lia.
Qed.

Lemma valid_bounds (t : datetime) :
  valid t = true ->
  (1 <= year t <= 9999 /\ 1 <= month t <= 12
   /\ 1 <= day t <= days_in_month (year t) (month t)
   /\ hour t < 24 /\ minute t < 60 /\ second t < 60
   /\ microsecond t < 1000000)%N.
Proof.
  unfold valid. rewrite !andb_true_iff, !N.leb_le, !N.ltb_lt. tauto.
Qed.

Lemma days_in_month_le (y m : N) : (days_in_month y m <= 31)%N.
Proof.
  unfold days_in_month.
  repeat match goal with |- context [if ?c then _ else _] => destruct c end; lia.
Qed.

(** The encodings of two valid datetimes compare as their fields do,
    the year taken modulo 100. *)
Lemma compare_strftime (t1 t2 : datetime) :
  valid t1 = true -> valid t2 = true ->
  String.compare (strftime t1) (strftime t2)
  = lex_compare [(year t1 mod 100)%N; month t1; day t1; hour t1; minute t1; second t1]
                [(year t2 mod 100)%N; month t2; day t2; hour t2; minute t2; second t2].
Proof.
  intros V1 V2.
  apply valid_bounds in V1. apply valid_bounds in V2.
  pose proof (days_in_month_le (year t1) (month t1)).
  pose proof (days_in_month_le (year t2) (month t2)).
  pose proof (N.mod_lt (year t1) 100 ltac:(discriminate)).
  pose proof (N.mod_lt (year t2) 100 ltac:(discriminate)).
  unfold strftime.
  change (two_digits (second t1)) with (two_digits (second t1) ++ "").
  change (two_digits (second t2)) with (two_digits (second t2) ++ "").
  rewrite !compare_two_digits by lia.
  reflexivity.
Qed.

Lemma compare_mod_100 (y1 y2 : N) :
  (y1 / 100 = y2 / 100)%N ->
  N.compare (y1 mod 100) (y2 mod 100) = N.compare y1 y2.
Proof.
  intros E.
  pose proof (N.div_mod y1 100 ltac:(discriminate)) as E1.
  pose proof (N.div_mod y2 100 ltac:(discriminate)) as E2.
  rewrite E in E1.
  remember (y2 / 100)%N as q. remember (y1 mod 100)%N as r1.
  remember (y2 mod 100)%N as r2.
  destruct (N.compare_spec r1 r2), (N.compare_spec y1 y2);
    try reflexivity; lia.
Qed.

(** C8, as stated, fails: the last second of 1999 is earlier than the
    first of 2000 and its encoding sorts after; and two instants
    within one second have the same encoding. *)
Lemma strftime_order_counterexample :
  (valid t_1999 = true /\ valid t_2000 = true /\ earlier t_1999 t_2000
   /\ String.compare (strftime t_1999) (strftime t_2000) = Gt)
  /\ (valid t_tick1 = true /\ valid t_tick2 = true /\ earlier t_tick1 t_tick2
      /\ String.compare (strftime t_tick1) (strftime t_tick2) = Eq).
Proof. repeat split; vm_compute; reflexivity. Qed.

(** C8 (amended): for two datetimes of the same century that differ
    in their whole seconds, the encoding [%y%m%d%H%M%S] of the earlier
    one sorts before the encoding of the later one. *)
Theorem strftime_sorts_within_century (t1 t2 : datetime) :
  valid t1 = true -> valid t2 = true ->
  (year t1 / 100 = year t2 / 100)%N ->
  earlier (truncate t1) (truncate t2) ->
  sorts_before (strftime t1) (strftime t2).
Proof.
  intros V1 V2 C E. unfold sorts_before.
  rewrite compare_strftime by assumption.
  unfold earlier, Datetime.compare, fields, truncate in E.
  cbn [lex_compare year month day hour minute second microsecond] in *.
  rewrite (compare_mod_100 _ _ C).
  repeat match goal with
         | |- context [N.compare ?a ?b] => destruct (N.compare a b)
         end; try assumption; try reflexivity; try discriminate.
Qed.

Lemma strftime_sorts_within_century_witness :
  sorts_before (strftime (mkDatetime 2024 12 31 23 59 59 5))
               (strftime (mkDatetime 2025 1 1 0 0 0 0)).
Proof.
  apply strftime_sorts_within_century; vm_compute; reflexivity.
Defined.

(** ** Parsing what [strftime] wrote *)

(** The pattern takes one or two digits for every field but the
    year: a name of seven digits parses, one of six does not. *)
Example strptime_short_fields :
  strptime "2511111" = Ok (mkDatetime 2025 1 1 1 1 1 0)
  /\ strptime "250101"
     = Raise (ValueError "time data '250101' does not match format '%y%m%d%H%M%S'")
  /\ strptime "2512319995" = Raise (ValueError "unconverted data remains: 5").
Proof. repeat split. Qed.

Section TwoDigitFields.

Variable k : string -> option (list string * string).
Variables (r r' : string) (ms : list string).
Hypothesis rest_matches : k r = Some (ms, r').

Ltac by_digits n :=
  let E := fresh "E" in
  pose proof (N.div_mod n 10 ltac:(discriminate)) as E;
  assert ((n / 10 < 10)%N) by (apply N.Div0.div_lt_upper_bound; lia);
  pose proof (mod10_lt n);
  unfold two_digits;
  let a := fresh "a" in
  let b := fresh "b" in
  let Ha := fresh "Ha" in
  let Hb := fresh "Hb" in
  remember (n / 10)%N as a eqn:Ha;
  remember (n mod 10)%N as b eqn:Hb;
  clear Ha Hb;
  match goal with
  | H1 : (a < 10)%N, H2 : (b < 10)%N |- _ =>
      each_digit a H1; each_digit b H2
  end;
  try lia;
  cbn; rewrite rest_matches; reflexivity.

Lemma match_re_y (n : N) :
  (n < 100)%N ->
  try_alts re_y k (two_digits n ++ r) = Some (two_digits n :: ms, r').
Proof. intros. by_digits n. Qed.

Lemma match_re_m (n : N) :
  (1 <= n <= 12)%N ->
  try_alts re_m k (two_digits n ++ r) = Some (two_digits n :: ms, r').
Proof. intros. by_digits n. Qed.

Lemma match_re_d (n : N) :
  (1 <= n <= 31)%N ->
  try_alts re_d k (two_digits n ++ r) = Some (two_digits n :: ms, r').
Proof. intros. by_digits n. Qed.

Lemma match_re_H (n : N) :
  (n < 24)%N ->
  try_alts re_H k (two_digits n ++ r) = Some (two_digits n :: ms, r').
Proof. intros. by_digits n. Qed.

Lemma match_re_M (n : N) :
  (n < 60)%N ->
  try_alts re_M k (two_digits n ++ r) = Some (two_digits n :: ms, r').
Proof. intros. by_digits n. Qed.

Lemma match_re_S (n : N) :
  (n < 60)%N ->
  try_alts re_S k (two_digits n ++ r) = Some (two_digits n :: ms, r').
Proof. intros. by_digits n. Qed.

End TwoDigitFields.

Lemma match_strftime (t : datetime) :
  valid t = true ->
  match_groups TIME_FILE_REGEX (strftime t)
  = Some ([two_digits (year t mod 100)%N; two_digits (month t);
           two_digits (day t); two_digits (hour t); two_digits (minute t);
           two_digits (second t)], "").
Proof.
  intros V. apply valid_bounds in V.
  pose proof (days_in_month_le (year t) (month t)).
  pose proof (N.mod_lt (year t) 100 ltac:(discriminate)).
  unfold TIME_FILE_REGEX, strftime.
  change (two_digits (second t)) with (two_digits (second t) ++ "").
  change (match_groups (re_y :: ?gs) ?s) with (try_alts re_y (match_groups gs) s).
  apply match_re_y; [|lia].
  change (match_groups (re_m :: ?gs) ?s) with (try_alts re_m (match_groups gs) s).
  apply match_re_m; [|lia].
  change (match_groups (re_d :: ?gs) ?s) with (try_alts re_d (match_groups gs) s).
  apply match_re_d; [|lia].
  change (match_groups (re_H :: ?gs) ?s) with (try_alts re_H (match_groups gs) s).
  apply match_re_H; [|lia].
  change (match_groups (re_M :: ?gs) ?s) with (try_alts re_M (match_groups gs) s).
  apply match_re_M; [|lia].
  change (match_groups (re_S :: ?gs) ?s) with (try_alts re_S (match_groups gs) s).
  apply match_re_S; [|lia].
  reflexivity.
Qed.

Lemma pivot_year_mod (y : N) :
  (1969 <= y <= 2068)%N -> pivot_year (y mod 100) = y.
Proof.
  intros Hy. unfold pivot_year.
  pose proof (N.div_mod y 100 ltac:(discriminate)) as E.
  pose proof (N.mod_lt y 100 ltac:(discriminate)) as L.
  remember (y / 100)%N as q. remember (y mod 100)%N as m.
  destruct (N.leb_spec m 68); lia.
Qed.

(** Reading back what [strftime] wrote gives the datetime without its
    microseconds, for the years a two-digit year can tell apart. *)
Lemma strptime_strftime (t : datetime) :
  valid t = true ->
  (1969 <= year t <= 2068)%N ->
  strptime (strftime t) = Ok (truncate t).
Proof.
  intros V Hy. unfold strptime.
  rewrite (match_strftime t V).
  apply valid_bounds in V.
  pose proof (days_in_month_le (year t) (month t)).
  pose proof (N.mod_lt (year t) 100 ltac:(discriminate)).
  cbn [Py.truthy map].
  rewrite !int_two_digits by lia.
  rewrite pivot_year_mod by assumption.
  destruct (N.ltb_spec (days_in_month (year t) (month t)) (day t)); [lia|].
  destruct (N.ltb_spec 59 (second t)); [lia|].
  reflexivity.
Qed.

(** ** Strings and paths *)

Lemma length_append (a b : string) :
  String.length (a ++ b) = String.length a + String.length b.
Proof. induction a as [|c a IH]; cbn; [reflexivity | now rewrite IH]. Qed.

Lemma append_assoc (a b c : string) : (a ++ b) ++ c = a ++ (b ++ c).
Proof. induction a as [|x a IH]; cbn; [reflexivity | now rewrite IH]. Qed.

Lemma substring_0_append (a b : string) :
  substring 0 (String.length a) (a ++ b) = a.
Proof. induction a as [|c a IH]; cbn; [now destruct b | now rewrite IH]. Qed.

Lemma contains_append (c : ascii) (a b : string) :
  Py.contains c (a ++ b) = Py.contains c a || Py.contains c b.
Proof.
  induction a as [|x a IH]; cbn; [reflexivity|].
  rewrite IH. now rewrite orb_assoc.
Qed.

Lemma rfind_absent (c : ascii) (s : string) :
  Py.contains c s = false -> Py.rfind c s = None.
Proof.
  induction s as [|d s IH]; cbn; [reflexivity|].
  intros H. apply orb_false_iff in H as [H1 H2].
  now rewrite (IH H2), H1.
Qed.

Lemma rfind_last (c : ascii) (a b : string) :
  Py.contains c b = false ->
  Py.rfind c (a ++ String c b) = Some (String.length a).
Proof.
  intros H. induction a as [|d a IH]; cbn.
  - now rewrite (rfind_absent _ _ H), Ascii.eqb_refl.
  - now rewrite IH.
Qed.

Lemma partition_absent (c : ascii) (s : string) :
  Py.contains c s = false -> Py.partition c s = (s, "", "").
Proof.
  induction s as [|d s IH]; cbn; [reflexivity|].
  intros H. apply orb_false_iff in H as [H1 H2].
  now rewrite H1, (IH H2).
Qed.

Lemma partition_first (c : ascii) (a b : string) :
  Py.contains c a = false ->
  Py.partition c (a ++ String c b) = (a, String c "", b).
Proof.
  induction a as [|d a IH]; cbn.
  - now rewrite Ascii.eqb_refl.
  - intros H. apply orb_false_iff in H as [H1 H2].
    now rewrite H1, (IH H2).
Qed.

Lemma split_slash_absent (s : string) :
  Py.contains "/" s = false -> split_slash s = [s].
Proof.
  induction s as [|d s IH]; cbn; [reflexivity|].
  intros H. apply orb_false_iff in H as [H1 H2].
  now rewrite H1, (IH H2).
Qed.

(** A file name without a separator is one part of the path. *)
Lemma joinpath_child (d : Path) (f : string) :
  Py.contains "/" f = false -> f <> "" -> f <> "." ->
  joinpath d f = (d ++ [f])%list.
Proof.
  intros H N0 N1. unfold joinpath.
  assert (A : is_absolute f = false).
  { destruct f as [|c f]; [reflexivity|]. cbn in H.
    apply orb_false_iff in H as [H _]. cbn.
    destruct c as [[] [] [] [] [] [] [] []]; try reflexivity; discriminate. }
  rewrite A. unfold parse_parts. rewrite (split_slash_absent _ H). cbn.
  unfold keep_part.
  destruct (String.eqb_spec f ""); [contradiction|].
  destruct (String.eqb_spec f "."); [contradiction|].
  reflexivity.
Qed.

Lemma name_child (d : Path) (f : string) : Pathlib.name (d ++ [f])%list = f.
Proof. unfold Pathlib.name. apply last_last. Qed.

(** The stem of [base.sl2] is [base]. *)
Lemma stem_suffix (d : Path) (base : string) :
  base <> "" ->
  Pathlib.stem (d ++ [(base ++ SAVE_FILE_SUFFIX)%string])%list = base.
Proof.
  intros N. unfold Pathlib.stem. rewrite name_child.
  unfold SAVE_FILE_SUFFIX.
  rewrite (rfind_last "." base "sl2" eq_refl).
  rewrite length_append. cbn [String.length].
  assert (L : 0 < String.length base) by (destruct base; [contradiction | cbn; lia]).
  destruct (Nat.ltb_spec 0 (String.length base)); [|lia].
  destruct (Nat.ltb_spec (String.length base) (String.length base + 4 - 1)); [|lia].
  cbn [andb]. apply substring_0_append.
Qed.

Lemma contains_two_digits (c : ascii) (n : N) (s : string) :
  Py.is_digit c = false -> (n < 100)%N ->
  Py.contains c (two_digits n ++ s) = Py.contains c s.
Proof.
  intros Hc Hn. unfold two_digits. cbn [append Py.contains].
  assert (D : forall a, (a < 10)%N -> Ascii.eqb (digit_char a) c = false).
  { intros a Ha. destruct (Ascii.eqb_spec (digit_char a) c) as [E|]; [|reflexivity].
    rewrite <- E, is_digit_digit_char in Hc by assumption. discriminate. }
  now rewrite !D by auto using div10_lt, mod10_lt.
Qed.

Lemma contains_strftime (c : ascii) (t : datetime) :
  Py.is_digit c = false -> valid t = true ->
  Py.contains c (strftime t) = false.
Proof.
  intros Hc V. apply valid_bounds in V.
  pose proof (days_in_month_le (year t) (month t)).
  pose proof (N.mod_lt (year t) 100 ltac:(discriminate)).
  unfold strftime.
  change (two_digits (second t)) with (two_digits (second t) ++ "").
  rewrite !contains_two_digits by (assumption || lia).
  reflexivity.
Qed.

Lemma strftime_nonempty (t : datetime) : strftime t <> "".
Proof. unfold strftime, two_digits. cbn. discriminate. Qed.

(** ** The naming scheme *)

Lemma file_name_base (name : string) (t : datetime) :
  file_name name t
  = (strftime t ++ (if Py.truthy name then "-" else "") ++ name) ++ SAVE_FILE_SUFFIX.
Proof. unfold file_name. now rewrite !append_assoc. Qed.

Lemma stem_file_name (d : Path) (name : string) (t : datetime) :
  Pathlib.stem (d ++ [file_name name t])%list
  = strftime t ++ (if Py.truthy name then "-" else "") ++ name.
Proof.
  rewrite file_name_base. apply stem_suffix.
  unfold strftime, two_digits. cbn. discriminate.
Qed.

Lemma partition_stem (name : string) (t : datetime) :
  valid t = true ->
  Py.partition "-" (strftime t ++ (if Py.truthy name then "-" else "") ++ name)
  = (strftime t, if Py.truthy name then "-" else "", name).
Proof.
  intros V.
  assert (H : Py.contains "-" (strftime t) = false)
    by (apply contains_strftime; [reflexivity | assumption]).
  destruct name as [|c name]; cbn [Py.truthy append].
  - rewrite partition_absent; [reflexivity|].
    rewrite contains_append, H. reflexivity.
  - apply (partition_first "-" (strftime t) (String c name) H).
Qed.

(** A backup at the path [create] computes has the name it was given
    and is dated by what [strftime] wrote. *)
Lemma name_file_name (d : Path) (name : string) (t : datetime) :
  valid t = true ->
  Backup.name (Backup.mk (d ++ [file_name name t])%list) = name.
Proof.
  intros V. unfold Backup.name. cbn [Backup.path].
  now rewrite stem_file_name, partition_stem.
Qed.

Lemma time_file_name (d : Path) (name : string) (t : datetime) :
  valid t = true ->
  Backup.time (Backup.mk (d ++ [file_name name t])%list) = strptime (strftime t).
Proof.
  intros V. unfold Backup.time. cbn [Backup.path].
  now rewrite stem_file_name, partition_stem.
Qed.

Lemma create_path (w : world) (self : BackupDir.t) (name : string) (t : datetime) :
  valid t = true ->
  Py.contains "/" name = false ->
  BackupDir.create w self (Some name) (Some t)
  = Backup.init w (BackupDir.path self ++ [file_name name t])%list.
Proof.
  intros V Hn. unfold BackupDir.create.
  fold (file_name name t).
  rewrite joinpath_child; [reflexivity| | |].
  - unfold file_name. rewrite !contains_append, Hn.
    rewrite contains_strftime by (reflexivity || assumption).
    now destruct (Py.truthy name).
  - unfold file_name, strftime, two_digits. cbn. discriminate.
  - unfold file_name, strftime, two_digits. cbn. discriminate.
Qed.

(** ** Constructing a backup *)

Lemma strptime_raises (s : string) (e : exc) :
  strptime s = Raise e -> exists msg, e = ValueError msg.
Proof.
  unfold strptime.
  destruct (match_groups TIME_FILE_REGEX s) as [[found rest]|].
  - destruct (Py.truthy rest); [intros [= <-]; eauto|].
    destruct (map Py.int found) as [|y [|m [|d [|hh [|mm [|ss [|]]]]]]];
      try (intros [= <-]; eauto).
    destruct (_ <? d)%N; [intros [= <-]; eauto|].
    destruct (59 <? ss)%N; [intros [= <-]; eauto|discriminate].
  - intros [= <-]; eauto.
Qed.


Lemma parses_true (p : Path) :
  parses p = true -> exists t, Backup.time (Backup.mk p) = Ok t.
Proof.
  unfold parses. destruct (Backup.time (Backup.mk p)); [eauto|discriminate].
Qed.

(** The two tests of [check] go back to one call of [os.stat] each,
    with the same answer. *)
Lemma exists_is_file (w : world) (p : Path) :
  (exists n, os_stat w p = Ok n /\ exists_ w p = Ok true
             /\ is_file w p = Ok (match n with KFile _ => true | KDir => false end))
  \/ (exists_ w p = Ok false /\ is_file w p = Ok false)
  \/ (exists e, exists_ w p = Raise e /\ is_file w p = Raise e).
Proof.
  unfold exists_, is_file. destruct (os_stat w p) as [[d|]|e]; eauto 6.
  destruct e; eauto 6. destruct (ignore_error errno); eauto 6.
Qed.

Lemma stat_os_stat (w : world) (p : Path) (n : node) :
  stat w p = Some n -> os_stat w p = Ok n.
Proof. unfold os_stat. now intros ->. Qed.

Lemma os_stat_inv (w : world) (p : Path) (n : node) :
  os_stat w p = Ok n -> stat w p = Some n.
Proof.
  unfold os_stat. destruct (stat w p); [now intros [= ->]|].
  destruct (refused w p); discriminate.
Qed.

(** A path the world lists passes the existence test. *)
Lemma listed_exists (w : world) (p : Path) (n : node) :
  stat w p = Some n ->
  exists_ w p = Ok true
  /\ is_file w p = Ok (match n with KFile _ => true | KDir => false end).
Proof.
  intros E. unfold exists_, is_file. rewrite (stat_os_stat _ _ _ E).
  destruct n; auto.
Qed.

Lemma listed_not_a_file (w : world) (p : Path) (n : node) :
  stat w p = Some n ->
  not_a_file w p = match n with KFile _ => false | KDir => true end.
Proof.
  intros E. unfold not_a_file.
  destruct (listed_exists _ _ _ E) as [-> ->]. now destruct n.
Qed.

Lemma init_not_a_file (w : world) (p : Path) :
  not_a_file w p = true -> Backup.init w p = Raise (IsADirectoryError p).
Proof.
  unfold not_a_file, Backup.init, Backup.check. cbn [Backup.path].
  destruct (exists_ w p) as [[|]|]; try discriminate.
  destruct (is_file w p) as [[|]|]; try discriminate. reflexivity.
Qed.

(** What [check] does once the existence test has returned. *)
Lemma check_tested (w : world) (p : Path) (b : bool) :
  exists_ w p = Ok b -> not_a_file w p = false ->
  Backup.check w (Backup.mk p)
  = bind_result (Backup.time (Backup.mk p)) (fun _ => Ok tt).
Proof.
  unfold not_a_file, Backup.check. cbn [Backup.path]. intros E.
  destruct (exists_is_file w p) as [[n [_ [E1 E2]]]|[[E1 E2]|[e [E1 E2]]]];
    rewrite E1, E2; try (rewrite E1 in E; discriminate).
  - destruct n; [reflexivity|discriminate].
  - reflexivity.
Qed.


Lemma init_ok (w : world) (p : Path) (b : bool) :
  exists_ w p = Ok b -> not_a_file w p = false -> parses p = true ->
  Backup.init w p = Ok (Backup.mk p).
Proof.
  intros E NF H. unfold Backup.init. rewrite (check_tested _ _ _ E NF).
  destruct (parses_true _ H) as [t T]. now rewrite T.
Qed.


(** [Backup(path)] returns the backup of that path or raises. *)
Lemma init_inv (w : world) (p : Path) (b : Backup.t) :
  Backup.init w p = Ok b ->
  b = Backup.mk p /\ not_a_file w p = false /\ parses p = true.
Proof.
  unfold not_a_file, Backup.init, Backup.check, parses. cbn [Backup.path].
  destruct (exists_is_file w p) as [[n [_ [E1 E2]]]|[[E1 E2]|[e [E1 E2]]]];
    rewrite E1, ?E2; cbn; try discriminate.
  - destruct n; cbn; [|discriminate].
    destruct (Backup.time (Backup.mk p)); cbn; [|discriminate].
    intros [= <-]. auto.
  - destruct (Backup.time (Backup.mk p)); cbn; [|discriminate].
    intros [= <-]. auto.
Qed.

Lemma init_tested (w : world) (p : Path) (b : Backup.t) :
  Backup.init w p = Ok b -> exists r, exists_ w p = Ok r.
Proof.
  unfold Backup.init, Backup.check. cbn [Backup.path].
  destruct (exists_ w p); [eauto|discriminate].
Qed.


(** The existence test on a child of the backup directory that the
    directory does not list. *)
Lemma refused_child (w : world) (f : string) :
  assoc f (listing w) = None ->
  refused w (gen_backup_dir_path ++ [f])%list
  = if Py.contains Ascii.zero f then Some (ValueError "embedded null byte")
    else if (NAME_MAX <? fs_length f)%nat then Some ENAMETOOLONG
    else None.
Proof.
  intros A. unfold refused.
  change (has_nul (gen_backup_dir_path ++ [f])%list)
    with (Py.contains Ascii.zero f || false).
  rewrite orb_false_r. destruct (Py.contains Ascii.zero f); [reflexivity|].
  change (fs_length (Pathlib.str (gen_backup_dir_path ++ [f])%list))
    with (6 + fs_length f).
  change (walk w [] (gen_backup_dir_path ++ [f])%list)
    with (match assoc f (listing w) with
          | Some KDir => None
          | Some (KFile _) => Some ENOTDIR
          | None => if (NAME_MAX <? fs_length f)%nat
                    then Some ENAMETOOLONG else None
          end).
  rewrite A. unfold PATH_MAX, NAME_MAX.
  destruct (4096 <=? 6 + fs_length f)%nat eqn:L1;
    destruct (255 <? fs_length f)%nat eqn:L2; try reflexivity.
  apply Nat.leb_le in L1. apply Nat.ltb_ge in L2. lia.
Qed.

Lemma os_stat_child (w : world) (f : string) :
  assoc f (listing w) = None ->
  os_stat w (gen_backup_dir_path ++ [f])%list
  = if Py.contains Ascii.zero f then Raise (ValueError "embedded null byte")
    else if (NAME_MAX <? fs_length f)%nat then Raise ENAMETOOLONG
    else Raise ENOENT.
Proof.
  intros A. unfold os_stat.
  change (stat w (gen_backup_dir_path ++ [f])%list) with (assoc f (listing w)).
  rewrite A, (refused_child w f A).
  destruct (Py.contains Ascii.zero f); [reflexivity|].
  destruct (NAME_MAX <? fs_length f)%nat; reflexivity.
Qed.

(** A child of the backup directory whose name the file system takes
    passes the existence test, listed or not. *)
Lemma child_tested (w : world) (f : string) :
  fs_length f <= NAME_MAX ->
  exists b, exists_ w (gen_backup_dir_path ++ [f])%list = Ok b.
Proof.
  intros L. unfold exists_.
  destruct (assoc f (listing w)) as [n|] eqn:A.
  - rewrite (stat_os_stat w _ n) by exact A. eauto.
  - rewrite (os_stat_child _ _ A).
    destruct (Py.contains Ascii.zero f); [eauto|].
    destruct (NAME_MAX <? fs_length f)%nat eqn:L2; [|cbn; eauto].
    apply Nat.ltb_lt in L2. lia.
Qed.



(** ** Enumerating the directory *)

Lemma backups_from_app (w : world) (pre rest : list Path) :
  (forall q, In q pre -> Backup.init w q = Ok (Backup.mk q)) ->
  BackupDir.backups_from w (pre ++ rest)%list
  = (map Backup.mk pre ++ fst (BackupDir.backups_from w rest),
     snd (BackupDir.backups_from w rest))%list.
Proof.
  induction pre as [|q pre IH]; intros H.
  - cbn. destruct (BackupDir.backups_from w rest); reflexivity.
  - change ((q :: pre) ++ rest)%list with (q :: (pre ++ rest))%list.
    cbn [map BackupDir.backups_from].
    rewrite (H q (or_introl eq_refl)).
    rewrite IH by (intros; apply H; now right).
    reflexivity.
Qed.

Lemma backups_from_all (w : world) (files : list Path) :
  (forall q, In q files -> Backup.init w q = Ok (Backup.mk q)) ->
  BackupDir.backups_from w files = (map Backup.mk files, None).
Proof.
  intros H. rewrite <- (app_nil_r files) at 1.
  rewrite backups_from_app by assumption. cbn. now rewrite app_nil_r.
Qed.







(** C9: an entry that exists and is not a regular file, reached after
    entries that all construct, makes the generator raise
    [IsADirectoryError] after yielding the backups before it: the
    enumeration does not end silently there and does not go on to the
    entries behind it, and [find] passes the error on. *)
Theorem backups_raise_at_non_file (w : world) (self : BackupDir.t)
        (pre post : list Path) (p : Path) :
  glob w (BackupDir.path self) SAVE_FILE_SUFFIX = (pre ++ p :: post)%list ->
  (forall q, In q pre -> Backup.init w q = Ok (Backup.mk q)) ->
  exists_ w p = Ok true -> is_file w p = Ok false ->
  BackupDir.backups w self = (map Backup.mk pre, Some (IsADirectoryError p))
  /\ forall selector,
       BackupDir.find w self selector = Raise (IsADirectoryError p).
Proof.
  intros G Hpre E F.
  assert (B : BackupDir.backups w self
              = (map Backup.mk pre, Some (IsADirectoryError p))).
  { unfold BackupDir.backups. rewrite G, backups_from_app by assumption.
    cbn [BackupDir.backups_from].
    rewrite init_not_a_file by (unfold not_a_file; now rewrite E, F).
    cbn. now rewrite app_nil_r. }
  split; [exact B|].
  intros selector. unfold BackupDir.find. now rewrite B.
Qed.

Lemma backups_raise_at_non_file_witness :
  BackupDir.backups w_subdir main_backup_dir
  = ([Backup.mk ["files"; "250101010101-alpha.sl2"]],
     Some (IsADirectoryError ["files"; "250102010101.sl2"]))
  /\ forall selector,
       BackupDir.find w_subdir main_backup_dir selector
       = Raise (IsADirectoryError ["files"; "250102010101.sl2"]).
Proof.
  apply (backups_raise_at_non_file w_subdir main_backup_dir
           [["files"; "250101010101-alpha.sl2"]]
           [["files"; "250103010101-gamma.sl2"]]
           ["files"; "250102010101.sl2"]).
  - reflexivity.
  - intros q [<-|[]]. reflexivity.
  - reflexivity.
  - reflexivity.
Defined.

(** ** Selecting a backup *)

Lemma last_cons_default {A} (x : A) (l : list A) (d d' : A) :
  last (x :: l) d = last (x :: l) d'.
Proof.
  revert x. induction l as [|y l IH]; intros x; [reflexivity|].
  change (last (y :: l) d = last (y :: l) d'). apply IH.
Qed.

Lemma find_loop_app (selector : string) (pre post : list Backup.t)
      (k : nat) (v : BackupDir.find_vars) :
  BackupDir.find_loop selector (pre ++ post)%list k v
  = BackupDir.find_loop selector post (k + List.length pre) (BackupDir.find_loop selector pre k v).
Proof.
  revert k v. induction pre as [|b pre IH]; intros k v; cbn.
  - now rewrite Nat.add_0_r.
  - rewrite IH. now rewrite Nat.add_succ_comm.
Qed.

(** After the loop [backup] is the last backup yielded. *)
Lemma find_loop_backup (selector : string) (bs : list Backup.t)
      (k : nat) (v : BackupDir.find_vars) :
  BackupDir.backup (BackupDir.find_loop selector bs k v) = last (map Some bs) (BackupDir.backup v).
Proof.
  revert k v. induction bs as [|b bs IH]; intros k v; [reflexivity|].
  cbn [BackupDir.find_loop map]. rewrite IH. cbn [BackupDir.find_body BackupDir.backup].
  destruct bs as [|c bs]; [reflexivity|].
  change (last (map Some (c :: bs)) (Some b)
          = last (map Some (c :: bs)) (BackupDir.backup v)).
  apply last_cons_default.
Qed.

Lemma find_loop_ind_keep (selector : string) (bs : list Backup.t)
      (k : nat) (v : BackupDir.find_vars) :
  (forall j, j < List.length bs -> Py.str_int (k + j) <> selector) ->
  BackupDir.ind_match (BackupDir.find_loop selector bs k v) = BackupDir.ind_match v.
Proof.
  revert k v. induction bs as [|b bs IH]; intros k v H; [reflexivity|].
  cbn [BackupDir.find_loop]. rewrite IH.
  - cbn [BackupDir.find_body BackupDir.ind_match].
    destruct (String.eqb_spec (Py.str_int k) selector) as [E|]; [|reflexivity].
    exfalso. apply (H 0); [cbn; lia | now rewrite Nat.add_0_r].
  - intros j Hj. rewrite Nat.add_succ_comm. apply H. cbn. lia.
Qed.

(** The backup whose index renders as the selector is the index
    match: no other index renders the same. *)
Lemma find_loop_ind_hit (selector : string) (bs : list Backup.t)
      (k i : nat) (v : BackupDir.find_vars) (b : Backup.t) :
  nth_error bs i = Some b -> Py.str_int (k + i) = selector ->
  BackupDir.ind_match (BackupDir.find_loop selector bs k v) = Some b.
Proof.
  revert k i v. induction bs as [|c bs IH]; intros k i v N E.
  - destruct i; discriminate.
  - cbn [BackupDir.find_loop]. destruct i as [|i]; cbn in N.
    + injection N as ->. rewrite Nat.add_0_r in E.
      rewrite find_loop_ind_keep.
      * cbn [BackupDir.find_body BackupDir.ind_match]. now rewrite E, String.eqb_refl.
      * intros j _ C. rewrite <- E in C. apply str_int_inj in C. lia.
    + apply (IH (S k) i); [assumption | now rewrite Nat.add_succ_comm].
Qed.

Lemma find_loop_str_keep (selector : string) (bs : list Backup.t)
      (k : nat) (v : BackupDir.find_vars) :
  (forall b, In b bs -> Backup.str b <> selector) ->
  BackupDir.str_match (BackupDir.find_loop selector bs k v) = BackupDir.str_match v.
Proof.
  revert k v. induction bs as [|b bs IH]; intros k v H; [reflexivity|].
  cbn [BackupDir.find_loop]. rewrite IH by (intros; apply H; now right).
  cbn [BackupDir.find_body BackupDir.str_match].
  destruct (String.eqb_spec (Backup.str b) selector) as [E|]; [|reflexivity].
  exfalso. now apply (H b (or_introl eq_refl)).
Qed.

(** The last backup whose name is the selector is the name match. *)
Lemma find_loop_str_last (selector : string) (pre post : list Backup.t)
      (k : nat) (v : BackupDir.find_vars) (b : Backup.t) :
  Backup.str b = selector ->
  (forall b', In b' post -> Backup.str b' <> selector) ->
  BackupDir.str_match (BackupDir.find_loop selector (pre ++ b :: post)%list k v) = Some b.
Proof.
  intros E H. rewrite find_loop_app. cbn [BackupDir.find_loop].
  rewrite find_loop_str_keep by assumption.
  cbn [BackupDir.find_body BackupDir.str_match]. now rewrite E, String.eqb_refl.
Qed.

Lemma truthy_nonempty (s : string) : s <> "" -> Py.truthy s = true.
Proof. destruct s; [contradiction | reflexivity]. Qed.

(** C1, as stated, fails.  In [w_two_dir] the enumeration yields two
    backups, the second at the index that renders as [2] and the first
    named [2], and then meets a sub-directory named like a backup:
    [find] returns neither backup, it raises the error of the
    enumeration. *)
Lemma find_index_wins_counterexample :
  fst (BackupDir.backups w_two_dir main_backup_dir)
  = [Backup.mk ["files"; "250101010101-2.sl2"];
     Backup.mk ["files"; "250102010101-x.sl2"]]
  /\ Py.str_int 2 = "2"
  /\ Backup.str (Backup.mk ["files"; "250101010101-2.sl2"]) = "2"
  /\ BackupDir.find w_two_dir main_backup_dir "2"
     = Raise (IsADirectoryError ["files"; "250103010101.sl2"])
  /\ BackupDir.find w_two_dir main_backup_dir "2"
     <> Ok (Backup.mk ["files"; "250102010101-x.sl2"]).
Proof. repeat split; try reflexivity. vm_compute. discriminate. Qed.

(** C1 (amended): when the enumeration of the directory ends without
    an error and yields [bs], the selector is not empty, the backup
    [b] stands at the 1-based index that renders as the selector and
    some backup [b'] has the selector as its name, [find] returns [b],
    the index match. *)
Theorem find_index_wins (w : world) (self : BackupDir.t) (selector : string)
        (bs : list Backup.t) (i : nat) (b b' : Backup.t) :
  selector <> "" ->
  enumerates w self bs ->
  nth_error bs i = Some b -> Py.str_int (S i) = selector ->
  In b' bs -> Backup.str b' = selector ->
  BackupDir.find w self selector = Ok b.
Proof.
  intros Hs B N E _ _. unfold enumerates in B.
  unfold BackupDir.find. rewrite B.
  rewrite (truthy_nonempty _ Hs).
  rewrite (find_loop_ind_hit selector bs 1 i _ b N E).
  reflexivity.
Qed.

Lemma find_index_wins_witness :
  BackupDir.find w_two main_backup_dir "2" = Ok (Backup.mk ["files"; "250102010101-x.sl2"])
  /\ BackupDir.find w_second main_backup_dir "2"
     = Ok (Backup.mk ["files"; "250102010101-2.sl2"]).
Proof.
  split.
  - apply (find_index_wins w_two main_backup_dir "2"
             [Backup.mk ["files"; "250101010101-2.sl2"];
              Backup.mk ["files"; "250102010101-x.sl2"]]
             1 _ (Backup.mk ["files"; "250101010101-2.sl2"]));
      try reflexivity; [discriminate | now left].
  - apply (find_index_wins w_second main_backup_dir "2"
             [Backup.mk ["files"; "250101010101-alpha.sl2"];
              Backup.mk ["files"; "250102010101-2.sl2"]]
             1 _ (Backup.mk ["files"; "250102010101-2.sl2"]));
      try reflexivity; [discriminate | right; now left].
Defined.

(** C4, as stated, fails.  In [w_subdir] the last backup the
    enumeration produces is the first entry, and [find] with the empty
    selector does not return it: it raises the error the enumeration
    ends with.  In [w_dir] the enumeration produces no backup, and
    [find] raises that error, not [BackupNotFoundError]. *)
Lemma find_empty_selector_counterexample :
  (BackupDir.backups w_subdir main_backup_dir
   = ([Backup.mk ["files"; "250101010101-alpha.sl2"]],
      Some (IsADirectoryError ["files"; "250102010101.sl2"]))
   /\ BackupDir.find w_subdir main_backup_dir ""
      = Raise (IsADirectoryError ["files"; "250102010101.sl2"])
   /\ BackupDir.find w_subdir main_backup_dir ""
      <> Ok (Backup.mk ["files"; "250101010101-alpha.sl2"]))
  /\ (BackupDir.backups w_dir main_backup_dir
      = ([], Some (IsADirectoryError p_bad))
      /\ BackupDir.find w_dir main_backup_dir ""
         = Raise (IsADirectoryError p_bad)
      /\ BackupDir.find w_dir main_backup_dir ""
         <> Raise (BackupNotFoundError "")).
Proof. repeat split; try reflexivity; vm_compute; discriminate. Qed.

(** C4 (amended): when the enumeration of the directory ends without
    an error and yields [bs], [find] with the empty selector returns
    the last backup of [bs], and raises [BackupNotFoundError] when
    [bs] is empty.  The backup returned need not be the most recent
    one: in [w_unsorted] it is the older of the two. *)
Theorem find_empty_selector :
  (forall (w : world) (self : BackupDir.t) (bs : list Backup.t),
      enumerates w self bs ->
      (bs = [] ->
       BackupDir.find w self "" = Raise (BackupNotFoundError ""))
      /\ (forall pre b, bs = (pre ++ [b])%list ->
                        BackupDir.find w self "" = Ok b))
  /\ (exists b b' t t',
         BackupDir.find w_unsorted main_backup_dir "" = Ok b
         /\ In b' (fst (BackupDir.backups w_unsorted main_backup_dir))
         /\ Backup.time b = Ok t /\ Backup.time b' = Ok t'
         /\ earlier t t').
Proof.
  split.
  - intros w self bs B. unfold enumerates in B.
    unfold BackupDir.find. rewrite B. split.
    + intros ->. reflexivity.
    + intros pre b ->. cbn [Py.truthy].
      rewrite find_loop_backup, map_app. cbn [map]. rewrite last_last.
      reflexivity.
  - exists (Backup.mk ["files"; "250101010101-alpha.sl2"]),
           (Backup.mk ["files"; "250103010101-gamma.sl2"]),
           (mkDatetime 2025 1 1 1 1 1 0), (mkDatetime 2025 1 3 1 1 1 0).
    repeat split; try reflexivity. now left.
Qed.

Lemma find_empty_selector_witness :
  BackupDir.find w_empty main_backup_dir "" = Raise (BackupNotFoundError "")
  /\ BackupDir.find w_unsorted main_backup_dir ""
     = Ok (Backup.mk ["files"; "250101010101-alpha.sl2"]).
Proof.
  split.
  - apply (proj1 (proj1 find_empty_selector w_empty main_backup_dir [] eq_refl)).
    reflexivity.
  - apply (proj2 (proj1 find_empty_selector w_unsorted main_backup_dir
                    [Backup.mk ["files"; "250103010101-gamma.sl2"];
                     Backup.mk ["files"; "250101010101-alpha.sl2"]] eq_refl)
             [Backup.mk ["files"; "250103010101-gamma.sl2"]]).
    reflexivity.
Defined.

(** C10, as stated, fails.  In [w_boss_dir] two enumerated backups
    are named [boss] and no index renders as [boss], but the
    enumeration then meets a sub-directory named like a backup:
    [find] does not return the last name match, it raises the error of
    the enumeration. *)
Lemma find_last_name_match_counterexample :
  fst (BackupDir.backups w_boss_dir main_backup_dir)
  = [Backup.mk ["files"; "250101010101-boss.sl2"];
     Backup.mk ["files"; "250102010101-boss.sl2"]]
  /\ Backup.str (Backup.mk ["files"; "250101010101-boss.sl2"]) = "boss"
  /\ Backup.str (Backup.mk ["files"; "250102010101-boss.sl2"]) = "boss"
  /\ Py.str_int 1 <> "boss" /\ Py.str_int 2 <> "boss"
  /\ BackupDir.find w_boss_dir main_backup_dir "boss"
     = Raise (IsADirectoryError ["files"; "250103010101.sl2"])
  /\ BackupDir.find w_boss_dir main_backup_dir "boss"
     <> Ok (Backup.mk ["files"; "250102010101-boss.sl2"]).
Proof. repeat split; try reflexivity; vm_compute; discriminate. Qed.

(** C10 (amended): when the enumeration of the directory ends without
    an error and yields [bs], the selector is not empty, no 1-based
    index of [bs] renders as the selector, and [b] is the last backup
    of [bs] whose name is the selector, an earlier backup [b0] having
    the same name, [find] returns [b]. *)
Theorem find_last_name_match (w : world) (self : BackupDir.t)
        (selector : string) (pre post : list Backup.t) (b b0 : Backup.t) :
  selector <> "" ->
  enumerates w self (pre ++ b :: post)%list ->
  (forall i, i < List.length (pre ++ b :: post)%list ->
             Py.str_int (S i) <> selector) ->
  In b0 pre -> Backup.str b0 = selector ->
  Backup.str b = selector ->
  (forall b', In b' post -> Backup.str b' <> selector) ->
  BackupDir.find w self selector = Ok b.
Proof.
  intros Hs B Hi _ _ E Hpost. unfold enumerates in B.
  unfold BackupDir.find. rewrite B.
  rewrite (truthy_nonempty _ Hs).
  rewrite (find_loop_ind_keep selector _ 1 _ Hi).
  rewrite (find_loop_str_last selector pre post 1 _ b E Hpost).
  reflexivity.
Qed.

Lemma find_last_name_match_witness :
  BackupDir.find w_same_name main_backup_dir "boss"
  = Ok (Backup.mk ["files"; "250102010101-boss.sl2"]).
Proof.
  apply (find_last_name_match w_same_name main_backup_dir "boss"
           [Backup.mk ["files"; "250101010101-boss.sl2"]]
           [Backup.mk ["files"; "250103010101-gamma.sl2"]]
           (Backup.mk ["files"; "250102010101-boss.sl2"])
           (Backup.mk ["files"; "250101010101-boss.sl2"])).
  - discriminate.
  - reflexivity.
  - intros i Hi. cbn in Hi.
    destruct i as [|[|[|i]]]; [discriminate ..|lia].
  - now left.
  - reflexivity.
  - reflexivity.
  - intros b' [<-|[]]. discriminate.
Defined.

(** ** What the handlers can raise *)

Lemma safe_ret {A} (a : A) : safe (ret a).
Proof. intros w e w'. discriminate. Qed.

Lemma safe_raise {A} (e : exc) : not_unknown e = true -> safe (@raise A e).
Proof. intros H w e' w' [= <- _]. exact H. Qed.

Lemma safe_bind {A B} (c : M A) (k : A -> M B) :
  safe c -> (forall a, safe (k a)) -> safe (bind c k).
Proof.
  intros Hc Hk w e w'. unfold bind.
  destruct (c w) as [[a|e0] w1] eqn:E.
  - apply Hk.
  - intros [= <- <-]. exact (Hc _ _ _ E).
Qed.

Lemma safe_lift {A} (r : world -> result A) :
  (forall w e, r w = Raise e -> not_unknown e = true) -> safe (lift r).
Proof. intros H w e w' [= E _]. exact (H _ _ E). Qed.

Lemma walk_known (w : world) (seen : Path) (rest : list string) (e : exc) :
  walk w seen rest = Some e -> not_unknown e = true.
Proof.
  revert seen. induction rest as [|c rest IH]; intros seen; cbn [walk].
  - discriminate.
  - destruct (stat w (seen ++ [c])%list) as [[d|]|];
      [intros [= <-]; reflexivity | apply IH |].
    destruct (_ <? _)%nat; [intros [= <-]; reflexivity|].
    destruct rest as [|c' rest']; [discriminate|].
    destruct (child_of gen_backup_dir_path (seen ++ [c])%list);
      [intros [= <-]; reflexivity | apply IH].
Qed.

Lemma refused_known (w : world) (p : Path) (e : exc) :
  refused w p = Some e -> not_unknown e = true.
Proof.
  unfold refused. destruct (has_nul p); [intros [= <-]; reflexivity|].
  destruct (_ <=? _)%nat; [intros [= <-]; reflexivity|].
  apply walk_known.
Qed.

Lemma os_stat_raises (w : world) (p : Path) (e : exc) :
  os_stat w p = Raise e -> not_unknown e = true.
Proof.
  unfold os_stat. destruct (stat w p); [discriminate|].
  destruct (refused w p) as [e0|] eqn:R; intros [= <-]; [|reflexivity].
  exact (refused_known _ _ _ R).
Qed.

Lemma exists_raises (w : world) (p : Path) (e : exc) :
  exists_ w p = Raise e -> not_unknown e = true.
Proof.
  unfold exists_. destruct (os_stat w p) as [n|e0] eqn:E; [discriminate|].
  pose proof (os_stat_raises _ _ _ E) as N.
  destruct e0; try (intros [= <-]; exact N); try discriminate.
  destruct (ignore_error errno); [discriminate|].
  intros [= <-]. reflexivity.
Qed.

Lemma init_raises (w : world) (p : Path) (e : exc) :
  Backup.init w p = Raise e -> not_unknown e = true.
Proof.
  unfold Backup.init, Backup.check. cbn [Backup.path].
  destruct (exists_is_file w p) as [[n [_ [E1 E2]]]|[[E1 E2]|[e0 [E1 E2]]]];
    rewrite E1, ?E2; cbn.
  - destruct n; cbn; [|intros [= <-]; reflexivity].
    destruct (Backup.time (Backup.mk p)) eqn:E; cbn; [discriminate|].
    intros [= <-]. destruct (strptime_raises _ _ E) as [msg ->]. reflexivity.
  - destruct (Backup.time (Backup.mk p)) eqn:E; cbn; [discriminate|].
    intros [= <-]. destruct (strptime_raises _ _ E) as [msg ->]. reflexivity.
  - intros [= <-]. exact (exists_raises _ _ _ E1).
Qed.

Lemma backups_from_raises (w : world) (files : list Path) (e : exc) :
  snd (BackupDir.backups_from w files) = Some e -> not_unknown e = true.
Proof.
  induction files as [|p files IH]; cbn [BackupDir.backups_from]; [discriminate|].
  destruct (Backup.init w p) as [b|e0] eqn:E.
  - destruct (BackupDir.backups_from w files). exact IH.
  - pose proof (init_raises _ _ _ E) as N.
    destruct e0; cbn; try discriminate; intros [= <-]; exact N.
Qed.

Lemma find_raises (w : world) (self : BackupDir.t) (selector : string) (e : exc) :
  BackupDir.find w self selector = Raise e -> not_unknown e = true.
Proof.
  unfold BackupDir.find.
  destruct (BackupDir.backups w self) as [bs ending] eqn:B.
  destruct ending as [e0|].
  - intros [= <-]. apply (backups_from_raises w (glob w (BackupDir.path self) SAVE_FILE_SUFFIX)).
    unfold BackupDir.backups in B. now rewrite B.
  - set (v := BackupDir.find_loop selector bs 1 _).
    destruct (Py.truthy selector), (BackupDir.backup v), (BackupDir.ind_match v),
      (BackupDir.str_match v); try discriminate; intros [= <-]; reflexivity.
Qed.

Lemma rows_raises (i : nat) (bs : list Backup.t) (e : exc) :
  Handlers.rows i bs = Raise e -> not_unknown e = true.
Proof.
  revert i. induction bs as [|b bs IH]; intros i; cbn [Handlers.rows]; [discriminate|].
  destruct (Backup.time b) eqn:T; cbn.
  - destruct (Handlers.rows (S i) bs) eqn:R; cbn; [discriminate|].
    intros [= <-]. exact (IH _ R).
  - intros [= <-]. destruct (strptime_raises _ _ T) as [msg ->]. reflexivity.
Qed.

Ltac split_matches :=
  repeat match goal with
         | |- context [match ?x with _ => _ end] => destruct x eqn:?
         end.

Lemma safe_next_fault : safe next_fault.
Proof.
  intros w e w'. unfold next_fault. split_matches;
    intros [= <- _]; reflexivity.
Qed.

Lemma safe_read_file (p : Path) : safe (read_file p).
Proof.
  intros w e w'. unfold read_file.
  destruct (os_stat w p) as [[d|]|e0] eqn:E; try discriminate;
    intros [= <- _]; [reflexivity|].
  exact (os_stat_raises _ _ _ E).
Qed.

Lemma safe_write_file (p : Path) (data : string) : safe (write_file p data).
Proof.
  intros w e w'. unfold write_file.
  destruct (stat w p) as [[d|]|]; try discriminate.
  - intros [= <- _]. reflexivity.
  - destruct (refused w p) as [e0|] eqn:R; [|discriminate].
    intros [= <- _]. exact (refused_known _ _ _ R).
Qed.

Lemma safe_samefile (src dst : Path) : safe (lift (samefile src dst)).
Proof.
  apply safe_lift. intros w e. unfold samefile.
  destruct (os_stat w src) as [n|e0] eqn:E.
  - destruct (os_stat w dst) as [n'|e1] eqn:E'; [discriminate|].
    pose proof (os_stat_raises _ _ _ E') as N.
    destruct e1; try discriminate; intros [= <-]; exact N.
  - pose proof (os_stat_raises _ _ _ E) as N.
    destruct e0; try discriminate; intros [= <-]; exact N.
Qed.

Lemma safe_probe (p : Path) : safe (lift (probe p)).
Proof.
  apply safe_lift. intros w e. unfold probe.
  destruct (os_stat w p) as [n|e0] eqn:E; [discriminate|].
  pose proof (os_stat_raises _ _ _ E) as N.
  destruct e0; try discriminate; intros [= <-]; exact N.
Qed.

Lemma safe_copy_file (src dst : Path) : safe (copy_file src dst).
Proof.
  unfold copy_file.
  apply safe_bind; [apply safe_lift; discriminate|]. intros target.
  apply safe_bind; [apply safe_samefile|]. intros [|].
  - apply safe_raise. reflexivity.
  - apply safe_bind; [apply safe_probe|]. intros _.
    apply safe_bind; [apply safe_probe|]. intros _.
    apply safe_bind; [apply safe_next_fault|]. intros _.
    apply safe_bind; [apply safe_read_file|]. intros data.
    apply safe_write_file.
Qed.

Lemma safe_delete_file (src : Path) : safe (delete_file src).
Proof.
  unfold delete_file.
  apply safe_bind.
  { apply safe_lift. intros w e. unfold converts.
    destruct (os_stat w src) as [n|[]]; try discriminate.
    intros [= <-]. reflexivity. }
  intros _.
  apply safe_bind; [apply safe_next_fault|]. intros _.
  intros w e w'.
  destruct (os_stat w src) as [[d|]|e0] eqn:E.
  - destruct (child_of gen_backup_dir_path src); discriminate.
  - intros [= <- _]. reflexivity.
  - intros [= <- _]. exact (os_stat_raises _ _ _ E).
Qed.

Lemma safe_with_selector (q : string) (args : list string)
      (k : string -> M (string * CommandHandler.t)) :
  (forall s, safe (k s)) -> safe (Handlers.with_selector q args k).
Proof.
  intros H. unfold Handlers.with_selector.
  destruct args as [|s [|s' args]]; try apply H.
  apply safe_raise. reflexivity.
Qed.

(** No handler of the registry raises [UnknownModeError]. *)
Lemma safe_commands (c : Command.t) (self : CommandHandler.t) (args : list string) :
  In c commands -> safe (Command.fun_ c self args).
Proof.
  intros [<-|[<-|[<-|[<-|[<-|[]]]]]]; cbn [Command.fun_].
  - unfold Handlers.list. destruct args; [|apply safe_raise; reflexivity].
    apply safe_lift. intros w e.
    destruct (BackupDir.backups w (CommandHandler.backup_dir self))
      as [bs ending] eqn:B.
    destruct ending as [e0|].
    + intros [= <-].
      apply (backups_from_raises w
               (glob w (BackupDir.path (CommandHandler.backup_dir self))
                     SAVE_FILE_SUFFIX)).
      unfold BackupDir.backups in B. now rewrite B.
    + destruct bs as [|b bs]; [discriminate|].
      destruct (Handlers.rows 1 (b :: bs)) eqn:R; cbn; [discriminate|].
      intros [= <-]. exact (rows_raises _ _ _ R).
  - apply safe_with_selector. intros s.
    apply safe_bind.
    { apply safe_lift. intros w e. apply init_raises. }
    intros b. apply safe_bind; [apply safe_copy_file|]. intros _. apply safe_ret.
  - apply safe_with_selector. intros s.
    apply safe_bind; [apply safe_lift; intros w e; apply find_raises|].
    intros b. apply safe_bind; [apply safe_copy_file|]. intros _. apply safe_ret.
  - apply safe_with_selector. intros s.
    apply safe_bind; [apply safe_lift; intros w e; apply find_raises|].
    intros b. apply safe_bind; [apply safe_delete_file|]. intros _. apply safe_ret.
  - unfold Handlers.quit. destruct args; [apply safe_ret|].
    apply safe_raise. reflexivity.
Qed.

(** ** Dispatch *)

Lemma execute_in_none (cs : list Command.t) (self : CommandHandler.t)
      (cmd : string) (args : list string) (w : world) :
  (forall c, In c cs -> Command.has_alias cmd c = false) ->
  execute_in cs self cmd args w = (Raise (UnknownModeError cmd), w).
Proof.
  induction cs as [|c cs IH]; intros H; cbn [execute_in]; [reflexivity|].
  rewrite (H c (or_introl eq_refl)). apply IH. intros; apply H; now right.
Qed.

Lemma execute_in_first (pre post : list Command.t) (c : Command.t)
      (self : CommandHandler.t) (cmd : string) (args : list string) :
  (forall c', In c' pre -> Command.has_alias cmd c' = false) ->
  Command.has_alias cmd c = true ->
  execute_in (pre ++ c :: post)%list self cmd args = Command.fun_ c self args.
Proof.
  induction pre as [|c' pre IH]; intros H Hc.
  - change ([] ++ c :: post)%list with (c :: post). cbn [execute_in].
    now rewrite Hc.
  - change ((c' :: pre) ++ c :: post)%list with (c' :: (pre ++ c :: post))%list.
    cbn [execute_in]. rewrite (H c' (or_introl eq_refl)).
    apply IH; [intros; apply H; now right | assumption].
Qed.

Lemma execute_in_unknown (cs : list Command.t) (self : CommandHandler.t)
      (cmd x : string) (args : list string) (w w' : world) :
  (forall c, In c cs -> safe (Command.fun_ c self args)) ->
  execute_in cs self cmd args w = (Raise (UnknownModeError x), w') ->
  forall c, In c cs -> Command.has_alias cmd c = false.
Proof.
  induction cs as [|c cs IH]; intros S E c' Hc'; [destruct Hc'|].
  cbn [execute_in] in E.
  destruct (Command.has_alias cmd c) eqn:A.
  - pose proof (S c (or_introl eq_refl) _ _ _ E). discriminate.
  - destruct Hc' as [<-|Hc']; [assumption|].
    apply IH; [intros; apply S; now right | assumption | assumption].
Qed.

(** C6: [execute] raises [UnknownModeError(cmd)] exactly when no
    command of the registry has [cmd] among its aliases; otherwise it
    is the call of the handler of the first command, in the order of
    the registry, that has it: the handler's text or its failure. *)
Theorem execute_dispatch (self : CommandHandler.t) (cmd : string)
        (args : list string) (w : world) :
  ((exists w', execute self (cmd :: args) w = (Raise (UnknownModeError cmd), w'))
   <-> (forall c, In c commands -> Command.has_alias cmd c = false))
  /\ (forall pre c post,
         commands = (pre ++ c :: post)%list ->
         (forall c', In c' pre -> Command.has_alias cmd c' = false) ->
         Command.has_alias cmd c = true ->
         execute self (cmd :: args) w = Command.fun_ c self args w).
Proof.
  split; [split|].
  - intros [w' E]. cbn [execute] in E.
    apply (execute_in_unknown commands self cmd cmd args w w');
      [|assumption].
    intros c Hc. now apply safe_commands.
  - intros H. exists w. cbn [execute]. now apply execute_in_none.
  - intros pre c post E Hpre Hc. cbn [execute]. rewrite E.
    now rewrite execute_in_first.
Qed.

Lemma execute_dispatch_witness :
  execute cmd_handler ["frobnicate"; "x"] w_three
  = (Raise (UnknownModeError "frobnicate"), w_three)
  /\ execute cmd_handler ["del"; "2"] w_three
     = Handlers.delete cmd_handler ["2"] w_three.
Proof.
  split.
  - destruct (proj2 (proj1 (execute_dispatch cmd_handler "frobnicate" ["x"] w_three)))
      as [w' E].
    + intros c [<-|[<-|[<-|[<-|[<-|[]]]]]]; reflexivity.
    + reflexivity.
  - apply (proj2 (execute_dispatch cmd_handler "del" ["2"] w_three)
             [Command.mk ["list"; "ls"] Handlers.list;
              Command.mk ["save"] Handlers.save;
              Command.mk ["load"] Handlers.load]
             (Command.mk ["delete"; "del"] Handlers.delete)
             [Command.mk ["quit"; "q"] Handlers.quit]).
    + reflexivity.
    + intros c [<-|[<-|[<-|[]]]]; reflexivity.
    + reflexivity.
Defined.

(** ** The safe boundary *)

(** C2: for every token list [execute_safe] returns a text and raises
    nothing; when [execute] fails the text is the class name of the
    error followed by its arguments.  The empty list and an unknown
    first token give the text of [UnknownModeError], too many
    arguments the text of a [TypeError]. *)
Theorem execute_safe_never_raises :
  (forall (self : CommandHandler.t) (argv : list string) (w : world),
      exists s self' w',
        execute_safe self argv w = (Ok (s, self'), w')
        /\ (forall e w1, execute self argv w = (Raise e, w1) ->
                         s = Py.join ": " (exc_name e :: exc_args e)
                         /\ self' = self /\ w' = w1)
        /\ (forall r w1, execute self argv w = (Ok r, w1) ->
                         (s, self') = r /\ w' = w1))
  /\ (forall self w,
         execute_safe self [] w = (Ok ("UnknownModeError: ", self), w))
  /\ (forall self cmd args w,
         (forall c, In c commands -> Command.has_alias cmd c = false) ->
         execute_safe self (cmd :: args) w
         = (Ok ("UnknownModeError: " ++ cmd, self), w))
  /\ (forall self cmd a args w,
         In cmd ["list"; "ls"; "quit"; "q"] ->
         exists msg,
           execute_safe self (cmd :: a :: args) w
           = (Ok ("TypeError: " ++ msg, self), w))
  /\ (forall self cmd a b args w,
         In cmd ["save"; "load"; "delete"; "del"] ->
         exists msg,
           execute_safe self (cmd :: a :: b :: args) w
           = (Ok ("TypeError: " ++ msg, self), w)).
Proof.
  split; [|split; [|split; [|split]]].
  - intros self argv w. unfold execute_safe.
    destruct (execute self argv w) as [[[s self']|e] w'] eqn:E.
    + exists s, self', w'. split; [reflexivity|]. split.
      * intros e w1. discriminate.
      * intros r w1 [= <- <-]. auto.
    + exists (describe e), self, w'.
      assert (X : is_Exception e = true) by (destruct e; reflexivity).
      rewrite X. split; [reflexivity|]. split.
      * intros e1 w1 [= <- <-]. auto.
      * intros r w1. discriminate.
  - reflexivity.
  - intros self cmd args w H. unfold execute_safe. cbn [execute].
    rewrite (execute_in_none commands self cmd args w H). reflexivity.
  - intros self cmd a args w [<-|[<-|[<-|[<-|[]]]]]; eexists; reflexivity.
  - intros self cmd a b args w [<-|[<-|[<-|[<-|[]]]]]; eexists; reflexivity.
Qed.

Lemma execute_safe_never_raises_witness :
  execute_safe cmd_handler ["frobnicate"] w_three
  = (Ok ("UnknownModeError: frobnicate", cmd_handler), w_three).
Proof.
  apply (proj1 (proj2 (proj2 execute_safe_never_raises)) cmd_handler "frobnicate" []).
  intros c [<-|[<-|[<-|[<-|[<-|[]]]]]]; reflexivity.
Defined.

(** ** Writing a backup and listing it again *)

(** The scenario of the specification: [save checkpoint] at
    2025-02-03 04:05:06 writes the content of the save file to
    [250203040506-checkpoint.sl2]. *)
Example save_checkpoint :
  execute_safe cmd_handler ["save"; "checkpoint"] w_three
  = (Ok ("Saved backup checkpoint", cmd_handler), w_checkpoint).
Proof. reflexivity. Qed.

(** A name with a separator leaves the directory: the stem is then
    what follows the last separator, and it does not parse. *)
Example create_with_separator :
  BackupDir.create w_empty main_backup_dir (Some "a/b") (Some t_2025)
  = Raise (ValueError "time data 'b' does not match format '%y%m%d%H%M%S'").
Proof. reflexivity. Qed.

Lemma substring_all (s : string) : substring 0 (String.length s) s = s.
Proof. induction s as [|c s IH]; cbn; [reflexivity | now rewrite IH]. Qed.

Lemma substring_skip (a b : string) :
  substring (String.length a) (String.length b) (a ++ b) = b.
Proof. induction a as [|c a IH]; cbn; [apply substring_all | exact IH]. Qed.

Lemma endswith_append (a b : string) : Py.endswith (a ++ b) b = true.
Proof.
  unfold Py.endswith. rewrite length_append.
  replace (String.length a + String.length b - String.length b)
    with (String.length a) by lia.
  rewrite substring_skip, String.eqb_refl.
  destruct (Nat.leb_spec (String.length b) (String.length a + String.length b));
    [reflexivity | lia].
Qed.

Lemma stat_child (w : world) (f : string) :
  stat w (gen_backup_dir_path ++ [f])%list = assoc f (listing w).
Proof. reflexivity. Qed.

Lemma glob_In (w : world) (p : Path) :
  In p (glob w gen_backup_dir_path SAVE_FILE_SUFFIX)
  <-> exists f n, In (f, n) (listing w)
                  /\ Py.endswith f SAVE_FILE_SUFFIX = true
                  /\ p = (gen_backup_dir_path ++ [f])%list.
Proof.
  unfold glob, Path_eqb.
  destruct (list_eq_dec string_dec gen_backup_dir_path gen_backup_dir_path);
    [|contradiction].
  rewrite in_map_iff. split.
  - intros [[f n] [<- H]]. apply filter_In in H as [H1 H2].
    exists f, n. auto.
  - intros [f [n [H1 [H2 ->]]]]. exists (f, n). split; [reflexivity|].
    apply filter_In. auto.
Qed.

Lemma assoc_app {A} (k : string) (a b : list (string * A)) :
  assoc k (a ++ b)%list
  = match assoc k a with Some v => Some v | None => assoc k b end.
Proof.
  induction a as [|[k' v] a IH]; cbn; [reflexivity|].
  destruct (String.eqb k k'); [reflexivity | exact IH].
Qed.

Lemma assoc_insert_at {A} (k f : string) (n : A) (i : nat) (l : list (string * A)) :
  assoc f l = None ->
  assoc k (insert_at i (f, n) l)
  = if String.eqb k f then Some n else assoc k l.
Proof.
  intros H. unfold insert_at.
  rewrite <- (firstn_skipn i l) in H at 1.
  rewrite <- (firstn_skipn i l) at 3.
  rewrite assoc_app in H. rewrite !assoc_app. cbn [assoc].
  destruct (String.eqb_spec k f) as [->|].
  - destruct (assoc f (firstn i l)); [discriminate | reflexivity].
  - reflexivity.
Qed.

Lemma assoc_replace_entry (k f : string) (n : node) (l : list (string * node)) :
  assoc k (replace_entry f n l)
  = if String.eqb k f then
      match assoc f l with Some _ => Some n | None => None end
    else assoc k l.
Proof.
  induction l as [|[f' n'] l IH]; cbn.
  - now destruct (String.eqb k f).
  - destruct (String.eqb_spec f f') as [<-|N]; cbn.
    + destruct (String.eqb_spec k f); reflexivity.
    + rewrite IH. destruct (String.eqb_spec k f') as [->|].
      * destruct (String.eqb_spec f' f); [congruence | reflexivity].
      * reflexivity.
Qed.

Lemma In_replace_entry (f : string) (n : node) (l : list (string * node))
      (x : string * node) :
  In x (replace_entry f n l) -> fst x = f \/ In x l.
Proof.
  induction l as [|[f' n'] l IH]; cbn; [tauto|].
  destruct (String.eqb_spec f f') as [<-|N]; cbn.
  - intros [<-|H]; auto.
  - intros [<-|H]; auto. destruct (IH H); auto.
Qed.

Lemma replace_entry_In (f : string) (n : node) (l : list (string * node)) :
  assoc f l <> None -> In (f, n) (replace_entry f n l).
Proof.
  induction l as [|[f' n'] l IH]; cbn; [congruence|].
  destruct (String.eqb_spec f f') as [<-|N]; cbn; auto.
Qed.

Lemma In_insert_at {A} (i : nat) (x y : A) (l : list A) :
  In x (insert_at i y l) <-> x = y \/ In x l.
Proof.
  unfold insert_at. rewrite <- (firstn_skipn i l) at 3.
  rewrite !in_app_iff. cbn. intuition congruence.
Qed.

Lemma bind_ok {A B} (c : M A) (k : A -> M B) (w w' : world) (x : B) :
  bind c k w = (Ok x, w') ->
  exists a w1, c w = (Ok a, w1) /\ k a w1 = (Ok x, w').
Proof.
  unfold bind. destruct (c w) as [[a|e] w1]; [eauto|discriminate].
Qed.

Lemma lift_ok {A} (r : world -> result A) (w w' : world) (a : A) :
  lift r w = (Ok a, w') -> r w = Ok a /\ w' = w.
Proof. unfold lift. now intros [= -> <-]. Qed.

Lemma next_fault_same (w w1 : world) :
  next_fault w = (Ok tt, w1) ->
  listing w1 = listing w /\ outside w1 = outside w
  /\ slot w1 = slot w /\ clock w1 = clock w.
Proof.
  unfold next_fault. destruct (faults w) as [|[[[cls errno] msg]|] fs];
    intros [= <-]; auto.
Qed.

Lemma stat_same (w w1 : world) (p : Path) :
  listing w1 = listing w -> outside w1 = outside w -> stat w1 p = stat w p.
Proof. intros L O. unfold stat. now rewrite L, O. Qed.

Lemma walk_same (w w1 : world) (seen : Path) (rest : list string) :
  listing w1 = listing w -> outside w1 = outside w ->
  walk w1 seen rest = walk w seen rest.
Proof.
  intros L O. revert seen.
  induction rest as [|c rest IH]; intros seen; cbn [walk]; [reflexivity|].
  rewrite (stat_same w w1 _ L O).
  destruct (stat w (seen ++ [c])%list) as [[d|]|];
    [reflexivity | apply IH |].
  destruct (_ <? _)%nat; [reflexivity|].
  destruct rest as [|c' rest']; [reflexivity|].
  destruct (child_of gen_backup_dir_path (seen ++ [c])%list);
    [reflexivity | apply IH].
Qed.

Lemma os_stat_same (w w1 : world) (p : Path) :
  listing w1 = listing w -> outside w1 = outside w -> os_stat w1 p = os_stat w p.
Proof.
  intros L O. unfold os_stat, refused.
  now rewrite (stat_same w w1 p L O), (walk_same w w1 [] p L O).
Qed.

(** [os.stat] on a child of the backup directory looks at the entry of
    that name only. *)
Lemma os_stat_listing (w w' : world) (f : string) :
  assoc f (listing w) = assoc f (listing w') ->
  os_stat w (gen_backup_dir_path ++ [f])%list
  = os_stat w' (gen_backup_dir_path ++ [f])%list.
Proof.
  intros E. destruct (assoc f (listing w)) as [n|] eqn:A.
  - rewrite (stat_os_stat w _ n) by exact A.
    symmetry. apply stat_os_stat. rewrite stat_child. now rewrite <- E.
  - rewrite (os_stat_child w f A). symmetry. apply os_stat_child.
    now rewrite <- E.
Qed.

Lemma init_stat (w w' : world) (f : string) :
  assoc f (listing w) = assoc f (listing w') ->
  Backup.init w (gen_backup_dir_path ++ [f])%list
  = Backup.init w' (gen_backup_dir_path ++ [f])%list.
Proof.
  intros E. unfold Backup.init, Backup.check, exists_, is_file.
  cbn [Backup.path]. now rewrite (os_stat_listing w w' f E).
Qed.

Lemma next_fault_ok (w w1 : world) :
  next_fault w = (Ok tt, w1) ->
  listing w1 = listing w /\ slot w1 = slot w.
Proof.
  unfold next_fault. destruct (faults w) as [|[[[cls errno] msg]|] fs];
    intros [= <-]; auto.
Qed.

Lemma read_file_world (p : Path) (w w2 : world) (r : result string) :
  read_file p w = (r, w2) -> w2 = w.
Proof.
  unfold read_file. destruct (os_stat w p) as [[data|]|]; now intros [= _ <-].
Qed.

Lemma read_file_ok (p : Path) (w w2 : world) (data : string) :
  read_file p w = (Ok data, w2) -> w2 = w /\ stat w p = Some (KFile data).
Proof.
  unfold read_file. destruct (os_stat w p) as [[d|]|e] eqn:E; try discriminate.
  intros [= <- <-]. split; [reflexivity | now apply os_stat_inv].
Qed.

Lemma isdir_stat (w : world) (p : Path) :
  isdir w p = match stat w p with Some KDir => true | _ => false end.
Proof.
  unfold isdir, os_stat. destruct (stat w p) as [[d|]|]; try reflexivity.
  destruct (refused w p); reflexivity.
Qed.

(** What a copy that returns has done: the source was a regular file,
    the target was not the source, and the content was written to the
    target. *)
Lemma copy_file_ok (src dst : Path) (w w' : world) :
  copy_file src dst w = (Ok tt, w') ->
  exists data w1,
    stat w src = Some (KFile data)
    /\ samefile src (if isdir w dst then (dst ++ [Pathlib.name src])%list
                     else dst) w = Ok false
    /\ (listing w1 = listing w /\ outside w1 = outside w
        /\ slot w1 = slot w /\ clock w1 = clock w)
    /\ write_file (if isdir w dst then (dst ++ [Pathlib.name src])%list else dst)
                  data w1 = (Ok tt, w').
Proof.
  unfold copy_file. intros C.
  apply bind_ok in C as [target [w0 [T C]]].
  apply lift_ok in T as [[= <-] ->].
  apply bind_ok in C as [same [w0 [Sm C]]].
  apply lift_ok in Sm as [Sm ->].
  destruct same; [discriminate|].
  apply bind_ok in C as [[] [w0 [P1 C]]]. apply lift_ok in P1 as [_ ->].
  apply bind_ok in C as [[] [w0 [P2 C]]]. apply lift_ok in P2 as [_ ->].
  apply bind_ok in C as [[] [w1 [F C]]].
  pose proof (next_fault_same _ _ F) as Same.
  apply bind_ok in C as [data [w2 [R C]]].
  apply read_file_ok in R as [-> R].
  destruct Same as [L [O [Sl Cl]]].
  rewrite (stat_same _ _ _ L O) in R.
  exists data, w1.
  split; [exact R|]. split; [exact Sm|]. split; [auto|]. exact C.
Qed.

Lemma put_child (w : world) (f data : string) :
  put (gen_backup_dir_path ++ [f])%list data w
  = match assoc f (listing w) with
    | Some _ =>
        mkWorld (replace_entry f (KFile data) (listing w))
                (outside w) (clock w) (slot w) (faults w)
    | None =>
        mkWorld (insert_at (slot w) (f, KFile data) (listing w))
                (outside w) (clock w) (slot w) (faults w)
    end.
Proof. reflexivity. Qed.

(** Writing to a child of the backup directory. *)
Lemma write_file_child (w w' : world) (f data : string) :
  write_file (gen_backup_dir_path ++ [f])%list data w = (Ok tt, w') ->
  outside w' = outside w
  /\ ((assoc f (listing w) <> None
       /\ listing w' = replace_entry f (KFile data) (listing w))
      \/ (assoc f (listing w) = None
          /\ listing w' = insert_at (slot w) (f, KFile data) (listing w))).
Proof.
  unfold write_file. rewrite put_child, stat_child.
  destruct (assoc f (listing w)) as [n|] eqn:A.
  - destruct n; [|discriminate].
    intros [= <-]. cbn [listing outside].
    split; [reflexivity|]. left. split; [discriminate | reflexivity].
  - destruct (refused w (gen_backup_dir_path ++ [f])%list); [discriminate|].
    intros [= <-]. cbn [listing outside].
    split; [reflexivity|]. right. split; reflexivity.
Qed.

(** A copy onto a child of the backup directory that is not a
    directory rewrites the file in place, or lists a new file at the
    slot the directory chooses. *)
Lemma copy_file_listing (w w' : world) (src : Path) (f : string) :
  assoc f (listing w) <> Some KDir ->
  copy_file src (gen_backup_dir_path ++ [f])%list w = (Ok tt, w') ->
  exists data,
    (assoc f (listing w) <> None
     /\ listing w' = replace_entry f (KFile data) (listing w))
    \/ (assoc f (listing w) = None
        /\ listing w' = insert_at (slot w) (f, KFile data) (listing w)).
Proof.
  intros ND C.
  apply copy_file_ok in C as [data [w1 [_ [_ [[L [_ [Sl _]]] W]]]]].
  rewrite isdir_stat, stat_child in W.
  assert (T : match assoc f (listing w) with Some KDir => true | _ => false end
              = false)
    by (destruct (assoc f (listing w)) as [[d|]|]; congruence).
  rewrite T in W.
  apply write_file_child in W as [_ W]. rewrite L, Sl in W.
  exists data. exact W.
Qed.

(** On a child of the backup directory the world lists as a regular
    file, [Backup(path)] depends on the name alone. *)
Lemma init_listed_file (w : world) (f data : string) :
  assoc f (listing w) = Some (KFile data) ->
  parses (gen_backup_dir_path ++ [f])%list = true ->
  Backup.init w (gen_backup_dir_path ++ [f])%list
  = Ok (Backup.mk (gen_backup_dir_path ++ [f])%list).
Proof.
  intros A P.
  assert (St : stat w (gen_backup_dir_path ++ [f])%list = Some (KFile data))
    by exact A.
  destruct (listed_exists _ _ _ St) as [E _].
  apply (init_ok w _ true E); [|assumption].
  now rewrite (listed_not_a_file _ _ _ St).
Qed.

Lemma listed_after_copy (w w' : world) (src : Path) (f : string) :
  well_formed w ->
  Py.endswith f SAVE_FILE_SUFFIX = true ->
  Backup.init w (gen_backup_dir_path ++ [f])%list
  = Ok (Backup.mk (gen_backup_dir_path ++ [f])%list) ->
  copy_file src (gen_backup_dir_path ++ [f])%list w = (Ok tt, w') ->
  well_formed w'
  /\ In (gen_backup_dir_path ++ [f])%list
        (glob w' gen_backup_dir_path SAVE_FILE_SUFFIX).
Proof.
  intros WF Hsuf I C.
  destruct (init_inv _ _ _ I) as [_ [NF P]].
  assert (ND : assoc f (listing w) <> Some KDir).
  { intros A.
    rewrite (listed_not_a_file w (gen_backup_dir_path ++ [f])%list KDir A) in NF.
    discriminate. }
  destruct (copy_file_listing _ _ _ _ ND C) as [data [[A L]|[A L]]].
  - (* the file is rewritten in place *)
    assert (S : forall k, assoc k (listing w')
                          = if String.eqb k f then Some (KFile data)
                            else assoc k (listing w)).
    { intros k. rewrite L, assoc_replace_entry.
      destruct (String.eqb k f); [|reflexivity].
      destruct (assoc f (listing w)); [reflexivity | contradiction]. }
    split.
    + intros p Hp. apply glob_In in Hp as [f' [n' [Hin [Hs ->]]]].
      destruct (String.eqb_spec f' f) as [->|N].
      * apply (init_listed_file w' f data); [|assumption].
        now rewrite S, String.eqb_refl.
      * rewrite <- (init_stat w w').
        -- apply WF. apply glob_In. rewrite L in Hin.
           apply In_replace_entry in Hin as [E|Hin]; [contradiction|].
           eauto.
        -- rewrite S.
           destruct (String.eqb_spec f' f); [contradiction | reflexivity].
    + apply glob_In. exists f, (KFile data). rewrite L.
      auto using replace_entry_In.
  - (* a new file is listed *)
    assert (S : forall k, assoc k (listing w')
                          = if String.eqb k f then Some (KFile data)
                            else assoc k (listing w)).
    { intros k. rewrite L. now apply assoc_insert_at. }
    split.
    + intros p Hp. apply glob_In in Hp as [f' [n' [Hin [Hs ->]]]].
      destruct (String.eqb_spec f' f) as [->|N].
      * apply (init_listed_file w' f data); [|assumption].
        now rewrite S, String.eqb_refl.
      * rewrite <- (init_stat w w').
        -- apply WF. apply glob_In. rewrite L in Hin.
           apply In_insert_at in Hin as [[= E _]|Hin]; [contradiction|].
           eauto.
        -- rewrite S.
           destruct (String.eqb_spec f' f); [contradiction | reflexivity].
    + apply glob_In. exists f, (KFile data). rewrite L.
      split; [apply In_insert_at; now left | auto].
Qed.

(** C3, as stated, fails.  A backup created for a day of 1950 is
    listed with the year 2050; and a backup written into a directory
    that lists an unparsable entry before it is not listed at all. *)
Lemma roundtrip_counterexample :
  (valid t_1950 = true
   /\ BackupDir.create w_empty main_backup_dir (Some "old") (Some t_1950) = Ok b_1950
   /\ Backup.save b_1950 ["save"; "DS2.sl2"] w_empty = (Ok tt, w_1950)
   /\ BackupDir.backups w_1950 main_backup_dir = ([b_1950], None)
   /\ Backup.time b_1950 = Ok (mkDatetime 2050 6 15 12 0 0 0)
   /\ Backup.time b_1950 <> Ok (truncate t_1950))
  /\ (valid t_2025 = true
      /\ BackupDir.create w_junk_first main_backup_dir (Some "new") (Some t_2025)
         = Ok b_2025
      /\ Backup.save b_2025 ["save"; "DS2.sl2"] w_junk_first
         = (Ok tt, w_junk_then_new)
      /\ BackupDir.backups w_junk_then_new main_backup_dir = ([], None)).
Proof.
  split; repeat split; try reflexivity.
  vm_compute. discriminate.
Qed.

(** C3 (amended): for a name without a path separator and a time
    whose year lies in 1969..2068, in a backup directory all of whose
    entries with the suffix construct, a backup made by [create] and
    written by [save] is yielded when the directory is listed again,
    with the name given and the time given cut to whole seconds. *)
Theorem create_save_list_roundtrip (w w' : world) (name : string) (t : datetime)
        (b : Backup.t) (save_file : SaveFile.t) :
  valid t = true ->
  (1969 <= year t <= 2068)%N ->
  Py.contains "/" name = false ->
  well_formed w ->
  BackupDir.create w main_backup_dir (Some name) (Some t) = Ok b ->
  Backup.save b (SaveFile.path save_file) w = (Ok tt, w') ->
  exists bs,
    enumerates w' main_backup_dir bs
    /\ In b bs
    /\ Backup.name b = name
    /\ Backup.time b = Ok (truncate t).
Proof.
  intros V Y Hn WF C S.
  rewrite create_path in C by assumption.
  cbn [BackupDir.path main_backup_dir] in C.
  destruct (init_inv _ _ _ C) as [-> _].
  unfold Backup.save in S. cbn [Backup.path] in S.
  assert (Hsuf : Py.endswith (file_name name t) SAVE_FILE_SUFFIX = true)
    by (rewrite file_name_base; apply endswith_append).
  destruct (listed_after_copy w w' _ _ WF Hsuf C S) as [WF' Hin].
  exists (map Backup.mk (glob w' gen_backup_dir_path SAVE_FILE_SUFFIX)).
  split; [|split; [|split]].
  - unfold enumerates, BackupDir.backups. cbn [BackupDir.path main_backup_dir].
    now apply backups_from_all.
  - now apply in_map.
  - now apply name_file_name.
  - rewrite time_file_name by assumption. now apply strptime_strftime.
Qed.

Lemma create_save_list_roundtrip_witness :
  exists bs,
    enumerates w_checkpoint main_backup_dir bs
    /\ In (Backup.mk ["files"; "250203040506-checkpoint.sl2"]) bs
    /\ Backup.name (Backup.mk ["files"; "250203040506-checkpoint.sl2"]) = "checkpoint"
    /\ Backup.time (Backup.mk ["files"; "250203040506-checkpoint.sl2"])
       = Ok (truncate (mkDatetime 2025 2 3 4 5 6 77)).
Proof.
  apply (create_save_list_roundtrip w_three _ "checkpoint"
           (mkDatetime 2025 2 3 4 5 6 77) _ ds2_save).
  - reflexivity.
  - cbn. lia.
  - reflexivity.
  - intros p [<-|[<-|[<-|[]]]]; reflexivity.
  - reflexivity.
  - reflexivity.
Defined.

(* ================================================================== *)
(** * Further properties *)
(* ================================================================== *)

(** ** What a parsed time can be *)

Lemma try_alts_inv (g : group) (k : string -> option (list string * string))
      (s : string) (res : list string) (r' : string) :
  try_alts g k s = Some (res, r') ->
  exists a m r ms,
    In a g /\ match_alt a s = Some (m, r) /\ k r = Some (ms, r')
    /\ res = m :: ms.
Proof.
  induction g as [|a g IH]; cbn [try_alts]; [discriminate|].
  destruct (match_alt a s) as [[m r]|] eqn:A.
  - destruct (k r) as [[ms r1]|] eqn:K.
    + intros [= <- <-]. exists a, m, r, ms. cbn. auto.
    + intros H. destruct (IH H) as [a' [m' [r0 [ms' [I X]]]]].
      exists a', m', r0, ms'. cbn. auto.
  - intros H. destruct (IH H) as [a' [m' [r0 [ms' [I X]]]]].
    exists a', m', r0, ms'. cbn. auto.
Qed.

Lemma match_alt_one (k1 : cclass) (s m r : string) :
  match_alt [k1] s = Some (m, r) ->
  exists c, s = String c r /\ m = String c "" /\ cc_match k1 c = true.
Proof.
  destruct s as [|c s]; cbn; [discriminate|].
  destruct (cc_match k1 c) eqn:E; [|discriminate].
  intros [= <- <-]. eauto.
Qed.

Lemma match_alt_two (k1 k2 : cclass) (s m r : string) :
  match_alt [k1; k2] s = Some (m, r) ->
  exists c1 c2,
    s = String c1 (String c2 r) /\ m = String c1 (String c2 "")
    /\ cc_match k1 c1 = true /\ cc_match k2 c2 = true.
Proof.
  destruct s as [|c1 [|c2 s]]; cbn.
  - discriminate.
  - destruct (cc_match k1 c1); discriminate.
  - destruct (cc_match k1 c1) eqn:E1; [|discriminate].
    destruct (cc_match k2 c2) eqn:E2; [|discriminate].
    intros [= <- <-]. exists c1, c2. auto.
Qed.

(** [int] of one or two characters, by their codes. *)
Lemma int_one (c : ascii) :
  Py.int (String c "")
  = if Py.is_digit c then (N_of_ascii c - 48)%N else 0%N.
Proof. unfold Py.int. cbn. now destruct (Py.is_digit c). Qed.

Lemma int_two (c1 c2 : ascii) :
  Py.int (String c1 (String c2 ""))
  = if Py.is_digit c1 then
      if Py.is_digit c2 then (10 * (N_of_ascii c1 - 48) + (N_of_ascii c2 - 48))%N
      else (N_of_ascii c1 - 48)%N
    else if Py.is_digit c2 then (N_of_ascii c2 - 48)%N else 0%N.
Proof.
  unfold Py.int. cbn.
  destruct (Py.is_digit c1), (Py.is_digit c2); cbn; reflexivity.
Qed.

(** What a character class says about the code of a character. *)
Lemma cc_match_code (k : cclass) (c : ascii) :
  cc_match k c = true ->
  match k with
  | Digit => (48 <= N_of_ascii c <= 57)%N
  | Range lo hi => (N_of_ascii lo <= N_of_ascii c <= N_of_ascii hi)%N
  | Lit l => N_of_ascii c = N_of_ascii l
  end.
Proof.
  destruct k as [|lo hi|l]; cbn; unfold Py.is_digit.
  - rewrite andb_true_iff, !N.leb_le. tauto.
  - rewrite andb_true_iff, !N.leb_le. tauto.
  - intros E. apply Ascii.eqb_eq in E. now subst.
Qed.

Lemma is_digit_code (c : ascii) :
  Py.is_digit c
  = ((48 <=? N_of_ascii c) && (N_of_ascii c <=? 57))%N.
Proof. reflexivity. Qed.

Ltac code_facts :=
  repeat match goal with
         | H : cc_match _ _ = true |- _ =>
             apply cc_match_code in H; cbn in H
         end.

Ltac solve_captured :=
  unfold captured; cbn [append String.length];
  split; [reflexivity|]; split; [lia|];
  rewrite ?int_one, ?int_two, ?is_digit_code;
  repeat match goal with
         | |- context [N_of_ascii ?c] =>
             let n := fresh "n" in
             generalize dependent (N_of_ascii c); intros n; intros
         end;
  repeat match goal with
         | |- context [(?a <=? ?b)%N] => destruct (N.leb_spec a b)
         end;
  cbn [andb]; lia.

Ltac by_alternatives :=
  intros I A; cbn in I;
  repeat (destruct I as [<-|I]; [|]);
  try contradiction;
  first [ apply match_alt_two in A; destruct A as [c1 [c2 [-> [-> [A1 A2]]]]]
        | apply match_alt_one in A; destruct A as [c1 [-> [-> A1]]] ];
  code_facts; solve_captured.

Lemma captured_re_y (a : alt) (s m r : string) :
  In a re_y -> match_alt a s = Some (m, r) -> captured 0 99 s m r.
Proof. by_alternatives. Qed.

Lemma captured_re_m (a : alt) (s m r : string) :
  In a re_m -> match_alt a s = Some (m, r) -> captured 1 12 s m r.
Proof. by_alternatives. Qed.

Lemma captured_re_d (a : alt) (s m r : string) :
  In a re_d -> match_alt a s = Some (m, r) -> captured 1 31 s m r.
Proof. by_alternatives. Qed.

Lemma captured_re_H (a : alt) (s m r : string) :
  In a re_H -> match_alt a s = Some (m, r) -> captured 0 23 s m r.
Proof. by_alternatives. Qed.

Lemma captured_re_M (a : alt) (s m r : string) :
  In a re_M -> match_alt a s = Some (m, r) -> captured 0 59 s m r.
Proof. by_alternatives. Qed.

Lemma captured_re_S (a : alt) (s m r : string) :
  In a re_S -> match_alt a s = Some (m, r) -> captured 0 61 s m r.
Proof. by_alternatives. Qed.


Lemma match_groups_cons (g : group) (gs : list group) (s : string) :
  match_groups (g :: gs) s = try_alts g (match_groups gs) s.
Proof. reflexivity. Qed.

(** A match of the whole pattern splits the text into six fields in
    their ranges, and a rest. *)
Lemma match_groups_fields (s : string) (found : list string) (rest : string) :
  match_groups TIME_FILE_REGEX s = Some (found, rest) ->
  exists fy fm fd fH fM fS,
    found = [fy; fm; fd; fH; fM; fS]
    /\ s = fy ++ fm ++ fd ++ fH ++ fM ++ fS ++ rest
    /\ String.length fy = 2
    /\ 1 <= String.length fm <= 2 /\ 1 <= String.length fd <= 2
    /\ 1 <= String.length fH <= 2 /\ 1 <= String.length fM <= 2
    /\ 1 <= String.length fS <= 2
    /\ (Py.int fy <= 99 /\ 1 <= Py.int fm <= 12 /\ 1 <= Py.int fd <= 31
        /\ Py.int fH <= 23 /\ Py.int fM <= 59 /\ Py.int fS <= 61)%N.
Proof.
  unfold TIME_FILE_REGEX. intros G.
  rewrite match_groups_cons in G.
  apply try_alts_inv in G as [ay [fy [r1 [ms1 [Iy [Ay [G ->]]]]]]].
  rewrite match_groups_cons in G.
  apply try_alts_inv in G as [am [fm [r2 [ms2 [Im [Am [G ->]]]]]]].
  rewrite match_groups_cons in G.
  apply try_alts_inv in G as [ad [fd [r3 [ms3 [Id [Ad [G ->]]]]]]].
  rewrite match_groups_cons in G.
  apply try_alts_inv in G as [aH [fH [r4 [ms4 [IH [AH [G ->]]]]]]].
  rewrite match_groups_cons in G.
  apply try_alts_inv in G as [aM [fM [r5 [ms5 [IM [AM [G ->]]]]]]].
  rewrite match_groups_cons in G.
  apply try_alts_inv in G as [aS [fS [r6 [ms6 [IS [AS [G ->]]]]]]].
  cbn in G. injection G as <- <-.
  destruct (captured_re_y _ _ _ _ Iy Ay) as [-> [Ly Vy]].
  destruct (captured_re_m _ _ _ _ Im Am) as [-> [Lm Vm]].
  destruct (captured_re_d _ _ _ _ Id Ad) as [-> [Ld Vd]].
  destruct (captured_re_H _ _ _ _ IH AH) as [-> [LH VH]].
  destruct (captured_re_M _ _ _ _ IM AM) as [-> [LM VM]].
  destruct (captured_re_S _ _ _ _ IS AS) as [-> [LS VS]].
  assert (Ly2 : String.length fy = 2).
  { cbn in Iy. destruct Iy as [<-|[]].
    apply match_alt_two in Ay as [c1 [c2 [_ [-> _]]]]. reflexivity. }
  exists fy, fm, fd, fH, fM, fS. repeat split; try lia.
Qed.

(** A text that parses is seven to twelve characters long, and the
    time read is a valid datetime of the years 1969..2068, without
    microseconds. *)
Lemma strptime_ok (s : string) (t : datetime) :
  strptime s = Ok t ->
  valid t = true /\ (1969 <= year t <= 2068)%N /\ microsecond t = 0%N
  /\ 7 <= String.length s <= 12.
Proof.
  unfold strptime.
  destruct (match_groups TIME_FILE_REGEX s) as [[found rest]|] eqn:G;
    [|discriminate].
  destruct (match_groups_fields _ _ _ G)
    as [fy [fm [fd [fH [fM [fS [-> [-> [Ly [Lm [Ld [LH [LM [LS V]]]]]]]]]]]]]].
  destruct rest as [|c rest]; cbn [Py.truthy]; [|discriminate].
  cbn [map].
  destruct (N.ltb_spec (days_in_month (pivot_year (Py.int fy)) (Py.int fm))
                       (Py.int fd)) as [|Hd]; [discriminate|].
  destruct (N.ltb_spec 59 (Py.int fS)) as [|Hs]; [discriminate|].
  intros [= <-].
  assert (Y : (1969 <= pivot_year (Py.int fy) <= 2068)%N).
  { unfold pivot_year. destruct (N.leb_spec (Py.int fy) 68); lia. }
  split; [|split; [|split]].
  - unfold valid. cbn [year month day hour minute second microsecond].
    repeat (apply andb_true_iff; split);
      first [apply N.leb_le | apply N.ltb_lt]; lia.
  - exact Y.
  - reflexivity.
  - rewrite !length_append. cbn [String.length]. lia.
Qed.


(** X1: what [Backup.time] returns is a valid datetime of the years
    1969..2068 without microseconds, and the segment of the stem it
    was read from is seven to twelve characters long. *)
Theorem backup_time_in_window (b : Backup.t) (t : datetime) :
  Backup.time b = Ok t ->
  valid t = true /\ (1969 <= year t <= 2068)%N /\ microsecond t = 0%N
  /\ 7 <= String.length (fst (fst (Py.partition "-" (Pathlib.stem (Backup.path b)))))
     <= 12.
Proof. unfold Backup.time. apply strptime_ok. Qed.

Lemma backup_time_in_window_witness :
  Backup.time (Backup.mk ["files"; "2511111-x.sl2"])
  = Ok (mkDatetime 2025 1 1 1 1 1 0)
  /\ valid (mkDatetime 2025 1 1 1 1 1 0) = true.
Proof.
  split; [reflexivity|].
  exact (proj1 (backup_time_in_window (Backup.mk ["files"; "2511111-x.sl2"])
                  (mkDatetime 2025 1 1 1 1 1 0) eq_refl)).
Defined.

(** ** Creating a backup for any year *)

Lemma pivot_mod_4 (y : N) :
  ((pivot_year (y mod 100)) mod 4 = y mod 4)%N.
Proof.
  pose proof (N.div_mod y 100 ltac:(discriminate)) as E.
  pose proof (N.mod_lt y 100 ltac:(discriminate)) as L.
  remember (y / 100)%N as q. remember (y mod 100)%N as yy.
  clear Heqq Heqyy. unfold pivot_year. rewrite E.
  replace (100 * q + yy)%N with (yy + (25 * q) * 4)%N by lia.
  rewrite N.Div0.mod_add.
  destruct (N.leb_spec yy 68).
  - replace (yy + 2000)%N with (yy + 500 * 4)%N by lia.
    now rewrite N.Div0.mod_add.
  - replace (yy + 1900)%N with (yy + 475 * 4)%N by lia.
    now rewrite N.Div0.mod_add.
Qed.

Lemma pivot_mod_100 (yy : N) :
  (yy < 100)%N -> ((pivot_year yy) mod 100 = yy)%N.
Proof.
  intros L. unfold pivot_year. destruct (N.leb_spec yy 68).
  - replace (yy + 2000)%N with (yy + 20 * 100)%N by lia.
    rewrite N.Div0.mod_add. now apply N.mod_small.
  - replace (yy + 1900)%N with (yy + 19 * 100)%N by lia.
    rewrite N.Div0.mod_add. now apply N.mod_small.
Qed.

(** A leap year stays a leap year when its last two digits are read
    back: 2000, the only year of the window that ends in 00, is one. *)
Lemma leap_pivot (y : N) :
  is_leap y = true -> is_leap (pivot_year (y mod 100)) = true.
Proof.
  pose proof (N.mod_lt y 100 ltac:(discriminate)) as L.
  unfold is_leap at 2.
  rewrite pivot_mod_4, pivot_mod_100 by assumption.
  unfold is_leap. intros H.
  apply andb_true_iff in H as [H4 H100]. rewrite H4. cbn [andb].
  destruct (N.eqb_spec (y mod 100) 0) as [Z|NZ]; [|reflexivity].
  cbn [negb orb]. rewrite Z. reflexivity.
Qed.

Lemma days_in_month_pivot (y m : N) :
  (days_in_month y m <= days_in_month (pivot_year (y mod 100)) m)%N.
Proof.
  unfold days_in_month.
  destruct (m =? 2)%N; [|lia].
  destruct (is_leap y) eqn:E.
  - now rewrite (leap_pivot _ E).
  - destruct (is_leap (pivot_year (y mod 100))); lia.
Qed.

(** Reading back what [strftime] wrote never fails, whatever the
    year. *)
Lemma strptime_strftime_any (t : datetime) :
  valid t = true -> strptime (strftime t) = Ok (read_back t).
Proof.
  intros V. unfold strptime.
  rewrite (match_strftime t V).
  apply valid_bounds in V.
  pose proof (days_in_month_le (year t) (month t)).
  pose proof (days_in_month_pivot (year t) (month t)).
  pose proof (N.mod_lt (year t) 100 ltac:(discriminate)).
  cbn [Py.truthy map].
  rewrite !int_two_digits by lia.
  destruct (N.ltb_spec (days_in_month (pivot_year (year t mod 100)) (month t))
                       (day t)); [lia|].
  destruct (N.ltb_spec 59 (second t)); [lia|].
  reflexivity.
Qed.




(** ** What the enumeration yields, and what [find] returns *)

Lemma backups_from_prefix (w : world) (files : list Path) :
  (exists rest,
      files = (map Backup.path (fst (BackupDir.backups_from w files)) ++ rest)%list)
  /\ forall b, In b (fst (BackupDir.backups_from w files)) ->
               not_a_file w (Backup.path b) = false
               /\ exists t, Backup.time b = Ok t /\ valid t = true.
Proof.
  induction files as [|p files [[rest E] IH]]; cbn [BackupDir.backups_from].
  - split; [exists []; reflexivity | intros b []].
  - destruct (Backup.init w p) as [b|e] eqn:I.
    + destruct (init_inv _ _ _ I) as [-> [NF P]].
      destruct (BackupDir.backups_from w files) as [bs e]. cbn [fst] in *.
      split.
      * exists rest. cbn. now rewrite <- E.
      * intros b [<-|Hb]; [|now apply IH].
        split; [assumption|].
        destruct (parses_true _ P) as [t T]. exists t. split; [assumption|].
        apply (strptime_ok _ _ T).
    + split.
      * exists (p :: files). now destruct e.
      * intros b Hb. destruct e; destruct Hb.
Qed.


(** X3: the backups the generator yields are those of a prefix of the
    entries the directory reports, in the same order; none of them is
    an existing non-file and each has a valid time. *)
Theorem backups_yield_prefix (w : world) (self : BackupDir.t) :
  (exists rest,
      glob w (BackupDir.path self) SAVE_FILE_SUFFIX
      = (map Backup.path (fst (BackupDir.backups w self)) ++ rest)%list)
  /\ forall b, In b (fst (BackupDir.backups w self)) ->
               not_a_file w (Backup.path b) = false
               /\ exists t, Backup.time b = Ok t /\ valid t = true.
Proof. apply backups_from_prefix. Qed.

(** What the variables of the loop of [find] can hold after the
    backups [pre] have been seen. *)
Lemma find_loop_sound (selector : string) (post pre : list Backup.t)
      (v : BackupDir.find_vars) :
  ((forall b, BackupDir.backup v = Some b -> In b pre)
   /\ (forall b, BackupDir.ind_match v = Some b ->
                 exists i, nth_error pre i = Some b /\ Py.str_int (S i) = selector)
   /\ (forall b, BackupDir.str_match v = Some b ->
                 In b pre /\ Backup.str b = selector)) ->
  let v' := BackupDir.find_loop selector post (S (List.length pre)) v in
  (forall b, BackupDir.backup v' = Some b -> In b (pre ++ post)%list)
  /\ (forall b, BackupDir.ind_match v' = Some b ->
                exists i, nth_error (pre ++ post)%list i = Some b
                          /\ Py.str_int (S i) = selector)
  /\ (forall b, BackupDir.str_match v' = Some b ->
                In b (pre ++ post)%list /\ Backup.str b = selector).
Proof.
  revert pre v. induction post as [|c post IH]; intros pre v Inv.
  - cbn. now rewrite app_nil_r.
  - cbn [BackupDir.find_loop].
    replace (pre ++ c :: post)%list with ((pre ++ [c]) ++ post)%list
      by (now rewrite <- app_assoc).
    replace (S (S (List.length pre))) with (S (List.length (pre ++ [c])%list))
      by (rewrite length_app; cbn; lia).
    apply IH. destruct Inv as [Ib [Ii Is]].
    cbn [BackupDir.find_body BackupDir.backup BackupDir.ind_match
         BackupDir.str_match].
    split; [|split].
    + intros b [= <-]. apply in_or_app. right. now left.
    + intros b.
      destruct (String.eqb_spec (Py.str_int (S (List.length pre))) selector) as [E|N].
      * intros [= <-]. exists (List.length pre). split; [|assumption].
        rewrite nth_error_app2 by lia. now rewrite Nat.sub_diag.
      * intros H. destruct (Ii b H) as [i [Hn He]]. exists i. split; [|assumption].
        rewrite nth_error_app1; [assumption|].
        apply nth_error_Some. congruence.
    + intros b. destruct (String.eqb_spec (Backup.str c) selector) as [E|N].
      * intros [= <-]. split; [|assumption]. apply in_or_app. right. now left.
      * intros H. destruct (Is b H) as [Hin He]. split; [|assumption].
        apply in_or_app. now left.
Qed.

(** X4: a backup [find] returns was yielded by the enumeration, which
    ended without an error, and it answers the selector: the selector
    is empty, or it renders the 1-based index of the backup, or it is
    the backup's name. *)
Theorem find_sound (w : world) (self : BackupDir.t) (selector : string)
        (b : Backup.t) :
  BackupDir.find w self selector = Ok b ->
  enumerates w self (fst (BackupDir.backups w self))
  /\ In b (fst (BackupDir.backups w self))
  /\ (selector = ""
      \/ (exists i, nth_error (fst (BackupDir.backups w self)) i = Some b
                    /\ Py.str_int (S i) = selector)
      \/ Backup.str b = selector).
Proof.
  unfold BackupDir.find, enumerates.
  destruct (BackupDir.backups w self) as [bs ending] eqn:B. cbn [fst].
  destruct ending as [e|]; [discriminate|].
  pose proof (find_loop_sound selector bs [] (BackupDir.mkVars None None None)) as S.
  cbn [List.length app] in S.
  destruct S as [Sb [Si Ss]]; [repeat split; discriminate|].
  set (v := BackupDir.find_loop selector bs 1 _) in *.
  intros F. split; [reflexivity|]. revert F.
  destruct (Py.truthy selector) eqn:T; cbn [negb].
  - destruct (BackupDir.ind_match v) as [bi|] eqn:I.
    + intros [= <-]. destruct (Si _ eq_refl) as [i [Hn He]].
      split; [now apply (nth_error_In _ i)|]. right. left. eauto.
    + destruct (BackupDir.str_match v) as [bn|] eqn:N; [|discriminate].
      intros [= <-]. destruct (Ss _ eq_refl). auto.
  - destruct (BackupDir.backup v) as [bl|] eqn:L.
    + intros [= <-]. split; [now apply Sb|]. left. now destruct selector.
    + discriminate.
Qed.

Lemma find_sound_witness :
  In (Backup.mk ["files"; "250103010101-gamma.sl2"])
     (fst (BackupDir.backups w_three main_backup_dir))
  /\ Backup.str (Backup.mk ["files"; "250103010101-gamma.sl2"]) = "gamma".
Proof.
  split; [|reflexivity].
  exact (proj1 (proj2 (find_sound w_three main_backup_dir "gamma"
                         (Backup.mk ["files"; "250103010101-gamma.sl2"]) eq_refl))).
Defined.

Lemma find_loop_str_some (selector : string) (bs : list Backup.t)
      (k : nat) (v : BackupDir.find_vars) :
  BackupDir.str_match v <> None \/ (exists b, In b bs /\ Backup.str b = selector) ->
  BackupDir.str_match (BackupDir.find_loop selector bs k v) <> None.
Proof.
  revert k v. induction bs as [|c bs IH]; intros k v H; cbn [BackupDir.find_loop].
  - destruct H as [H|[b [[] _]]]. exact H.
  - apply IH. cbn [BackupDir.find_body BackupDir.str_match].
    destruct (String.eqb_spec (Backup.str c) selector) as [E|N].
    + left. discriminate.
    + destruct H as [H|[b [[<-|Hin] Hs]]]; [now left | contradiction | right; eauto].
Qed.

Lemma find_loop_ind_some (selector : string) (bs : list Backup.t)
      (k : nat) (v : BackupDir.find_vars) :
  BackupDir.ind_match v <> None
  \/ (exists i, i < List.length bs /\ Py.str_int (k + i) = selector) ->
  BackupDir.ind_match (BackupDir.find_loop selector bs k v) <> None.
Proof.
  revert k v. induction bs as [|c bs IH]; intros k v H; cbn [BackupDir.find_loop].
  - destruct H as [H|[i [Hi _]]]; [exact H | cbn in Hi; lia].
  - apply IH. cbn [BackupDir.find_body BackupDir.ind_match].
    destruct (String.eqb_spec (Py.str_int k) selector) as [E|N].
    + left. discriminate.
    + destruct H as [H|[i [Hi Hs]]]; [now left|].
      destruct i as [|i]; [rewrite Nat.add_0_r in Hs; contradiction|].
      right. exists i. split; [cbn in Hi; lia|].
      now rewrite Nat.add_succ_comm.
Qed.

(** X5: with a selector that is not empty, [find] raises
    [BackupNotFoundError] exactly when no 1-based index of the
    enumerated backups renders as the selector and none of them has
    the selector as its name.  A selector with a leading zero or a
    sign is therefore never an index. *)
Theorem find_not_found_iff (w : world) (self : BackupDir.t) (selector : string)
        (bs : list Backup.t) :
  selector <> "" ->
  enumerates w self bs ->
  (BackupDir.find w self selector = Raise (BackupNotFoundError selector)
   <-> (forall i, i < List.length bs -> Py.str_int (S i) <> selector)
       /\ (forall b, In b bs -> Backup.str b <> selector)).
Proof.
  intros Hs B. unfold enumerates in B. unfold BackupDir.find. rewrite B.
  rewrite (truthy_nonempty _ Hs). cbn [negb].
  set (v := BackupDir.find_loop selector bs 1 _).
  split.
  - intros H. split.
    + intros i Hi E.
      apply (find_loop_ind_some selector bs 1 (BackupDir.mkVars None None None)).
      * right. exists i. auto.
      * fold v. destruct (BackupDir.ind_match v); [discriminate | reflexivity].
    + intros b Hin E.
      apply (find_loop_str_some selector bs 1 (BackupDir.mkVars None None None)).
      * right. eauto.
      * fold v. destruct (BackupDir.ind_match v); [discriminate|].
        destruct (BackupDir.str_match v); [discriminate | reflexivity].
  - intros [Hi Hn]. subst v.
    rewrite (find_loop_ind_keep selector bs 1 _ Hi).
    rewrite (find_loop_str_keep selector bs 1 _ Hn).
    reflexivity.
Qed.

Lemma find_not_found_iff_witness :
  BackupDir.find w_three main_backup_dir "01"
  = Raise (BackupNotFoundError "01").
Proof.
  apply (proj2 (find_not_found_iff w_three main_backup_dir "01"
                  [Backup.mk ["files"; "250101010101-alpha.sl2"];
                   Backup.mk ["files"; "250102010101.sl2"];
                   Backup.mk ["files"; "250103010101-gamma.sl2"]]
                  ltac:(discriminate) eq_refl)).
  split.
  - intros i Hi. cbn in Hi. destruct i as [|[|[|i]]]; [discriminate ..|lia].
  - intros b [<-|[<-|[<-|[]]]]; discriminate.
Defined.


(** ** The table of [list] *)

Lemma length_spaces (n : nat) : String.length (spaces n) = n.
Proof. induction n as [|n IH]; cbn; [reflexivity | now rewrite IH]. Qed.

Lemma length_substring_0 (n : nat) (s : string) :
  String.length (substring 0 n s) = Nat.min n (String.length s).
Proof.
  revert s. induction n as [|n IH]; intros s.
  - now destruct s.
  - destruct s as [|c s]; cbn; [reflexivity | now rewrite IH].
Qed.

Lemma length_format_field (a : align) (n : nat) (s : string) :
  String.length (format_field a n s) = n.
Proof.
  unfold format_field.
  pose proof (length_substring_0 n s) as L.
  destruct a; rewrite ?length_append, ?length_spaces, ?L;
    pose proof (Nat.div_mod_eq (n - Nat.min n (String.length s)) 2); lia.
Qed.

(** X6: every line [list] builds with its format string is 59
    characters wide, whatever it is given: a name of more than 32
    characters is cut, a shorter one is padded. *)
Theorem fstring_width (a b c : string) : String.length (fstring a b c) = 59.
Proof.
  unfold fstring. rewrite !length_append, !length_format_field. reflexivity.
Qed.

Lemma rows_ok (bs : list Backup.t) (k : nat) :
  (forall b, In b bs -> exists t, Backup.time b = Ok t) ->
  exists rs,
    Handlers.rows k bs = Ok rs
    /\ List.length rs = List.length bs
    /\ forall i b, nth_error bs i = Some b ->
         exists t, Backup.time b = Ok t
                   /\ nth_error rs i
                      = Some (fstring (Py.str_int (k + i) ++ ".")
                                      (strftime_display t) (Backup.name b)).
Proof.
  revert k. induction bs as [|c bs IH]; intros k H.
  - exists []. repeat split. intros [|i] b; discriminate.
  - destruct (H c (or_introl eq_refl)) as [t T].
    destruct (IH (S k)) as [rs [R [L N]]]; [intros; apply H; now right|].
    cbn [Handlers.rows]. rewrite T. cbn [bind_result]. rewrite R. cbn [bind_result].
    eexists. split; [reflexivity|]. split; [cbn; now rewrite L|].
    intros [|i] b; cbn [nth_error].
    + intros [= <-]. exists t. now rewrite Nat.add_0_r.
    + intros Hn. destruct (N i b Hn) as [t' [T' R']]. exists t'.
      now rewrite <- Nat.add_succ_comm.
Qed.

Lemma yielded_have_time (w : world) (self : BackupDir.t) (b : Backup.t) :
  In b (fst (BackupDir.backups w self)) -> exists t, Backup.time b = Ok t.
Proof.
  intros H.
  destruct (proj2 (backups_from_prefix w (glob w (BackupDir.path self) SAVE_FILE_SUFFIX))
              b H) as [_ [t [T _]]].
  eauto.
Qed.

(** The first field of a row up to the 99th: the index in full,
    followed by a dot and aligned to the right of three columns. *)
Lemma index_field (n : nat) :
  n < 100 ->
  format_field AlignRight 3 (Py.str_int n ++ ".")
  = spaces (2 - String.length (Py.str_int n)) ++ Py.str_int n ++ ".".
Proof.
  intros H.
  assert (A : forallb (fun k => String.eqb
                         (format_field AlignRight 3 (Py.str_int k ++ "."))
                         (spaces (2 - String.length (Py.str_int k))
                          ++ Py.str_int k ++ "."))
                      (seq 0 100) = true) by (vm_compute; reflexivity).
  rewrite forallb_forall in A. apply String.eqb_eq. apply A.
  apply in_seq. lia.
Qed.

(** X7: when the enumeration ends without an error [list] does not
    fail and changes nothing.  Without backups it answers
    [No backups found]; otherwise it renders the heading, a rule and
    one row per backup in enumeration order.  The row of the backup at
    the 1-based index [i] is formatted from [i] followed by a dot, the
    time and the name, and [i] rendered in decimal is a selector with
    which [find] returns that backup.  Up to the 99th row the row
    starts with that index in full, followed by a dot. *)
Theorem list_table (self : CommandHandler.t) (w : world) (bs : list Backup.t) :
  enumerates w (CommandHandler.backup_dir self) bs ->
  exists text,
    Handlers.list self [] w = (Ok (text, self), w)
    /\ (bs = [] -> text = "No backups found")
    /\ (bs <> [] ->
        exists rows,
          text = Py.join newline
                   (fstring "Num" "Creation time" "Name"
                    :: fstring (repeat_char "_" 100) (repeat_char "_" 100)
                               (repeat_char "_" 100)
                    :: rows)
          /\ List.length rows = List.length bs
          /\ forall i b, nth_error bs i = Some b ->
               (exists t, Backup.time b = Ok t
                          /\ nth_error rows i
                             = Some (fstring (Py.str_int (S i) ++ ".")
                                             (strftime_display t) (Backup.name b)))
               /\ BackupDir.find w (CommandHandler.backup_dir self)
                                 (Py.str_int (S i)) = Ok b
               /\ (S i < 100 ->
                   forall row, nth_error rows i = Some row ->
                   exists rest,
                     row = spaces (2 - String.length (Py.str_int (S i)))
                           ++ Py.str_int (S i) ++ "." ++ rest)).
Proof.
  intros B. unfold enumerates in B.
  assert (T : forall b, In b bs -> exists t, Backup.time b = Ok t).
  { intros b Hb. apply (yielded_have_time w (CommandHandler.backup_dir self)).
    now rewrite B. }
  destruct (rows_ok bs 1 T) as [rs [R [L N]]].
  unfold Handlers.list, lift. rewrite B.
  destruct bs as [|c bs].
  - exists "No backups found". repeat split. intros X. now contradiction X.
  - rewrite R. cbn [bind_result]. eexists. split; [reflexivity|].
    split; [discriminate|]. intros _. exists rs. split; [reflexivity|].
    split; [assumption|]. intros i b Hn. split; [exact (N i b Hn)|].
    split; cycle 1.
    { intros Lt row Hr. destruct (N i b Hn) as [t [_ Hrow]].
      rewrite Hrow in Hr. injection Hr as <-.
      unfold fstring. rewrite (index_field (S i) Lt).
      eexists. rewrite !append_assoc. reflexivity. }
    unfold BackupDir.find. rewrite B.
    assert (Tr : Py.truthy (Py.str_int (S i)) = true).
    { apply truthy_nonempty. intros E. unfold Py.str_int in E.
      destruct (Nat.to_uint (S i)) eqn:U; cbn in E; try discriminate.
      pose proof (DecimalNat.Unsigned.of_to (S i)) as O. rewrite U in O.
      discriminate. }
    rewrite Tr. cbn [negb].
    now rewrite (find_loop_ind_hit (Py.str_int (S i)) (c :: bs) 1 i _ b Hn eq_refl).
Qed.

Lemma list_table_witness :
  (exists text,
      Handlers.list cmd_handler [] w_three = (Ok (text, cmd_handler), w_three))
  /\ BackupDir.find w_three main_backup_dir "2"
     = Ok (Backup.mk ["files"; "250102010101.sl2"]).
Proof.
  destruct (list_table cmd_handler w_three
              [Backup.mk ["files"; "250101010101-alpha.sl2"];
               Backup.mk ["files"; "250102010101.sl2"];
               Backup.mk ["files"; "250103010101-gamma.sl2"]] eq_refl)
    as [text [E [_ R]]].
  split; [exists text; exact E|].
  destruct (R ltac:(discriminate)) as [rows [_ [_ N]]].
  exact (proj1 (proj2 (N 1 (Backup.mk ["files"; "250102010101.sl2"]) eq_refl))).
Defined.


(** ** What [load], [delete] and [save] do to the files *)





(** The selector a handler with one optional argument works on. *)
Lemma with_selector_ok (q : string) (args : list string)
      (k : string -> M (string * CommandHandler.t)) :
  List.length args <= 1 ->
  Handlers.with_selector q args k = k (hd "" args).
Proof.
  destruct args as [|s [|s' args]]; cbn; try reflexivity. lia.
Qed.

Lemma execute_alias (self : CommandHandler.t) (args : list string) :
  execute self ("list" :: args) = Handlers.list self args
  /\ execute self ("ls" :: args) = Handlers.list self args
  /\ execute self ("save" :: args) = Handlers.save self args
  /\ execute self ("load" :: args) = Handlers.load self args
  /\ execute self ("delete" :: args) = Handlers.delete self args
  /\ execute self ("del" :: args) = Handlers.delete self args
  /\ execute self ("quit" :: args) = Handlers.quit self args
  /\ execute self ("q" :: args) = Handlers.quit self args.
Proof. repeat split. Qed.

(** X8: [load], [delete] and [del] with a selector [find] rejects
    touch no file: the safe boundary answers with the description of
    the error and leaves the world and the handler as they were. *)
Theorem failed_selection_changes_nothing (self : CommandHandler.t)
        (cmd : string) (args : list string) (w : world) (e : exc) :
  In cmd ["load"; "delete"; "del"] ->
  List.length args <= 1 ->
  BackupDir.find w (CommandHandler.backup_dir self) (hd "" args) = Raise e ->
  execute_safe self (cmd :: args) w = (Ok (describe e, self), w).
Proof.
  intros C L F.
  assert (X : is_Exception e = true) by (destruct e; reflexivity).
  destruct (execute_alias self args) as [_ [_ [_ [El [Ed [Ed' _]]]]]].
  destruct C as [<-|[<-|[<-|[]]]]; unfold execute_safe;
    rewrite ?El, ?Ed, ?Ed';
    unfold Handlers.load, Handlers.delete;
    rewrite with_selector_ok by assumption;
    unfold bind, lift; rewrite F, X; reflexivity.
Qed.

Lemma failed_selection_changes_nothing_witness :
  execute_safe cmd_handler ["del"; "9"] w_three
  = (Ok ("BackupNotFoundError: 9", cmd_handler), w_three).
Proof.
  apply (failed_selection_changes_nothing cmd_handler "del" ["9"] w_three
           (BackupNotFoundError "9")).
  - right. right. now left.
  - cbn. lia.
  - reflexivity.
Defined.


Lemma assoc_in_names {A} (f : string) (l : list (string * A)) :
  assoc f l <> None <-> In f (map fst l).
Proof.
  induction l as [|[f' n] l IH]; cbn.
  - split; [congruence | tauto].
  - destruct (String.eqb_spec f f') as [->|N].
    + split; [auto | discriminate].
    + rewrite IH. split; [auto | intros [E|H]; [congruence | assumption]].
Qed.

Lemma assoc_remove_other (f f' : string) (l : list (string * node)) :
  f' <> f -> assoc f' (remove_entry f l) = assoc f' l.
Proof.
  intros N. induction l as [|[g n] l IH]; cbn; [reflexivity|].
  destruct (String.eqb_spec f g) as [<-|Ng]; cbn.
  - destruct (String.eqb_spec f' f); [contradiction | reflexivity].
  - now rewrite IH.
Qed.

Lemma assoc_remove_same (f : string) (l : list (string * node)) :
  NoDup (map fst l) -> assoc f (remove_entry f l) = None.
Proof.
  induction l as [|[g n] l IH]; cbn; [reflexivity|].
  intros ND. inversion ND as [|x xs Hx Hxs]; subst.
  destruct (String.eqb_spec f g) as [<-|Ng]; cbn.
  - destruct (assoc f l) eqn:A; [|reflexivity].
    exfalso. apply Hx. apply assoc_in_names. congruence.
  - destruct (String.eqb_spec f g); [contradiction|]. now apply IH.
Qed.

Lemma find_ok_yielded (w : world) (self : BackupDir.t) (selector : string)
      (b : Backup.t) :
  BackupDir.find w self selector = Ok b ->
  In b (fst (BackupDir.backups w self)).
Proof.
  unfold BackupDir.find.
  destruct (BackupDir.backups w self) as [bs ending] eqn:B. cbn [fst].
  destruct ending as [e|]; [discriminate|].
  pose proof (find_loop_sound selector bs [] (BackupDir.mkVars None None None)) as S.
  cbn [List.length app] in S.
  destruct S as [Sb [Si Ss]]; [repeat split; discriminate|].
  set (v := BackupDir.find_loop selector bs 1 _) in *.
  destruct (negb (Py.truthy selector)), (Py.truthy selector),
    (BackupDir.backup v) as [bl|] eqn:L, (BackupDir.ind_match v) as [bi|] eqn:I,
    (BackupDir.str_match v) as [bn|] eqn:N;
    try discriminate; intros [= <-];
    first [ now apply Sb
          | destruct (Si _ eq_refl) as [i [Hn _]]; now apply (nth_error_In _ i)
          | now apply Ss ].
Qed.

(** A backup the main directory yields is a listed child of it. *)
Lemma yielded_is_listed (w : world) (b : Backup.t) :
  In b (fst (BackupDir.backups w main_backup_dir)) ->
  exists f, Backup.path b = (gen_backup_dir_path ++ [f])%list
            /\ assoc f (listing w) <> None.
Proof.
  intros H.
  destruct (proj1 (backups_from_prefix w
                     (glob w (BackupDir.path main_backup_dir) SAVE_FILE_SUFFIX)))
    as [rest E].
  assert (G : In (Backup.path b) (glob w gen_backup_dir_path SAVE_FILE_SUFFIX)).
  { change (BackupDir.path main_backup_dir) with gen_backup_dir_path in E.
    rewrite E. apply in_or_app. left. now apply in_map. }
  apply glob_In in G as [f [n [Hin [_ P]]]].
  exists f. split; [assumption|].
  apply assoc_in_names. apply in_map_iff. exists (f, n). auto.
Qed.

Lemma delete_file_child (w w' : world) (f : string) :
  delete_file (gen_backup_dir_path ++ [f])%list w = (Ok tt, w') ->
  listing w' = remove_entry f (listing w) /\ outside w' = outside w.
Proof.
  unfold delete_file. intros H.
  apply bind_ok in H as [[] [w0 [P H]]]. apply lift_ok in P as [_ ->].
  apply bind_ok in H as [[] [w1 [F H]]].
  destruct (next_fault_same _ _ F) as [L [O _]].
  change (child_of gen_backup_dir_path (gen_backup_dir_path ++ [f])%list)
    with (Some f) in H.
  cbv beta iota in H.
  destruct (os_stat w1 (gen_backup_dir_path ++ [f])%list) as [[d|]|e];
    try discriminate.
  injection H as <-. cbn [listing outside]. now rewrite L, O.
Qed.

(** X9: when [delete] (or [del]) succeeds in a directory without
    duplicate names, the file of the backup [find] selected is gone
    from the listing, every other entry and the files outside the
    directory are as before, and the backup is no longer enumerated.
    Without a selector the backup deleted is the last one
    enumerated. *)
Theorem delete_removes_selected (self self' : CommandHandler.t) (cmd : string)
        (args : list string) (w w' : world) (msg : string) :
  CommandHandler.backup_dir self = main_backup_dir ->
  NoDup (map fst (listing w)) ->
  In cmd ["delete"; "del"] ->
  List.length args <= 1 ->
  execute self (cmd :: args) w = (Ok (msg, self'), w') ->
  exists b f,
    BackupDir.find w main_backup_dir (hd "" args) = Ok b
    /\ Backup.path b = (gen_backup_dir_path ++ [f])%list
    /\ msg = "Deleted backup " ++ Backup.name b
    /\ listing w' = remove_entry f (listing w)
    /\ assoc f (listing w') = None
    /\ (forall f', f' <> f -> assoc f' (listing w') = assoc f' (listing w))
    /\ outside w' = outside w
    /\ ~ In b (fst (BackupDir.backups w' main_backup_dir)).
Proof.
  intros D ND C L E.
  assert (H : Handlers.delete self args w = (Ok (msg, self'), w')).
  { destruct (execute_alias self args) as [_ [_ [_ [_ [Ed [Ed' _]]]]]].
    destruct C as [<-|[<-|[]]]; [now rewrite <- Ed | now rewrite <- Ed']. }
  unfold Handlers.delete in H. rewrite with_selector_ok in H by assumption.
  rewrite D in H.
  apply bind_ok in H as [b [w1 [F H]]].
  unfold lift in F.
  destruct (BackupDir.find w main_backup_dir (hd "" args)) as [b0|e] eqn:Fd;
    [|discriminate].
  injection F as -> <-.
  apply bind_ok in H as [[] [w2 [Dl H]]].
  injection H as <- <- <-.
  destruct (yielded_is_listed w b (find_ok_yielded _ _ _ _ Fd)) as [f [P A]].
  unfold Backup.delete in Dl. rewrite P in Dl.
  destruct (delete_file_child _ _ _ Dl) as [Lw Ow].
  assert (Z : assoc f (listing w2) = None)
    by (rewrite Lw; now apply assoc_remove_same).
  exists b, f. repeat split; try assumption; try reflexivity.
  - intros f' N. rewrite Lw. now apply assoc_remove_other.
  - intros Y. destruct (yielded_is_listed w2 b Y) as [f2 [P2 A2]].
    rewrite P in P2. apply app_inj_tail in P2 as [_ <-]. contradiction.
Qed.

Lemma delete_removes_selected_witness :
  exists b f,
    BackupDir.find w_three main_backup_dir (hd "" ["2"]) = Ok b
    /\ Backup.path b = (gen_backup_dir_path ++ [f])%list
    /\ "Deleted backup " = "Deleted backup " ++ Backup.name b
    /\ listing (world_of [("250101010101-alpha.sl2", KFile "A");
                          ("250103010101-gamma.sl2", KFile "C")] 1)
       = remove_entry f (listing w_three).
Proof.
  destruct (delete_removes_selected cmd_handler cmd_handler "del" ["2"] w_three
              (world_of [("250101010101-alpha.sl2", KFile "A");
                         ("250103010101-gamma.sl2", KFile "C")] 1)
              "Deleted backup ")
    as [b [f [F [P [M [L _]]]]]].
  - reflexivity.
  - cbn. repeat constructor; cbn; intuition discriminate.
  - right. now left.
  - cbn. lia.
  - reflexivity.
  - exists b, f. auto.
Defined.


Lemma assoc_path_set (p : Path) (data : string) (l : list (Path * string)) :
  assoc_path p (set_path p data l) = Some data.
Proof.
  assert (R : Path_eqb p p = true)
    by (unfold Path_eqb; destruct (list_eq_dec string_dec p p); congruence).
  induction l as [|[q d] l IH]; cbn.
  - now rewrite R.
  - destruct (Path_eqb p q) eqn:E; cbn; rewrite ?E; [reflexivity | exact IH].
Qed.

Lemma Path_eqb_refl (p : Path) : Path_eqb p p = true.
Proof. unfold Path_eqb. destruct (list_eq_dec string_dec p p); congruence. Qed.

Lemma Path_eqb_eq (p q : Path) : Path_eqb p q = true -> p = q.
Proof. unfold Path_eqb. destruct (list_eq_dec string_dec p q); congruence. Qed.

(** Every backup the generator yields lies directly in the backup
    directory. *)
Lemma yielded_child (w : world) (self : BackupDir.t) (b : Backup.t) :
  In b (fst (BackupDir.backups w self)) ->
  exists f, Backup.path b = (gen_backup_dir_path ++ [f])%list.
Proof.
  intros H.
  destruct (proj1 (backups_from_prefix w
                     (glob w (BackupDir.path self) SAVE_FILE_SUFFIX)))
    as [rest E].
  assert (G : In (Backup.path b) (glob w (BackupDir.path self) SAVE_FILE_SUFFIX)).
  { rewrite E. apply in_or_app. left. now apply in_map. }
  unfold glob in G.
  destruct (Path_eqb (BackupDir.path self) gen_backup_dir_path) eqn:Q;
    [|destruct G].
  apply Path_eqb_eq in Q. rewrite Q in G.
  apply in_map_iff in G as [[f n] [<- _]]. now exists f.
Qed.

(** Writing to a path that is no child of the backup directory. *)
Lemma write_file_outside (w w' : world) (p : Path) (data : string) :
  child_of gen_backup_dir_path p = None ->
  write_file p data w = (Ok tt, w') ->
  listing w' = listing w /\ outside w' = set_path p data (outside w).
Proof.
  intros C. unfold write_file.
  assert (P : put p data w
              = mkWorld (listing w) (set_path p data (outside w))
                        (clock w) (slot w) (faults w))
    by (unfold put; now rewrite C).
  rewrite P. split_matches; try discriminate; intros [= <-]; auto.
Qed.

(** X10: when [load] succeeds and the save file lies outside the
    backup directory, the save file holds the content the backup
    [find] selected had, and the backup directory is as before. *)
Theorem load_restores_selected (self self' : CommandHandler.t)
        (args : list string) (w w' : world) (msg : string) :
  child_of gen_backup_dir_path (SaveFile.path (CommandHandler.save_file self)) = None ->
  List.length args <= 1 ->
  execute self ("load" :: args) w = (Ok (msg, self'), w') ->
  exists b data,
    BackupDir.find w (CommandHandler.backup_dir self) (hd "" args) = Ok b
    /\ stat w (Backup.path b) = Some (KFile data)
    /\ stat w' (SaveFile.path (CommandHandler.save_file self)) = Some (KFile data)
    /\ listing w' = listing w
    /\ msg = "Loaded backup " ++ Backup.name b.
Proof.
  intros C L E.
  set (sp := SaveFile.path (CommandHandler.save_file self)) in *.
  destruct (execute_alias self args) as [_ [_ [_ [El _]]]].
  rewrite El in E. unfold Handlers.load in E.
  rewrite with_selector_ok in E by assumption.
  apply bind_ok in E as [b [w1 [F H]]].
  unfold lift in F.
  destruct (BackupDir.find w (CommandHandler.backup_dir self) (hd "" args))
    as [b0|e] eqn:Fd; [|discriminate].
  injection F as -> <-.
  apply bind_ok in H as [[] [w2 [Ld H]]].
  injection H as <- <- <-.
  unfold Backup.load in Ld. fold sp in Ld.
  apply copy_file_ok in Ld as [data [w3 [R [Sm [[L3 [O3 _]] W]]]]].
  destruct (yielded_child _ _ _ (find_ok_yielded _ _ _ _ Fd)) as [f P].
  rewrite isdir_stat in Sm, W.
  assert (S0 : stat w sp = if Path_eqb sp gen_backup_dir_path then Some KDir
                           else option_map KFile (assoc_path sp (outside w)))
    by (unfold stat; now rewrite C).
  rewrite S0 in Sm, W.
  destruct (Path_eqb sp gen_backup_dir_path) eqn:Q.
  - (* the save file's path is the backup directory: the copy would
       land on the backup itself *)
    exfalso. apply Path_eqb_eq in Q. rewrite Q, P in Sm.
    change (gen_backup_dir_path ++ [name (gen_backup_dir_path ++ [f])%list])%list
      with (gen_backup_dir_path ++ [f])%list in Sm.
    unfold samefile in Sm. rewrite P in R.
    rewrite (stat_os_stat _ _ _ R), Path_eqb_refl in Sm. discriminate.
  - assert (W' : write_file sp data w3 = (Ok tt, w2))
      by (destruct (assoc_path sp (outside w)); exact W).
    destruct (write_file_outside _ _ _ _ C W') as [Lw Ow].
    exists b, data. repeat split; try assumption.
    + unfold stat. rewrite C, Q, Ow, assoc_path_set. reflexivity.
    + now rewrite Lw.
Qed.

Lemma load_restores_selected_witness :
  exists b data,
    BackupDir.find w_three (CommandHandler.backup_dir cmd_handler)
                   (hd "" ["gamma"]) = Ok b
    /\ stat w_three (Backup.path b) = Some (KFile data)
    /\ stat (mkWorld (listing w_three) [(["save"; "DS2.sl2"], "C")]
                     (clock w_three) 1 [])
            (SaveFile.path (CommandHandler.save_file cmd_handler))
       = Some (KFile data).
Proof.
  destruct (load_restores_selected cmd_handler cmd_handler ["gamma"] w_three
              (mkWorld (listing w_three) [(["save"; "DS2.sl2"], "C")]
                       (clock w_three) 1 [])
              "Loaded backup gamma")
    as [b [data [F [S [S' _]]]]].
  - reflexivity.
  - cbn. lia.
  - reflexivity.
  - exists b, data. auto.
Defined.

(** What a copy onto a child of the backup directory leaves behind. *)
Lemma copy_file_child (w w' : world) (src : Path) (f : string) :
  assoc f (listing w) <> Some KDir ->
  copy_file src (gen_backup_dir_path ++ [f])%list w = (Ok tt, w') ->
  exists data,
    stat w src = Some (KFile data)
    /\ outside w' = outside w
    /\ assoc f (listing w') = Some (KFile data)
    /\ (forall f', f' <> f -> assoc f' (listing w') = assoc f' (listing w))
    /\ (assoc f (listing w) <> None ->
        map fst (listing w') = map fst (listing w))
    /\ (assoc f (listing w) = None ->
        List.length (listing w') = S (List.length (listing w))).
Proof.
  intros ND C.
  apply copy_file_ok in C as [data [w1 [R [_ [[L [O [Sl _]]] W]]]]].
  rewrite isdir_stat, stat_child in W.
  assert (T : match assoc f (listing w) with Some KDir => true | _ => false end
              = false)
    by (destruct (assoc f (listing w)) as [[d|]|]; congruence).
  rewrite T in W.
  apply write_file_child in W as [Ow W]. rewrite L, Sl in W. rewrite O in Ow.
  exists data. split; [assumption|]. split; [assumption|].
  destruct W as [[A Lw]|[A Lw]]; rewrite Lw.
  - split; [|split; [|split]].
    + rewrite assoc_replace_entry, String.eqb_refl.
      destruct (assoc f (listing w)); [reflexivity | contradiction].
    + intros f' N. rewrite assoc_replace_entry.
      destruct (String.eqb_spec f' f); [contradiction | reflexivity].
    + intros _. clear. induction (listing w) as [|[g n] l IH]; cbn; [reflexivity|].
      destruct (String.eqb f g); cbn; [reflexivity | now rewrite IH].
    + intros X. contradiction.
  - split; [|split; [|split]].
    + now rewrite assoc_insert_at, String.eqb_refl.
    + intros f' N. rewrite assoc_insert_at by assumption.
      destruct (String.eqb_spec f' f); [contradiction | reflexivity].
    + intros X. now contradiction X.
    + intros _. unfold insert_at. rewrite length_app. cbn [List.length].
      rewrite <- (firstn_skipn (slot w) (listing w)) at 3.
      rewrite length_app. lia.
Qed.

(** X11: when [save] succeeds with a name without a separator, the
    file [create] named holds the content the save file had; no other
    entry of the directory and no file outside it has changed, and the
    answer names the backup.  A file of that name already listed is
    overwritten in place; otherwise the listing grows by one. *)
Theorem save_captures_live_file (self self' : CommandHandler.t)
        (args : list string) (w w' : world) (msg : string) :
  CommandHandler.backup_dir self = main_backup_dir ->
  valid (clock w) = true ->
  List.length args <= 1 ->
  Py.contains "/" (hd "" args) = false ->
  execute self ("save" :: args) w = (Ok (msg, self'), w') ->
  let f := file_name (hd "" args) (clock w) in
  exists data,
    stat w (SaveFile.path (CommandHandler.save_file self)) = Some (KFile data)
    /\ assoc f (listing w') = Some (KFile data)
    /\ (forall f', f' <> f -> assoc f' (listing w') = assoc f' (listing w))
    /\ outside w' = outside w
    /\ msg = "Saved backup " ++ hd "" args
    /\ (assoc f (listing w) <> None ->
        map fst (listing w') = map fst (listing w))
    /\ (assoc f (listing w) = None ->
        List.length (listing w') = S (List.length (listing w))).
Proof.
  intros D V L Hn E f.
  destruct (execute_alias self args) as [_ [_ [Es _]]].
  rewrite Es in E. unfold Handlers.save in E.
  rewrite with_selector_ok in E by assumption.
  apply bind_ok in E as [b [w1 [C H]]].
  unfold lift in C. rewrite D in C.
  change (BackupDir.create w main_backup_dir (Some (hd "" args)) None)
    with (BackupDir.create w main_backup_dir (Some (hd "" args)) (Some (clock w)))
    in C.
  rewrite create_path in C by assumption.
  cbn [BackupDir.path main_backup_dir] in C. fold f in C.
  destruct (Backup.init w (gen_backup_dir_path ++ [f])%list) as [b0|e] eqn:I;
    [|discriminate].
  injection C as -> <-.
  destruct (init_inv _ _ _ I) as [-> [NF _]].
  apply bind_ok in H as [[] [w2 [S H]]].
  assert (Nm : Backup.str (Backup.mk (gen_backup_dir_path ++ [f])%list)
               = hd "" args)
    by (apply (name_file_name gen_backup_dir_path (hd "" args) (clock w) V)).
  unfold ret in H. rewrite Nm in H.
  injection H as <- <- <-.
  unfold Backup.save in S. cbn [Backup.path] in S.
  assert (ND : assoc f (listing w) <> Some KDir).
  { intros A.
    rewrite (listed_not_a_file w (gen_backup_dir_path ++ [f])%list KDir A) in NF.
    discriminate. }
  destruct (copy_file_child _ _ _ _ ND S) as [data [R [O [A [Oth [Ov Gr]]]]]].
  exists data. repeat split; assumption.
Qed.

Lemma save_captures_live_file_witness :
  exists data,
    stat w_three (SaveFile.path (CommandHandler.save_file cmd_handler))
    = Some (KFile data)
    /\ assoc (file_name (hd "" ["checkpoint"]) (clock w_three)) (listing w_checkpoint)
       = Some (KFile data).
Proof.
  destruct (save_captures_live_file cmd_handler cmd_handler ["checkpoint"]
              w_three w_checkpoint "Saved backup checkpoint")
    as [data [R [A _]]].
  - reflexivity.
  - reflexivity.
  - cbn. lia.
  - reflexivity.
  - reflexivity.
  - exists data. auto.
Defined.


(** ** The handler's state and the interactive loop *)

Lemma keeps_self_bind {A} (self : CommandHandler.t) (c : M A)
      (k : A -> M (string * CommandHandler.t)) :
  (forall a, keeps_self self (k a)) -> keeps_self self (bind c k).
Proof.
  intros H w s self' w' E. apply bind_ok in E as [a [w1 [_ E]]].
  exact (H a _ _ _ _ E).
Qed.

Lemma keeps_self_ret (self : CommandHandler.t) (s : string) :
  keeps_self self (ret (s, self)).
Proof. intros w s' self' w' [= _ <- _]. reflexivity. Qed.

Lemma keeps_self_raise (self : CommandHandler.t) (e : exc) :
  keeps_self self (raise e).
Proof. intros w s self' w'. discriminate. Qed.

Lemma keeps_self_with_selector (self : CommandHandler.t) (q : string)
      (args : list string) (k : string -> M (string * CommandHandler.t)) :
  (forall s, keeps_self self (k s)) ->
  keeps_self self (Handlers.with_selector q args k).
Proof.
  intros H. unfold Handlers.with_selector.
  destruct args as [|s [|s' args]]; try apply H. apply keeps_self_raise.
Qed.

Lemma keeps_self_list (self : CommandHandler.t) (args : list string) :
  keeps_self self (Handlers.list self args).
Proof.
  unfold Handlers.list. destruct args; [|apply keeps_self_raise].
  intros w s self' w'. unfold lift.
  destruct (BackupDir.backups w (CommandHandler.backup_dir self)) as [bs [e|]];
    [discriminate|].
  destruct bs as [|b bs]; [now intros [= _ <- _]|].
  destruct (Handlers.rows 1 (b :: bs)); cbn; [now intros [= _ <- _] | discriminate].
Qed.

Lemma keeps_self_save (self : CommandHandler.t) (args : list string) :
  keeps_self self (Handlers.save self args).
Proof.
  apply keeps_self_with_selector. intros s.
  apply keeps_self_bind. intros b. apply keeps_self_bind. intros _.
  apply keeps_self_ret.
Qed.

Lemma keeps_self_load (self : CommandHandler.t) (args : list string) :
  keeps_self self (Handlers.load self args).
Proof.
  apply keeps_self_with_selector. intros s.
  apply keeps_self_bind. intros b. apply keeps_self_bind. intros _.
  apply keeps_self_ret.
Qed.

Lemma keeps_self_delete (self : CommandHandler.t) (args : list string) :
  keeps_self self (Handlers.delete self args).
Proof.
  apply keeps_self_with_selector. intros s.
  apply keeps_self_bind. intros b. apply keeps_self_bind. intros _.
  apply keeps_self_ret.
Qed.

(** Which handler [execute] calls for a first token. *)
Lemma execute_cases (self : CommandHandler.t) (cmd : string) (args : list string) :
  execute self (cmd :: args) = Handlers.list self args
  \/ execute self (cmd :: args) = Handlers.save self args
  \/ execute self (cmd :: args) = Handlers.load self args
  \/ execute self (cmd :: args) = Handlers.delete self args
  \/ ((cmd = "quit" \/ cmd = "q")
      /\ execute self (cmd :: args) = Handlers.quit self args)
  \/ execute self (cmd :: args) = raise (UnknownModeError cmd).
Proof.
  unfold execute, commands.
  cbn [execute_in Command.has_alias Command.aliases Command.fun_ existsb].
  destruct (String.eqb_spec cmd "list"); [now left|].
  destruct (String.eqb_spec cmd "ls"); [now left|].
  destruct (String.eqb_spec cmd "save"); [right; now left|].
  destruct (String.eqb_spec cmd "load"); [right; right; now left|].
  destruct (String.eqb_spec cmd "delete"); [right; right; right; now left|].
  destruct (String.eqb_spec cmd "del"); [right; right; right; now left|].
  destruct (String.eqb_spec cmd "quit"); [right; right; right; right; left; auto|].
  destruct (String.eqb_spec cmd "q"); [right; right; right; right; left; auto|].
  right; right; right; right; right. reflexivity.
Qed.

Lemma execute_self (self self' : CommandHandler.t) (argv : list string)
      (w w' : world) (s : string) :
  execute self argv w = (Ok (s, self'), w') ->
  self' = self
  \/ ((argv = ["quit"] \/ argv = ["q"])
      /\ self' = stopped self /\ w' = w /\ s = "Quitting...").
Proof.
  destruct argv as [|cmd args]; [discriminate|].
  destruct (execute_cases self cmd args)
    as [E|[E|[E|[E|[[C E]|E]]]]]; rewrite E.
  - intros H. left. exact (keeps_self_list _ _ _ _ _ _ H).
  - intros H. left. exact (keeps_self_save _ _ _ _ _ _ H).
  - intros H. left. exact (keeps_self_load _ _ _ _ _ _ H).
  - intros H. left. exact (keeps_self_delete _ _ _ _ _ _ H).
  - unfold Handlers.quit. destruct args; [|discriminate].
    intros [= <- <- <-]. right.
    split; [destruct C as [->| ->]; auto|]. auto.
  - discriminate.
Qed.

Lemma execute_safe_ok (self : CommandHandler.t) (argv : list string) (w : world) :
  exists s self' w',
    execute_safe self argv w = (Ok (s, self'), w')
    /\ (self' = self
        \/ ((argv = ["quit"] \/ argv = ["q"])
            /\ self' = stopped self /\ w' = w /\ s = "Quitting...")).
Proof.
  unfold execute_safe.
  destruct (execute self argv w) as [[[s self']|e] w'] eqn:E.
  - exists s, self', w'. split; [reflexivity|]. exact (execute_self _ _ _ _ _ _ E).
  - assert (X : is_Exception e = true) by (destruct e; reflexivity).
    rewrite X. exists (describe e), self, w'. auto.
Qed.

Lemma execute_safe_quit (self : CommandHandler.t) (argv : list string) (w : world) :
  argv = ["quit"] \/ argv = ["q"] ->
  execute_safe self argv w = (Ok ("Quitting...", stopped self), w).
Proof. intros [->| ->]; reflexivity. Qed.

(** X12: the only command that changes the handler is [quit] (or [q])
    without arguments: it clears [running], answers [Quitting...] and
    touches no file.  After any other token list, a [quit] with an
    argument among them, the handler is as before. *)
Theorem only_quit_stops (self : CommandHandler.t) (argv : list string) (w : world) :
  (argv = ["quit"] \/ argv = ["q"] ->
   execute_safe self argv w = (Ok ("Quitting...", stopped self), w))
  /\ (argv <> ["quit"] -> argv <> ["q"] ->
      exists s w', execute_safe self argv w = (Ok (s, self), w')).
Proof.
  split.
  - apply execute_safe_quit.
  - intros N1 N2.
    destruct (execute_safe_ok self argv w) as [s [self' [w' [E [->|[[C|C] _]]]]]];
      [eauto | contradiction | contradiction].
Qed.

Lemma only_quit_stops_witness :
  execute_safe cmd_handler ["q"] w_three
  = (Ok ("Quitting...", stopped cmd_handler), w_three)
  /\ exists s w',
       execute_safe cmd_handler ["quit"; "now"] w_three
       = (Ok (s, cmd_handler), w').
Proof.
  split.
  - apply (proj1 (only_quit_stops cmd_handler ["q"] w_three)). now right.
  - apply (proj2 (only_quit_stops cmd_handler ["quit"; "now"] w_three));
      discriminate.
Defined.

Lemma loop_from_stopped (self : CommandHandler.t) (lines : list string) (w : world) :
  CommandHandler.running self = Some false ->
  loop_from self lines w = ([], Stopped, self, w).
Proof. intros R. destruct lines; cbn [loop_from]; now rewrite R. Qed.

Lemma loop_from_goes_on (self : CommandHandler.t) (pre rest : list string)
      (w : world) :
  CommandHandler.running self = Some true ->
  (forall l, In l pre -> goes_on l) ->
  exists outs w',
    loop_from self (pre ++ rest)%list w
    = (let '(o, e, s, x) := loop_from self rest w' in (outs ++ o, e, s, x))%list
    /\ List.length outs = List.length pre.
Proof.
  intros R. revert w. induction pre as [|l pre IH]; intros w H.
  - exists [], w. split; [|reflexivity].
    change ([] ++ rest)%list with rest.
    destruct (loop_from self rest w) as [[[o e] s] x]. reflexivity.
  - destruct (H l (or_introl eq_refl)) as [tokens [T [N1 N2]]].
    destruct (execute_safe_ok self tokens w)
      as [s [self' [w1 [E [->|[[C|C] _]]]]]]; try contradiction.
    destruct (IH w1) as [outs [w' [L Len]]]; [intros; apply H; now right|].
    exists (s :: outs), w'. split; [|cbn; now rewrite Len].
    change ((l :: pre) ++ rest)%list with (l :: (pre ++ rest))%list.
    cbn [loop_from]. rewrite R, T, E, L.
    now destruct (loop_from self rest w') as [[[o e] s'] x].
Qed.

(** X13: the loop answers every line that tokenises, one answer per
    line, and stops at the first line that is the command [quit] or
    [q] alone: its answer is the last one, [running] is cleared and
    the lines behind it are not read. *)
Theorem loop_stops_at_quit (self : CommandHandler.t) (pre post : list string)
        (q : string) (w : world) :
  (forall l, In l pre -> goes_on l) ->
  Shlex.split q = Ok ["quit"] \/ Shlex.split q = Ok ["q"] ->
  exists outs self' w',
    loop self (pre ++ q :: post)%list w
    = ((outs ++ ["Quitting..."])%list, Stopped, self', w')
    /\ List.length outs = List.length pre
    /\ CommandHandler.running self' = Some false.
Proof.
  intros H Q. unfold loop.
  set (s0 := CommandHandler.mk _ _ (Some true)).
  destruct (loop_from_goes_on s0 pre (q :: post) w eq_refl H)
    as [outs [w' [L Len]]].
  exists outs, (stopped s0), w'. rewrite L. cbn [loop_from].
  cbn [CommandHandler.running s0].
  assert (E : exists tokens, Shlex.split q = Ok tokens
                             /\ (tokens = ["quit"] \/ tokens = ["q"]))
    by (destruct Q; eauto).
  destruct E as [tokens [T C]]. rewrite T.
  rewrite (execute_safe_quit s0 tokens w' C).
  rewrite (loop_from_stopped (stopped s0) post w' eq_refl).
  auto.
Qed.


(** ** Tokenising a line *)

Lemma plain_facts (c : ascii) :
  plain c = true ->
  Py.contains c Shlex.whitespace = false
  /\ Py.contains c Shlex.quotes = false
  /\ Py.contains c Shlex.escape = false.
Proof.
  unfold plain. intros H. apply negb_true_iff in H.
  apply orb_false_iff in H as [H E]. apply orb_false_iff in H as [W Q]. auto.
Qed.

Lemma lex_white_plain (c : ascii) (rest token : string) (quoted : bool)
      (esc : ascii) :
  plain c = true ->
  Shlex.lex (String c rest) (Some " "%char) token quoted esc
  = Shlex.lex rest (Some "a"%char) (String c "") quoted esc.
Proof.
  intros H. destruct (plain_facts _ H) as [W [Q E]].
  cbn [Shlex.lex].
  change (Ascii.eqb " " " ") with true. cbv iota.
  now rewrite W, E, Q.
Qed.

Lemma lex_word_plain (c : ascii) (rest token : string) (quoted : bool)
      (esc : ascii) :
  plain c = true ->
  Shlex.lex (String c rest) (Some "a"%char) token quoted esc
  = Shlex.lex rest (Some "a"%char) (token ++ String c "") quoted esc.
Proof.
  intros H. destruct (plain_facts _ H) as [W [Q E]].
  cbn [Shlex.lex].
  change (Ascii.eqb "a" " ") with false.
  change (Py.contains "a" Shlex.quotes) with false.
  change (Py.contains "a" Shlex.escape) with false.
  cbv iota. now rewrite W, Q, E.
Qed.

Lemma lex_word (wd rest token : string) (quoted : bool) (esc : ascii) :
  all_plain wd = true ->
  Shlex.lex (wd ++ rest) (Some "a"%char) token quoted esc
  = Shlex.lex rest (Some "a"%char) (token ++ wd) quoted esc.
Proof.
  revert token. induction wd as [|c wd IH]; intros token H.
  - cbn [append]. f_equal. clear. induction token; cbn; congruence.
  - cbn [all_plain] in H. apply andb_true_iff in H as [Hc Hw].
    cbn [append]. rewrite lex_word_plain by assumption.
    rewrite IH by assumption. now rewrite append_assoc.
Qed.

(** A plain word read from the white-space state is collected whole. *)
Lemma lex_plain_word (wd rest : string) (quoted : bool) (esc : ascii) :
  plain_word wd ->
  Shlex.lex (wd ++ rest) (Some " "%char) "" quoted esc
  = Shlex.lex rest (Some "a"%char) wd quoted esc.
Proof.
  intros [N H]. destruct wd as [|c wd]; [contradiction|].
  cbn [all_plain] in H. apply andb_true_iff in H as [Hc Hw].
  cbn [append]. rewrite lex_white_plain by assumption.
  now rewrite lex_word.
Qed.

Lemma lex_word_blank (rest token : string) :
  token <> "" ->
  Shlex.lex (String " " rest) (Some "a"%char) token false " "
  = bind_result (Shlex.lex rest (Some " "%char) "" false " ")
                (fun tokens => Ok (token :: tokens)).
Proof.
  intros N. cbn [Shlex.lex].
  change (Ascii.eqb "a" " ") with false.
  change (Py.contains "a" Shlex.quotes) with false.
  change (Py.contains "a" Shlex.escape) with false.
  change (Py.contains " " Shlex.whitespace) with true.
  cbv iota. destruct token as [|c token]; [contradiction|].
  reflexivity.
Qed.

Lemma lex_word_end (token : string) :
  token <> "" ->
  Shlex.lex "" (Some "a"%char) token false " " = Ok [token].
Proof. intros N. destruct token; [contradiction | reflexivity]. Qed.

Lemma split_join_words (words : list string) :
  (forall wd, In wd words -> plain_word wd) ->
  Shlex.lex (Py.join " " words) (Some " "%char) "" false " " = Ok words.
Proof.
  induction words as [|wd words IH]; intros H; [reflexivity|].
  assert (P : plain_word wd) by (apply H; now left).
  destruct words as [|wd' words].
  - cbn [Py.join]. rewrite <- (lex_word_end wd) by apply P.
    rewrite <- (lex_plain_word wd "" false " " P).
    f_equal. clear. induction wd; cbn; congruence.
  - change (Py.join " " (wd :: wd' :: words))
      with (wd ++ String " " (Py.join " " (wd' :: words))).
    rewrite lex_plain_word by assumption.
    rewrite lex_word_blank by apply P.
    rewrite IH by (intros; apply H; now right). reflexivity.
Qed.

(** A line of words without white space, quote or backslash,
    separated by single blanks, is split into exactly those words. *)
Lemma split_plain_words (words : list string) :
  (forall wd, In wd words -> plain_word wd) ->
  Shlex.split (Py.join " " words) = Ok words.
Proof. apply split_join_words. Qed.

Lemma lex_in_single_quote (body token : string) (quoted : bool) (esc : ascii) :
  Py.contains "'" body = false ->
  Shlex.lex body (Some "'"%char) token quoted esc
  = Raise (ValueError "No closing quotation").
Proof.
  revert token quoted. induction body as [|c body IH]; intros token quoted H.
  - reflexivity.
  - cbn [Py.contains] in H. apply orb_false_iff in H as [Hc Hb].
    cbn [Shlex.lex].
    change (Ascii.eqb "'" " ") with false.
    change (Py.contains "'" Shlex.quotes) with true.
    change (Py.contains "'" Shlex.escapedquotes) with false.
    cbv iota. rewrite Hc, andb_false_r. now apply IH.
Qed.

Lemma lex_open_single_quote (rest token : string) (quoted : bool) (esc : ascii) :
  Shlex.lex (String "'" rest) (Some " "%char) token quoted esc
  = Shlex.lex rest (Some "'"%char) token quoted esc.
Proof. reflexivity. Qed.

Lemma split_unclosed (words : list string) (body : string) :
  (forall wd, In wd words -> plain_word wd) ->
  Py.contains "'" body = false ->
  Shlex.lex (Py.join " " (words ++ [String "'" body])%list)
            (Some " "%char) "" false " "
  = Raise (ValueError "No closing quotation").
Proof.
  intros H B. induction words as [|wd words IH].
  - change ([] ++ [String "'" body])%list with [String "'" body].
    cbn [Py.join]. rewrite lex_open_single_quote.
    now apply lex_in_single_quote.
  - assert (P : plain_word wd) by (apply H; now left).
    assert (J : Py.join " " ((wd :: words) ++ [String "'" body])%list
                = wd ++ String " " (Py.join " " (words ++ [String "'" body])%list)).
    { change ((wd :: words) ++ [String "'" body])%list
        with (wd :: (words ++ [String "'" body]))%list.
      cbn [Py.join]. destruct (words ++ [String "'" body])%list eqn:E;
        [now destruct words | reflexivity]. }
    rewrite J, lex_plain_word by assumption.
    rewrite lex_word_blank by apply P.
    rewrite IH by (intros; apply H; now right). reflexivity.
Qed.

(** A line whose last word opens a single quote that is never closed
    does not tokenise. *)
Lemma split_unclosed_quote (words : list string) (body : string) :
  (forall wd, In wd words -> plain_word wd) ->
  Py.contains "'" body = false ->
  Shlex.split (Py.join " " (words ++ [String "'" body])%list)
  = Raise (ValueError "No closing quotation").
Proof. apply split_unclosed. Qed.

(** X14: a line of plain words separated by single blanks, other
    than the command that stops the loop, is answered with what
    [execute_safe] returns for exactly those words; the loop then asks
    for the next line. *)
Theorem loop_answers_plain_line (self : CommandHandler.t) (words : list string)
        (w : world) :
  (forall wd, In wd words -> plain_word wd) ->
  words <> ["quit"] -> words <> ["q"] ->
  let s0 := CommandHandler.mk (CommandHandler.save_file self)
                              (CommandHandler.backup_dir self) (Some true) in
  exists s w',
    execute_safe s0 words w = (Ok (s, s0), w')
    /\ loop self [Py.join " " words] w = ([s], InputExhausted, s0, w').
Proof.
  intros P N1 N2 s0.
  destruct (execute_safe_ok s0 words w)
    as [s [self' [w' [E [->|[[C|C] _]]]]]]; try contradiction.
  exists s, w'. split; [assumption|].
  unfold loop. fold s0. cbn [loop_from]. cbn [CommandHandler.running s0].
  now rewrite (split_plain_words words P), E.
Qed.

Lemma loop_answers_plain_line_witness :
  exists s w',
    execute_safe (CommandHandler.mk ds2_save main_backup_dir (Some true))
                 ["load"; "gamma"] w_three
    = (Ok (s, CommandHandler.mk ds2_save main_backup_dir (Some true)), w')
    /\ loop cmd_handler [Py.join " " ["load"; "gamma"]] w_three
       = ([s], InputExhausted,
          CommandHandler.mk ds2_save main_backup_dir (Some true), w').
Proof.
  apply (loop_answers_plain_line cmd_handler ["load"; "gamma"] w_three).
  - intros wd [<-|[<-|[]]]; (split; [discriminate | reflexivity]).
  - discriminate.
  - discriminate.
Defined.

Lemma loop_escapes (self : CommandHandler.t)
      (pre post : list string) (bad : string) (e : exc) (w : world) :
  (forall l, In l pre -> goes_on l) ->
  Shlex.split bad = Raise e ->
  exists outs self' w',
    loop self (pre ++ bad :: post)%list w = (outs, Escaped e, self', w')
    /\ List.length outs = List.length pre.
Proof.
  intros H B. unfold loop.
  set (s0 := CommandHandler.mk _ _ (Some true)).
  destruct (loop_from_goes_on s0 pre (bad :: post) w eq_refl H)
    as [outs [w' [L Len]]].
  exists outs, s0, w'. rewrite L. cbn [loop_from].
  cbn [CommandHandler.running s0]. rewrite B.
  now rewrite app_nil_r.
Qed.

(** X15: a line whose last word opens a single quote that is never
    closed ends the loop: the [ValueError] of [shlex.split] is raised
    outside [execute_safe] and escapes, after one answer for each line
    before it; the lines behind it are not read. *)
Theorem loop_escapes_on_unclosed_quote (self : CommandHandler.t)
        (pre post words : list string) (body : string) (w : world) :
  (forall l, In l pre -> goes_on l) ->
  (forall wd, In wd words -> plain_word wd) ->
  Py.contains "'" body = false ->
  exists outs self' w',
    loop self (pre ++ Py.join " " (words ++ [String "'" body])%list :: post)%list w
    = (outs, Escaped (ValueError "No closing quotation"), self', w')
    /\ List.length outs = List.length pre.
Proof.
  intros H P B. apply loop_escapes; [assumption|].
  now apply split_unclosed_quote.
Qed.

Lemma loop_escapes_on_unclosed_quote_witness :
  exists outs self' w',
    loop cmd_handler
         (["ls"] ++ Py.join " " (["save"] ++ [String "'" "my backup"])%list
                 :: ["q"])%list w_empty
    = (outs, Escaped (ValueError "No closing quotation"), self', w')
    /\ List.length outs = List.length ["ls"].
Proof.
  apply (loop_escapes_on_unclosed_quote cmd_handler ["ls"] ["q"] ["save"]
           "my backup").
  - intros l [<-|[]]. exists ["ls"]. repeat split; discriminate.
  - intros wd [<-|[]]. split; [discriminate | reflexivity].
  - reflexivity.
Defined.

Lemma loop_stops_at_quit_witness :
  exists outs self' w',
    loop cmd_handler (["ls"; "quit now"] ++ "q" :: ["ls"])%list w_empty
    = ((outs ++ ["Quitting..."])%list, Stopped, self', w')
    /\ List.length outs = List.length ["ls"; "quit now"]
    /\ CommandHandler.running self' = Some false.
Proof.
  apply (loop_stops_at_quit cmd_handler ["ls"; "quit now"] ["ls"] "q").
  - intros l [<-|[<-|[]]].
    + exists ["ls"]. repeat split; discriminate.
    + exists ["quit"; "now"]. repeat split; discriminate.
  - right. reflexivity.
Defined.


Lemma create_file_name (w : world) (name : string) (t : datetime) :
  valid t = true ->
  Py.contains "/" name = false ->
  fs_length (file_name name t) <= NAME_MAX ->
  not_a_file w (gen_backup_dir_path ++ [file_name name t])%list = false ->
  BackupDir.create w main_backup_dir (Some name) (Some t)
  = Ok (Backup.mk (gen_backup_dir_path ++ [file_name name t])%list).
Proof.
  intros V Hn Len NF. rewrite create_path by assumption.
  cbn [BackupDir.path main_backup_dir].
  destruct (child_tested w (file_name name t) Len) as [r E].
  apply (init_ok w _ r E); [assumption|]. unfold parses.
  rewrite time_file_name by assumption.
  now rewrite (strptime_strftime_any t V).
Qed.

Lemma isdir_child (w : world) (f : string) :
  not_a_file w (gen_backup_dir_path ++ [f])%list = false ->
  isdir w (gen_backup_dir_path ++ [f])%list = false.
Proof.
  intros NF. rewrite isdir_stat, stat_child.
  destruct (assoc f (listing w)) as [[d|]|] eqn:A; try reflexivity.
  rewrite (listed_not_a_file w (gen_backup_dir_path ++ [f])%list KDir A) in NF.
  discriminate.
Qed.

Lemma probe_child (w : world) (f : string) :
  Py.contains Ascii.zero f = false ->
  probe (gen_backup_dir_path ++ [f])%list w = Ok tt.
Proof.
  intros Z. unfold probe.
  destruct (assoc f (listing w)) as [n|] eqn:A.
  - now rewrite (stat_os_stat w _ n) by exact A.
  - rewrite (os_stat_child w f A), Z.
    destruct (NAME_MAX <? fs_length f)%nat; reflexivity.
Qed.

(** X16: [SaveFile] looks for its file only when it is constructed.
    When the operating system no longer finds the file at the time of
    a [save] ([ENOENT] for a path that ends in an ordinary name), with
    a name for the backup that the file system takes, the backup
    object is still
    created, the copy fails when it opens the source, and the safe
    boundary answers with the text of that error: no file is written
    and the handler is as before. *)
Theorem save_without_live_file (self : CommandHandler.t) (args : list string)
        (w : world) :
  CommandHandler.backup_dir self = main_backup_dir ->
  faults w = [] ->
  valid (clock w) = true ->
  List.length args <= 1 ->
  Py.contains "/" (hd "" args) = false ->
  Py.contains Ascii.zero (file_name (hd "" args) (clock w)) = false ->
  fs_length (file_name (hd "" args) (clock w)) <= NAME_MAX ->
  not_a_file w (gen_backup_dir_path
                ++ [file_name (hd "" args) (clock w)])%list = false ->
  entry_name (Pathlib.name (SaveFile.path (CommandHandler.save_file self))) ->
  os_stat w (SaveFile.path (CommandHandler.save_file self)) = Raise ENOENT ->
  execute_safe self ("save" :: args) w
  = (Ok ("FileNotFoundError: 2: No such file or directory", self), w).
Proof.
  intros D F V L Hn Z Len NF _ St.
  destruct (execute_alias self args) as [_ [_ [Es _]]].
  unfold execute_safe. rewrite Es. unfold Handlers.save.
  rewrite with_selector_ok by assumption.
  unfold bind at 1. unfold lift. rewrite D.
  change (BackupDir.create w main_backup_dir (Some (hd "" args)) None)
    with (BackupDir.create w main_backup_dir (Some (hd "" args))
            (Some (clock w))).
  rewrite (create_file_name w _ _ V Hn Len NF).
  unfold Backup.save, copy_file. cbn [Backup.path].
  unfold bind, lift.
  rewrite (isdir_child w _ NF).
  unfold samefile. rewrite St. cbn [ENOENT].
  unfold probe at 1. rewrite St. cbn [ENOENT].
  rewrite (probe_child w _ Z).
  unfold next_fault, read_file. rewrite F, St.
  reflexivity.
Qed.

Lemma save_without_live_file_witness :
  execute_safe cmd_handler ["save"; "alpha"]
               (mkWorld [] [] (mkDatetime 2025 2 3 4 5 6 0) 0 [])
  = (Ok ("FileNotFoundError: 2: No such file or directory", cmd_handler),
     mkWorld [] [] (mkDatetime 2025 2 3 4 5 6 0) 0 []).
Proof.
  apply (save_without_live_file cmd_handler ["alpha"]
           (mkWorld [] [] (mkDatetime 2025 2 3 4 5 6 0) 0 []));
    first [ reflexivity
          | cbn; lia
          | vm_compute; lia
          | split; [reflexivity | discriminate] ].
Defined.
